(** * SmlSchema-TS: a shallow embedding of the schema model, the scoped
    registry, the loader, the serializer, the name allocator, the
    indented string builder, the generated document and the parts of
    the code generator that work on one data type or one element.

    Conventions of the embedding.

    - A TypeScript method that can [throw] returns a [result]: [Ok v] for
      a normal return and [Throw msg] for [throw new Error(msg)].
    - A method that mutates [this] returns the new state of [this].
    - JavaScript strings are modelled as [string] (sequences of 8-bit
      characters); letter casing is the ASCII one.
    - JavaScript numbers are modelled by [number]: the integers (exact)
      and [NaN].  Fractions, infinities and the loss of precision above
      2^53 are outside the model.
    - A [Map<string,T>] keeps insertion order; it is an association list
      whose keys are pairwise distinct ([JsMap]). *)

From Stdlib Require Import ZArith Ascii String DecimalString.
From Stdlib Require DecimalPos DecimalZ.
From stdpp Require Import base tactics option list strings gmap.

Local Open Scope Z_scope.
Set Warnings "-register-all".

(* ====================================================================== *)
(** * Part I: the embedding *)
(* ====================================================================== *)

(** ** Exceptions *)

Inductive result (A : Type) : Type :=
| Ok (a : A)
| Throw (msg : string).
Arguments Ok {A} a.
Arguments Throw {A} msg.

#[global] Instance result_ret : MRet result := fun A a => Ok a.
#[global] Instance result_bind : MBind result := fun A B f r =>
  match r with
  | Ok a => f a
  | Throw msg => Throw msg
  end.

Definition throws {A} (r : result A) : Prop :=
  match r with Ok _ => False | Throw _ => True end.

(** [for (let x of xs) { body }] where the body updates a state and may
    throw. *)
Fixpoint forEach {A S : Type} (xs : list A) (body : A -> S -> result S)
    (s : S) : result S :=
  match xs with
  | [] => Ok s
  | x :: xs' => s' ← body x s; forEach xs' body s'
  end.

(** ** JavaScript strings *)

Module Js.

Definition lowerChar (c : ascii) : ascii :=
  let n := nat_of_ascii c in
  if ((65 <=? n)%nat && (n <=? 90)%nat)%bool then ascii_of_nat (n + 32) else c.

Definition upperChar (c : ascii) : ascii :=
  let n := nat_of_ascii c in
  if ((97 <=? n)%nat && (n <=? 122)%nat)%bool then ascii_of_nat (n - 32) else c.

Fixpoint mapChars (f : ascii -> ascii) (s : string) : string :=
  match s with
  | EmptyString => EmptyString
  | String c s' => String (f c) (mapChars f s')
  end.

(** [s.toLowerCase()], [s.toUpperCase()] *)
Definition toLowerCase (s : string) : string := mapChars lowerChar s.
Definition toUpperCase (s : string) : string := mapChars upperChar s.

(** The double quote, as a string. *)
Definition dq : string := String "034"%char EmptyString.

(** [s.length] *)
Definition length (s : string) : Z := Z.of_nat (String.length s).

(** [s.endsWith(suffix)]: [suffix] is [s] itself or a suffix of its
    tail. *)
Fixpoint endsWith (s suffix : string) : bool :=
  String.eqb s suffix ||
  match s with
  | EmptyString => false
  | String _ s' => endsWith s' suffix
  end.

(** The position of the first occurrence of [sub] in [s], if any. *)
Fixpoint find (s sub : string) : option nat :=
  if String.prefix sub s then Some 0%nat
  else match s with
       | EmptyString => None
       | String _ s' => S <$> find s' sub
       end.

(** [s.indexOf(sub)]: -1 when [sub] does not occur. *)
Definition indexOf (s sub : string) : Z :=
  match find s sub with
  | Some i => Z.of_nat i
  | None => -1
  end.

(** [s.includes(sub)] *)
Definition includes (s sub : string) : bool :=
  match find s sub with Some _ => true | None => false end.

Definition clamp (s : string) (i : Z) : nat :=
  Z.to_nat (Z.min (Z.max i 0) (length s)).

(** [s.substring(a, b)]: both indices are clamped to [0, s.length] and
    swapped when [a > b]. *)
Definition substring (s : string) (a b : Z) : string :=
  let a' := clamp s a in
  let b' := clamp s b in
  String.substring (Nat.min a' b') (Nat.max a' b' - Nat.min a' b') s.

(** [s.substring(a)] *)
Definition substringFrom (s : string) (a : Z) : string :=
  substring s a (length s).

Fixpoint drop (n : nat) (s : string) : string :=
  match n, s with
  | O, _ => s
  | S n', String _ s' => drop n' s'
  | S _, EmptyString => EmptyString
  end.

(** [s.split(sep)] for a non-empty separator: cut at each occurrence of
    [sep], searching on after the end of the previous one.  The fuel
    bounds the number of cuts; [String.length s] is enough. *)
Fixpoint splitFuel (fuel : nat) (s sep : string) : list string :=
  match fuel with
  | O => [s]
  | S fuel' =>
      match find s sep with
      | None => [s]
      | Some i =>
          String.substring 0 i s
            :: splitFuel fuel' (drop (i + String.length sep) s) sep
      end
  end.

(** [s.split(sep, limit)] *)
Definition split (s sep : string) (limit : nat) : list string :=
  take limit (splitFuel (String.length s) s sep).

(** [s.split(sep)] without a limit *)
Definition splitAll (s sep : string) : list string :=
  splitFuel (String.length s) s sep.

(** [s.repeat(count)]: a [RangeError] for a negative count. *)
Fixpoint repeatNat (s : string) (n : nat) : string :=
  match n with
  | O => EmptyString
  | S n' => s +:+ repeatNat s n'
  end.

Definition repeat (s : string) (count : Z) : result string :=
  if count <? 0 then Throw "RangeError: Invalid count value"
  else Ok (repeatNat s (Z.to_nat count)).


(** [array.indexOf(x) >= 0] on an array of strings *)
Definition arrayContains (xs : list string) (x : string) : bool :=
  existsb (String.eqb x) xs.

End Js.

(** ** JavaScript numbers *)

Inductive number : Type :=
| NaN
| Num (z : Z).

Module Number.

(** [a < b]: false as soon as one side is [NaN]. *)
Definition lt (a b : number) : bool :=
  match a, b with
  | Num x, Num y => x <? y
  | _, _ => false
  end.

(** [a === b]: [NaN] equals nothing. *)
Definition strictEq (a b : number) : bool :=
  match a, b with
  | Num x, Num y => x =? y
  | _, _ => false
  end.

(** The string concatenated for a number [n]. *)
Definition toString (n : number) : string :=
  match n with
  | NaN => "NaN"
  | Num z => NilZero.string_of_int (Z.to_int z)
  end.

Definition isWhiteSpace (c : ascii) : bool :=
  match c with
  | "009" | "010" | "011" | "012" | "013" | " " => true
  | _ => false
  end%char.

Fixpoint trimStart (s : string) : string :=
  match s with
  | String c s' => if isWhiteSpace c then trimStart s' else s
  | EmptyString => s
  end.

Definition decDigit (c : ascii) : option Z :=
  let n := nat_of_ascii c in
  if ((48 <=? n)%nat && (n <=? 57)%nat)%bool then Some (Z.of_nat n - 48)
  else None.

Definition hexDigit (c : ascii) : option Z :=
  let n := nat_of_ascii c in
  if ((48 <=? n)%nat && (n <=? 57)%nat)%bool then Some (Z.of_nat n - 48)
  else if ((97 <=? n)%nat && (n <=? 102)%nat)%bool then Some (Z.of_nat n - 87)
  else if ((65 <=? n)%nat && (n <=? 70)%nat)%bool then Some (Z.of_nat n - 55)
  else None.

(** The value of the longest prefix of digits of [s], scanned with the
    accumulator [acc]; [seen] records whether a digit was consumed. *)
Fixpoint digits (digit : ascii -> option Z) (radix : Z) (s : string)
    (seen : bool) (acc : Z) : option Z :=
  match s with
  | String c s' =>
      match digit c with
      | Some d => digits digit radix s' true (acc * radix + d)
      | None => if seen then Some acc else None
      end
  | EmptyString => if seen then Some acc else None
  end.

Definition unsignedPart (s : string) : option Z :=
  match s with
  | String "0" (String "x" s') | String "0" (String "X" s') =>
      digits hexDigit 16 s' false 0
  | _ => digits decDigit 10 s false 0
  end.

(** [Number.parseInt(s)] without a radix: leading white space is
    skipped, a sign is read, a [0x] prefix selects base 16, and the
    longest run of digits is converted; [NaN] when there is none. *)
Definition parseInt (s : string) : number :=
  let s := trimStart s in
  let '(sign, s) :=
    match s with
    | String "-" s' => (-1, s')
    | String "+" s' => (1, s')
    | _ => (1, s)
    end in
  match unsignedPart s with
  | Some v => Num (sign * v)
  | None => NaN
  end.



End Number.

(** ** Insertion-ordered maps with string keys *)

Module JsMap.

Definition t (T : Type) : Type := list (string * T).

Definition empty {T} : t T := [].

Fixpoint get {T} (m : t T) (key : string) : option T :=
  match m with
  | [] => None
  | (k, v) :: m' => if String.eqb k key then Some v else get m' key
  end.

Definition has {T} (m : t T) (key : string) : bool :=
  match get m key with Some _ => true | None => false end.

(** [m.set(key, v)]: an existing key keeps its position. *)
Fixpoint set {T} (m : t T) (key : string) (v : T) : t T :=
  match m with
  | [] => [(key, v)]
  | (k, v') :: m' =>
      if String.eqb k key then (k, v) :: m' else (k, v') :: set m' key v
  end.

(** [Array.from(m.values())] *)
Definition values {T} (m : t T) : list T := map snd m.

End JsMap.

(** ** SsRange *)

Module SsRange.

Record t : Type := mk { min : option number; max : option number }.

(** [constructor(min, max)] *)
Definition new (min max : option number) : result t :=
  match min, max with
  | Some mn, Some mx =>
      if Number.lt mx mn then Throw "Invalid bounds" else Ok (mk min max)
  | _, _ => Ok (mk min max)
  end.

Definition isRequired (r : t) : bool :=
  match min r, max r with
  | Some mn, Some mx => Number.strictEq mn (Num 1) && Number.strictEq mx (Num 1)
  | _, _ => false
  end.

Definition isOptional (r : t) : bool :=
  match min r, max r with
  | Some mn, Some mx => Number.strictEq mn (Num 0) && Number.strictEq mx (Num 1)
  | _, _ => false
  end.

Definition isRepeatedPlus (r : t) : bool :=
  match min r, max r with
  | Some mn, None => Number.strictEq mn (Num 1)
  | _, _ => false
  end.

Definition isRepeatedStar (r : t) : bool :=
  match min r, max r with
  | Some mn, None => Number.strictEq mn (Num 0)
  | None, None => true
  | _, _ => false
  end.

Definition isFixed (r : t) : bool :=
  match min r, max r with
  | Some mn, Some mx => Number.strictEq mn mx
  | _, _ => false
  end.

Definition required : result t := new (Some (Num 1)) (Some (Num 1)).
Definition optional : result t := new (Some (Num 0)) (Some (Num 1)).
Definition repeatedPlus : result t := new (Some (Num 1)) None.
Definition repeatedStar : result t := new None None.
Definition fixed (size : number) : result t := new (Some size) (Some size).

(** The five named constructors, as data. *)
Inductive named : Type :=
| Required
| Optional
| RepeatedPlus
| RepeatedStar
| Fixed (size : number).

Definition build (c : named) : result t :=
  match c with
  | Required => required
  | Optional => optional
  | RepeatedPlus => repeatedPlus
  | RepeatedStar => repeatedStar
  | Fixed size => fixed size
  end.

(** The five derived predicates, in the order of the source. *)
Definition predicates (r : t) : list bool :=
  [isRequired r; isOptional r; isRepeatedPlus r; isRepeatedStar r; isFixed r].

Definition holding (r : t) : nat := List.length (filter (fun b => b = true) (predicates r)).

End SsRange.

(** ** SsPredefinedType *)

Inductive SsPredefinedType : Type :=
| Bool
| Int
| UInt
| Number
| String_
| Date
| Time
| Base64
| DateTime.

#[global] Instance SsPredefinedType_eq_dec : EqDecision SsPredefinedType.
Proof. solve_decision. Defined.

Module SsPredefinedTypeUtil.

Definition getPredefinedTypeOrNull (str : string) : option SsPredefinedType :=
  let str := Js.toLowerCase str in
  if String.eqb str "bool" then Some Bool
  else if String.eqb str "int" then Some Int
  else if String.eqb str "uint" then Some UInt
  else if String.eqb str "number" then Some Number
  else if String.eqb str "string" then Some String_
  else if String.eqb str "date" then Some Date
  else if String.eqb str "time" then Some Time
  else if String.eqb str "base64" then Some Base64
  else if String.eqb str "datetime" then Some DateTime
  else None.

(** The [switch] has no case for [Base64]; control falls to the
    [throw] after it. *)
Definition getPredefinedTypeString (predefinedType : SsPredefinedType)
    : result string :=
  match predefinedType with
  | Bool => Ok "Bool"
  | Int => Ok "Int"
  | UInt => Ok "UInt"
  | Number => Ok "Number"
  | String_ => Ok "String"
  | Date => Ok "Date"
  | Time => Ok "Time"
  | DateTime => Ok "DateTime"
  | Base64 => Throw "Invalid predefined type string"
  end.

(** The members of the enum, in declaration order. *)
Definition all : list SsPredefinedType :=
  [Bool; Int; UInt; Number; String_; Date; Time; Base64; DateTime].

(** The name the loader's [switch] matches for each member, with the
    capitalisation of the enum declaration. *)
Definition canonicalName (p : SsPredefinedType) : string :=
  match p with
  | Bool => "Bool"
  | Int => "Int"
  | UInt => "UInt"
  | Number => "Number"
  | String_ => "String"
  | Date => "Date"
  | Time => "Time"
  | Base64 => "Base64"
  | DateTime => "DateTime"
  end.

End SsPredefinedTypeUtil.

(** ** SsValueTypeDef and its subclasses *)

Inductive SsValueTypeDef : Type :=
| SsEnumTypeDef (name : string) (_values : list string)
| SsStringTypeDef (name : string)
| SsNumberTypeDef (name : string).

Module SsValueTypeDef.
Definition name (d : SsValueTypeDef) : string :=
  match d with
  | SsEnumTypeDef n _ | SsStringTypeDef n | SsNumberTypeDef n => n
  end.
End SsValueTypeDef.

(** ** SsStructValue *)

Module SsStructValue.

Record t : Type := mk {
  name : string;
  optional : bool;
  predefinedType : option SsPredefinedType;
  valueTypeDef : option SsValueTypeDef;
  nullable : bool
}.

(** [valueTypeDef!.name]: a [TypeError] when the field is null. *)
Definition getTypeString (v : t) : result string :=
  typeName ←
    match predefinedType v with
    | Some p => SsPredefinedTypeUtil.getPredefinedTypeString p
    | None =>
        match valueTypeDef v with
        | Some d => Ok (SsValueTypeDef.name d)
        | None => Throw "TypeError: Cannot read properties of null"
        end
    end;
  Ok (if nullable v then typeName +:+ "?" else typeName).

End SsStructValue.

(** ** SsStructDef *)

Module SsStructDef.

(** The private back reference [definitions] is never read and is left
    out. *)
Record t : Type := mk {
  name : string;
  _values : list SsStructValue.t
}.

Definition new (name : string) : t := mk name [].

(** [get values()]: the contents of the copy.  That the copy is an
    array of its own is the subject of [SsStructDefObject] below. *)
Definition values (s : t) : list SsStructValue.t := _values s.

Definition hasOptional (s : t) : bool :=
  match List.find SsStructValue.optional (_values s) with
  | Some _ => true
  | None => false
  end.

Definition addValue (s : t) (name : string) (optional : bool)
    (predefinedType : option SsPredefinedType)
    (valueTypeDef : option SsValueTypeDef) (nullable : bool) : result t :=
  let value := SsStructValue.mk name optional predefinedType valueTypeDef nullable in
  let lastOptional :=
    match last (_values s) with
    | Some v => SsStructValue.optional v
    | None => false
    end in
  if (0 <? List.length (_values s))%nat && (negb optional && lastOptional)
  then Throw "Value is not optional but value before was optional"
  else Ok (mk (SsStructDef.name s) (_values s ++ [value])).

(** [addValue] applied to an already built value. *)
Definition addStructValue (s : t) (v : SsStructValue.t) : result t :=
  addValue s (SsStructValue.name v) (SsStructValue.optional v)
    (SsStructValue.predefinedType v) (SsStructValue.valueTypeDef v)
    (SsStructValue.nullable v).

(** A sequence of [addValue] calls on one struct; it stops at the first
    call that throws. *)
Definition addValues (s : t) (vs : list SsStructValue.t) : result t :=
  forEach vs (fun v s => addStructValue s v) s.

(** The states a struct definition can be in: it is created empty, and
    its private array changes only in a call of [addValue] that
    returns.  (A call that throws leaves the array as it was.) *)
Inductive reachable : t -> Prop :=
| reachable_new (name : string) : reachable (new name)
| reachable_addValue (s s' : t) (v : SsStructValue.t) :
    reachable s -> addStructValue s v = Ok s' -> reachable s'.

(** The trailing-optional rule: no required value after an optional
    one. *)
Fixpoint trailingOptional (vs : list SsStructValue.t) : bool :=
  match vs with
  | [] => true
  | v :: vs' =>
      (if SsStructValue.optional v
       then forallb SsStructValue.optional vs'
       else true) && trailingOptional vs'
  end.

End SsStructDef.

(** ** SsAttributeDataType *)

Module SsAttributeDataType.

(** A reference to a value type or a struct is represented by the state
    of the referenced object when the data type is constructed. *)
Record t : Type := mk {
  predefinedType : option SsPredefinedType;
  valueTypeDef : option SsValueTypeDef;
  structDef : option SsStructDef.t;
  nullable : bool;
  arrayRange : option SsRange.t;
  arrayNullable : bool
}.

Definition isPredefinedType (d : t) : bool := bool_decide (is_Some (predefinedType d)).
Definition isValueType (d : t) : bool := bool_decide (is_Some (valueTypeDef d)).
Definition isStruct (d : t) : bool := bool_decide (is_Some (structDef d)).
Definition isArray (d : t) : bool := bool_decide (is_Some (arrayRange d)).

Definition notNull {A} (o : option A) : bool :=
  match o with Some _ => true | None => false end.

Definition new (predefinedType : option SsPredefinedType)
    (valueTypeDef : option SsValueTypeDef) (structDef : option SsStructDef.t)
    (nullable : bool) (arrayRange : option SsRange.t) (arrayNullable : bool)
    : result t :=
  if notNull predefinedType && (notNull valueTypeDef || notNull structDef) then Throw EmptyString
  else if notNull valueTypeDef && (notNull predefinedType || notNull structDef) then Throw EmptyString
  else if notNull structDef && (notNull predefinedType || notNull valueTypeDef) then Throw EmptyString
  else if negb (notNull structDef) && negb (notNull predefinedType) && negb (notNull valueTypeDef) then Throw EmptyString
  else if negb (notNull arrayRange) && arrayNullable then Throw EmptyString
  else
    match arrayRange, structDef with
    | Some _, Some s =>
        if SsStructDef.hasOptional s
        then Throw ("Array of struct " +:+ Js.dq +:+ SsStructDef.name s +:+ Js.dq +:+ " with optional values not allowed")
        else Ok (mk predefinedType valueTypeDef structDef nullable arrayRange arrayNullable)
    | _, _ => Ok (mk predefinedType valueTypeDef structDef nullable arrayRange arrayNullable)
    end.

(** The string concatenated for a [number | null]. *)
Definition numberOrNullToString (o : option number) : string :=
  match o with
  | Some n => Number.toString n
  | None => "null"
  end.

Definition toString (d : t) : result string :=
  typeName ←
    match predefinedType d with
    | Some p => SsPredefinedTypeUtil.getPredefinedTypeString p
    | None =>
        match valueTypeDef d with
        | Some v => Ok (SsValueTypeDef.name v)
        | None =>
            match structDef d with
            | Some s => Ok (SsStructDef.name s)
            | None => Throw "TypeError: Cannot read properties of null"
            end
        end
    end;
  let typeName := if nullable d then typeName +:+ "?" else typeName in
  let typeName :=
    match arrayRange d with
    | Some r =>
        let arrayRangeStr := numberOrNullToString (SsRange.min r) in
        let arrayRangeStr :=
          if negb (SsRange.isFixed r)
          then arrayRangeStr +:+ ".." +:+
               match SsRange.max r with
               | None => "N"
               | Some mx => Number.toString mx
               end
          else arrayRangeStr in
        typeName +:+ "[" +:+ arrayRangeStr +:+ "]"
    | None => typeName
    end in
  Ok (if arrayNullable d then typeName +:+ "?" else typeName).

End SsAttributeDataType.

(** ** SsAttributeDef *)

Module SsAttributeDef.

(** The private back reference [definitions] is never read and is left
    out. *)
Record t : Type := mk {
  name : string;
  _dataType : option SsAttributeDataType.t
}.

Definition new (name : string) : t := mk name None.

(** [get dataType()] *)
Definition dataType (a : t) : result SsAttributeDataType.t :=
  match _dataType a with
  | None => Throw "Data type not set"
  | Some d => Ok d
  end.

(** [set dataType(value)] *)
Definition setDataType (a : t) (value : SsAttributeDataType.t) : result t :=
  match _dataType a with
  | Some _ => Throw "Data type already set"
  | None => Ok (mk (name a) (Some value))
  end.

End SsAttributeDef.

(** ** SsDefinitionList *)

(** A list refers to its parent list; the reference is represented by the
    state of the parent.  The closure [newFunction] captures the owning
    [SsDefinitions]; the caller of [add] passes it. *)
Inductive SsDefinitionList (T : Type) : Type :=
  mkDefinitionList {
    dl_map : JsMap.t T;
    dl_parentList : option (SsDefinitionList T);
    dl_typeDescription : string;
    dl_selfDescription : string
  }.
Arguments mkDefinitionList {T}.
Arguments dl_map {T}.
Arguments dl_parentList {T}.
Arguments dl_typeDescription {T}.
Arguments dl_selfDescription {T}.

Module SsDefinitionList.
Section Methods.
Context {T : Type}.

Definition new (parentList : option (SsDefinitionList T))
    (typeDescription selfDescription : string) : SsDefinitionList T :=
  mkDefinitionList JsMap.empty parentList typeDescription selfDescription.

Definition values (l : SsDefinitionList T) : list T := JsMap.values (dl_map l).

Fixpoint has (l : SsDefinitionList T) (name : string) : bool :=
  if JsMap.has (dl_map l) name then true
  else match dl_parentList l with
       | None => false
       | Some p => has p name
       end.

Fixpoint getOrNull (l : SsDefinitionList T) (name : string) : option T :=
  match JsMap.get (dl_map l) name with
  | Some item => Some item
  | None =>
      match dl_parentList l with
      | None => None
      | Some p => getOrNull p name
      end
  end.

Definition notDefined (l : SsDefinitionList T) (name : string) : string :=
  dl_typeDescription l +:+ " " +:+ Js.dq +:+ name +:+ Js.dq +:+ " not defined in " +:+ dl_selfDescription l.

Definition alreadyExists (l : SsDefinitionList T) (name : string) : string :=
  dl_typeDescription l +:+ " " +:+ Js.dq +:+ name +:+ Js.dq +:+ " already exists in " +:+ dl_selfDescription l.

Definition get (l : SsDefinitionList T) (name : string) : result T :=
  match getOrNull l name with
  | None => Throw (notDefined l name)
  | Some item => Ok item
  end.

Definition setLocal (l : SsDefinitionList T) (name : string) (item : T)
    : SsDefinitionList T :=
  mkDefinitionList (JsMap.set (dl_map l) name item) (dl_parentList l)
    (dl_typeDescription l) (dl_selfDescription l).

(** [add(name)] returns the new item and the list after the call. *)
Definition add (newFunction : string -> result T) (l : SsDefinitionList T)
    (name : string) : result (T * SsDefinitionList T) :=
  if JsMap.has (dl_map l) name then Throw (alreadyExists l name)
  else item ← newFunction name; Ok (item, setLocal l name item).

Definition addExisting (l : SsDefinitionList T) (name : string) (item : T)
    : result (T * SsDefinitionList T) :=
  if JsMap.has (dl_map l) name then Throw (alreadyExists l name)
  else Ok (item, setLocal l name item).

End Methods.
End SsDefinitionList.

(** ** Element content *)

Module SsUnorderedElement.
(** The referenced [SsElementDef] is represented by its name: an
    element may refer to itself or to an enclosing element, whose
    object is still being filled when the reference is taken. *)
Record t : Type := mk { elementDef : string; occurrence : SsRange.t }.
End SsUnorderedElement.

Module SsUnorderedAttribute.
Record t : Type := mk {
  attributeDef : SsAttributeDef.t;
  occurrence : SsRange.t;
  inline : bool
}.
End SsUnorderedAttribute.

(** [SsElementContent] with its two subclasses.  The back reference
    [elementDef] is passed to the methods that read it. *)
Inductive SsElementContent : Type :=
| SsUnorderedContent (_elements : JsMap.t SsUnorderedElement.t)
    (_attributes : JsMap.t SsUnorderedAttribute.t)
| SsOrderedContent.

(** ** SsElementDef and SsDefinitions *)

Inductive SsElementDef : Type :=
  mkElementDef (name : string) (definitions : SsDefinitions)
    (_content : option SsElementContent)
with SsDefinitions : Type :=
  mkDefinitions (valueTypeDefs : SsDefinitionList SsValueTypeDef)
    (structDefs : SsDefinitionList SsStructDef.t)
    (attributeDefs : SsDefinitionList SsAttributeDef.t)
    (elementDefs : SsDefinitionList SsElementDef)
    (ownerElementDef : option string).

Module SsDefinitions.

Definition valueTypeDefs (d : SsDefinitions) := let 'mkDefinitions v _ _ _ _ := d in v.
Definition structDefs (d : SsDefinitions) := let 'mkDefinitions _ s _ _ _ := d in s.
Definition attributeDefs (d : SsDefinitions) := let 'mkDefinitions _ _ a _ _ := d in a.
Definition elementDefs (d : SsDefinitions) := let 'mkDefinitions _ _ _ e _ := d in e.
Definition ownerElementDef (d : SsDefinitions) := let 'mkDefinitions _ _ _ _ o := d in o.

Definition setValueTypeDefs (d : SsDefinitions) v :=
  mkDefinitions v (structDefs d) (attributeDefs d) (elementDefs d) (ownerElementDef d).
Definition setStructDefs (d : SsDefinitions) s :=
  mkDefinitions (valueTypeDefs d) s (attributeDefs d) (elementDefs d) (ownerElementDef d).
Definition setAttributeDefs (d : SsDefinitions) a :=
  mkDefinitions (valueTypeDefs d) (structDefs d) a (elementDefs d) (ownerElementDef d).
Definition setElementDefs (d : SsDefinitions) e :=
  mkDefinitions (valueTypeDefs d) (structDefs d) (attributeDefs d) e (ownerElementDef d).

(** [constructor(ownerElementDef, parentDefinitions)]; the owner is
    kept as its name, the only part that is read. *)
Definition new (ownerElementDef : option string)
    (parentDefinitions : option SsDefinitions) : SsDefinitions :=
  let selfDescription :=
    match ownerElementDef with
    | None => "schema"
    | Some n => "ElementDef " +:+ Js.dq +:+ n +:+ Js.dq
    end in
  mkDefinitions
    (SsDefinitionList.new (valueTypeDefs <$> parentDefinitions) "ValueTypeDef" selfDescription)
    (SsDefinitionList.new (structDefs <$> parentDefinitions) "StructDef" selfDescription)
    (SsDefinitionList.new (attributeDefs <$> parentDefinitions) "AttributeDef" selfDescription)
    (SsDefinitionList.new (elementDefs <$> parentDefinitions) "ElementDef" selfDescription)
    ownerElementDef.

(** The four [newFunction] closures of the constructor. *)
Definition newValueTypeDef (name : string) : result SsValueTypeDef :=
  Throw "Not supported".
Definition newStructDef (name : string) : result SsStructDef.t :=
  Ok (SsStructDef.new name).
Definition newAttributeDef (name : string) : result SsAttributeDef.t :=
  Ok (SsAttributeDef.new name).
(** [new SsElementDef(name, this)] *)
Definition newElementDef (this : SsDefinitions) (name : string) : result SsElementDef :=
  Ok (mkElementDef name (new (Some name) (Some this)) None).

(** [add] of each of the four namespaces. *)
Definition addValueTypeDef (d : SsDefinitions) (name : string) :=
  SsDefinitionList.add newValueTypeDef (valueTypeDefs d) name.
Definition addStructDef (d : SsDefinitions) (name : string) :=
  SsDefinitionList.add newStructDef (structDefs d) name.
Definition addAttributeDef (d : SsDefinitions) (name : string) :=
  SsDefinitionList.add newAttributeDef (attributeDefs d) name.
Definition addElementDef (d : SsDefinitions) (name : string) :=
  SsDefinitionList.add (newElementDef d) (elementDefs d) name.

Definition addEnum (d : SsDefinitions) (name : string) (values : list string)
    : result SsDefinitions :=
  let enumTypeDef := SsEnumTypeDef name values in
  '(_, l) ← SsDefinitionList.addExisting (valueTypeDefs d) name enumTypeDef;
  Ok (setValueTypeDefs d l).

End SsDefinitions.

Module SsElementDef.

Definition name (e : SsElementDef) := let 'mkElementDef n _ _ := e in n.
Definition definitions (e : SsElementDef) := let 'mkElementDef _ d _ := e in d.
Definition _content (e : SsElementDef) := let 'mkElementDef _ _ c := e in c.

Definition new (name : string) (parentDefinitions : SsDefinitions) : SsElementDef :=
  mkElementDef name (SsDefinitions.new (Some name) (Some parentDefinitions)) None.

Definition content (e : SsElementDef) : option SsElementContent := _content e.

Definition isUnordered (e : SsElementDef) : bool :=
  match _content e with
  | Some (SsUnorderedContent _ _) => true
  | _ => false
  end.

Definition setDefinitions (e : SsElementDef) (d : SsDefinitions) : SsElementDef :=
  mkElementDef (name e) d (_content e).

Definition setContent (e : SsElementDef) (c : SsElementContent) : SsElementDef :=
  mkElementDef (name e) (definitions e) (Some c).

(** [setUnorderedContent()]: installs an empty unordered content. *)
Definition setUnorderedContent (e : SsElementDef) : SsElementDef :=
  setContent e (SsUnorderedContent JsMap.empty JsMap.empty).



End SsElementDef.

Module SsUnorderedContent.

Definition unorderedElements (c : SsElementContent) : list SsUnorderedElement.t :=
  match c with
  | SsUnorderedContent els _ => JsMap.values els
  | SsOrderedContent => []
  end.

Definition unorderedAttributes (c : SsElementContent) : list SsUnorderedAttribute.t :=
  match c with
  | SsUnorderedContent _ ats => JsMap.values ats
  | SsOrderedContent => []
  end.

(** The three methods act on the unordered content of [elementDef] and
    return the element with its content updated. *)
Definition addElement (elementDef : SsElementDef) (elementName : string)
    (occurrence : SsRange.t) : result SsElementDef :=
  match SsElementDef._content elementDef with
  | Some (SsUnorderedContent els ats) =>
      if JsMap.has els elementName
      then Throw ("Element " +:+ Js.dq +:+ SsElementDef.name elementDef +:+
                  Js.dq +:+ " already contains an unordered element with name " +:+ Js.dq +:+
                  elementName +:+ Js.dq)
      else
        childElementDef ←
          SsDefinitionList.get
            (SsDefinitions.elementDefs (SsElementDef.definitions elementDef))
            elementName;
        let unorderedElement :=
          SsUnorderedElement.mk (SsElementDef.name childElementDef) occurrence in
        Ok (SsElementDef.setContent elementDef
              (SsUnorderedContent (JsMap.set els elementName unorderedElement) ats))
  | _ => Throw "TypeError: not an unordered content"
  end.

Definition addAttribute (elementDef : SsElementDef) (attributeName : string)
    (occurrence : SsRange.t) : result SsElementDef :=
  match SsElementDef._content elementDef with
  | Some (SsUnorderedContent els ats) =>
      if JsMap.has ats attributeName
      then Throw ("Element " +:+ Js.dq +:+ SsElementDef.name elementDef +:+
                  Js.dq +:+ " already contains an unordered attribute with name " +:+ Js.dq +:+
                  attributeName +:+ Js.dq)
      else
        childAttributeDef ←
          SsDefinitionList.get
            (SsDefinitions.attributeDefs (SsElementDef.definitions elementDef))
            attributeName;
        let unorderedAttribute :=
          SsUnorderedAttribute.mk childAttributeDef occurrence false in
        Ok (SsElementDef.setContent elementDef
              (SsUnorderedContent els (JsMap.set ats attributeName unorderedAttribute)))
  | _ => Throw "TypeError: not an unordered content"
  end.

Definition addInlineAttribute (elementDef : SsElementDef)
    (inlineAttributeDef : SsAttributeDef.t) (occurrence : SsRange.t)
    : result SsElementDef :=
  match SsElementDef._content elementDef with
  | Some (SsUnorderedContent els ats) =>
      let n := SsAttributeDef.name inlineAttributeDef in
      if JsMap.has ats n
      then Throw ("Element " +:+ Js.dq +:+ SsElementDef.name elementDef +:+
                  Js.dq +:+ " already contains an unordered attribute with name " +:+ Js.dq +:+
                  n +:+ Js.dq)
      else
        let unorderedAttribute :=
          SsUnorderedAttribute.mk inlineAttributeDef occurrence true in
        Ok (SsElementDef.setContent elementDef
              (SsUnorderedContent els (JsMap.set ats n unorderedAttribute)))
  | _ => Throw "TypeError: not an unordered content"
  end.

End SsUnorderedContent.

(** ** The generic node tree (sml.js) *)

(** Modelled from the spec: the classes [SmlDocument], [SmlElement] and
    [SmlAttribute] of sml.js are not part of the sources at hand.  The
    definitions below follow the node-tree contract of the specification
    (section 6): a tree of named nodes with named, multi-valued
    attributes, and the assert / fetch / iterate queries on it.  Names
    are compared as written. *)
Module SmlAttribute.
(** Modelled from the spec: an attribute of the node tree, a name with
    its values ([sml.js] is not among the sources). *)
Record t : Type := mk { name : string; values : list string }.

Definition hasName (a : t) (n : string) : bool := String.eqb (name a) n.

Definition valueCount (a : t) : nat := List.length (values a).

Definition assureValueCount (a : t) (n : nat) : result unit :=
  if (valueCount a =? n)%nat then Ok tt
  else Throw ("Attribute " +:+ Js.dq +:+ name a +:+ Js.dq +:+ " has a wrong number of values").

Definition assureValueCountMinMax (a : t) (mn mx : nat) : result unit :=
  if ((mn <=? valueCount a)%nat && (valueCount a <=? mx)%nat)%bool then Ok tt
  else Throw ("Attribute " +:+ Js.dq +:+ name a +:+ Js.dq +:+ " has a wrong number of values").

Definition getString (a : t) (index : nat) : result string :=
  match values a !! index with
  | Some v => Ok v
  | None => Throw ("Attribute " +:+ Js.dq +:+ name a +:+ Js.dq +:+ " has no value at the index")
  end.

Definition asString (a : t) : result string :=
  match values a with
  | [v] => Ok v
  | _ => Throw ("Attribute " +:+ Js.dq +:+ name a +:+ Js.dq +:+ " must have one value")
  end.

Definition asStringArray (a : t) : result (list string) :=
  match values a with
  | [] => Throw ("Attribute " +:+ Js.dq +:+ name a +:+ Js.dq +:+ " must have at least one value")
  | vs => Ok vs
  end.

Fixpoint indexOfLabel (labels : list string) (v : string) (i : nat) : option nat :=
  match labels with
  | [] => None
  | l :: labels' => if String.eqb l v then Some i else indexOfLabel labels' v (S i)
  end.

(** [getEnum(labels, index)]: the position of the value among the
    allowed labels. *)
Definition getEnum (a : t) (labels : list string) (index : nat) : result nat :=
  v ← getString a index;
  match indexOfLabel labels v 0 with
  | Some i => Ok i
  | None => Throw ("Attribute " +:+ Js.dq +:+ name a +:+ Js.dq +:+ " has a value that is not allowed")
  end.
End SmlAttribute.

(** Modelled from the spec: an element of the node tree, a name with its
    child nodes in document order, each an attribute or an element
    ([sml.js] is not among the sources). *)
Inductive SmlElement : Type :=
  mkSmlElement (name : string) (nodes : list (SmlAttribute.t + SmlElement)).

(** Modelled from the spec: the queries on an element that the loader
    and the serializer call, after the node-tree contract of the
    specification. *)

Module SmlElement.

Definition name (e : SmlElement) := let 'mkSmlElement n _ := e in n.
Definition nodes (e : SmlElement) := let 'mkSmlElement _ ns := e in ns.

Definition new (name : string) : SmlElement := mkSmlElement name [].

(** [addAttribute(name, values)] and the adding of a finished child
    element; both append to the nodes. *)
Definition addAttribute (e : SmlElement) (n : string) (values : list string) : SmlElement :=
  mkSmlElement (name e) (nodes e ++ [inl (SmlAttribute.mk n values)]).
Definition addNode (e child : SmlElement) : SmlElement :=
  mkSmlElement (name e) (nodes e ++ [inr child]).

Definition hasName (e : SmlElement) (n : string) : bool := String.eqb (name e) n.

Definition allElements (e : SmlElement) : list SmlElement :=
  omap (fun n => match n with inr c => Some c | inl _ => None end) (nodes e).
Definition allAttributes (e : SmlElement) : list SmlAttribute.t :=
  omap (fun n => match n with inl a => Some a | inr _ => None end) (nodes e).

(** iterate-children(name), iterate-attributes(name) *)
Definition elements (e : SmlElement) (n : string) : list SmlElement :=
  List.filter (fun c => hasName c n) (allElements e).
Definition attributes (e : SmlElement) (n : string) : list SmlAttribute.t :=
  List.filter (fun a => SmlAttribute.hasName a n) (allAttributes e).

Definition hasElement (e : SmlElement) (n : string) : bool :=
  match elements e n with [] => false | _ => true end.

(** assert-node-name *)
Definition assureName (e : SmlElement) (n : string) : result unit :=
  if hasName e n then Ok tt
  else Throw ("Element with name " +:+ Js.dq +:+ n +:+ Js.dq +:+ " expected but found " +:+ Js.dq +:+ name e +:+ Js.dq).

(** assert-exact-child-name-set: every child element carries one of the
    permitted names. *)
Definition assureElementNames (e : SmlElement) (names : list string) : result unit :=
  match List.find (fun c => negb (Js.arrayContains names (name c))) (allElements e) with
  | Some c => Throw ("Not allowed element with name " +:+ Js.dq +:+ name c +:+
                     Js.dq +:+ " found in element " +:+ Js.dq +:+ name e +:+ Js.dq)
  | None => Ok tt
  end.

(** assert-exact-attribute-name-set *)
Definition assureAttributeNames (e : SmlElement) (names : list string) : result unit :=
  match List.find (fun a => negb (Js.arrayContains names (SmlAttribute.name a)))
          (allAttributes e) with
  | Some a => Throw ("Not allowed attribute with name " +:+ Js.dq +:+ SmlAttribute.name a +:+
                     Js.dq +:+ " found in element " +:+ Js.dq +:+ name e +:+ Js.dq)
  | None => Ok tt
  end.

(** assert-no-children, assert-no-attributes *)
Definition assureNoElements (e : SmlElement) : result unit :=
  match allElements e with
  | [] => Ok tt
  | _ => Throw ("Element " +:+ Js.dq +:+ name e +:+ Js.dq +:+ " cannot have elements")
  end.
Definition assureNoAttributes (e : SmlElement) : result unit :=
  match allAttributes e with
  | [] => Ok tt
  | _ => Throw ("Element " +:+ Js.dq +:+ name e +:+ Js.dq +:+ " cannot have attributes")
  end.

(** fetch-optional-child(name), fetch-optional-attribute(name) *)
Definition optionalElement (e : SmlElement) (n : string) : result (option SmlElement) :=
  match elements e n with
  | [] => Ok None
  | [c] => Ok (Some c)
  | _ => Throw ("Element " +:+ Js.dq +:+ name e +:+ Js.dq +:+ " must contain at most one element " +:+ Js.dq +:+ n +:+ Js.dq)
  end.
Definition optionalAttribute (e : SmlElement) (n : string) : result (option SmlAttribute.t) :=
  match attributes e n with
  | [] => Ok None
  | [a] => Ok (Some a)
  | _ => Throw ("Element " +:+ Js.dq +:+ name e +:+ Js.dq +:+ " must contain at most one attribute " +:+ Js.dq +:+ n +:+ Js.dq)
  end.

(** fetch-required-attribute(name) *)
Definition requiredAttribute (e : SmlElement) (n : string) : result SmlAttribute.t :=
  match attributes e n with
  | [a] => Ok a
  | _ => Throw ("Element " +:+ Js.dq +:+ name e +:+ Js.dq +:+ " must contain one attribute " +:+ Js.dq +:+ n +:+ Js.dq)
  end.

(** [assureChoice(names, null, true)]: exactly one child element with
    one of the names is required. *)
Definition assureChoice (e : SmlElement) (names : list string) : result unit :=
  match List.filter (fun c => Js.arrayContains names (name c)) (allElements e) with
  | [_] => Ok tt
  | _ => Throw ("Element " +:+ Js.dq +:+ name e +:+ Js.dq +:+ " must contain one of the choice elements")
  end.

(** The height of the tree; it bounds the depth of the loader's
    recursion. *)
Fixpoint height (e : SmlElement) : nat :=
  match e with
  | mkSmlElement _ ns =>
      S (foldr (fun n h => match n with inl _ => h | inr c => Nat.max (height c) h end) 0%nat ns)
  end.

End SmlElement.

Module SmlDocument.
(** Modelled from the spec: a document is its root element. *)
Record t : Type := mk { root : SmlElement }.
End SmlDocument.

(** ** SmlSchema *)

(** A slot of TypeScript type [T] that an unchecked array read may have
    filled with [undefined]. *)
Inductive orUndefined (A : Type) : Type :=
| Undefined
| Defined (a : A).
Arguments Undefined {A}.
Arguments Defined {A} a.

Module SmlSchema.

(** [_rootElement] is [None] for [null]; the referenced element is
    represented by its state when the root is set. *)
Record t : Type := mk {
  definitions : SsDefinitions;
  _rootElement : option (orUndefined SsElementDef)
}.

Definition new : t := mk (SsDefinitions.new None None) None.

Definition getRootElement (s : t) : result (orUndefined SsElementDef) :=
  match _rootElement s with
  | None => Throw "Root element not set"
  | Some r => Ok r
  end.

Definition setRootElementByName (s : t) (name : string) : result t :=
  e ← SsDefinitionList.get (SsDefinitions.elementDefs (definitions s)) name;
  Ok (mk (definitions s) (Some (Defined e))).

Definition setRootElementDefault (s : t) : result t :=
  let values := SsDefinitionList.values (SsDefinitions.elementDefs (definitions s)) in
  if (1 <? List.length values)%nat
  then Throw "Cannot set default root element because the schema contains multiple ElementDefs at root level"
  else
    Ok (mk (definitions s)
          (Some (match values !! 0%nat with
                 | Some e => Defined e
                 | None => Undefined
                 end))).

End SmlSchema.

(** ** SmlSchemaLoader *)

Module SmlSchemaLoader.

Definition getOccurrence (sAttribute : SmlAttribute.t) (index : nat) : result SsRange.t :=
  occurrenceIndex ←
    SmlAttribute.getEnum sAttribute ["Required"; "Optional"; "Repeated+"; "Repeated*"] index;
  match occurrenceIndex with
  | 0%nat => SsRange.required
  | 1%nat => SsRange.optional
  | 2%nat => SsRange.repeatedPlus
  | 3%nat => SsRange.repeatedStar
  | _ => Throw "Could not get occurrence"
  end.

(** [parts[i]]: reading past the end gives [undefined], on which the
    following method call raises a [TypeError]. *)
Definition part (parts : list string) (i : nat) : result string :=
  match parts !! i with
  | Some p => Ok p
  | None => Throw "TypeError: Cannot read properties of undefined"
  end.

(** The [[bounds]] part of [loadDataType]. *)
Definition loadArrayBounds (arrayBoundsStr : string) : result SsRange.t :=
  if Js.includes arrayBoundsStr ".." then
    let parts := Js.split arrayBoundsStr ".." 2 in
    p0 ← part parts 0;
    let minSize := Number.parseInt p0 in
    p1 ← part parts 1;
    let maxSize :=
      if negb (String.eqb (Js.toUpperCase p1) "N")
      then Some (Number.parseInt p1)
      else None in
    SsRange.new (Some minSize) maxSize
  else
    let fixedSize := Number.parseInt arrayBoundsStr in
    if Number.lt fixedSize (Num 0) then Throw "Invalid array size"
    else SsRange.fixed fixedSize.

Definition loadDataType (dataTypeStr : string) (definitions : SsDefinitions)
    : result SsAttributeDataType.t :=
  let '(arrayNullable, dataTypeStr) :=
    if Js.endsWith dataTypeStr "]?"
    then (true, Js.substring dataTypeStr 0 (Js.length dataTypeStr - 1))
    else (false, dataTypeStr) in
  '(arrayBounds, dataTypeStr) ←
    (if Js.endsWith dataTypeStr "]" then
       let splitIndex := Js.indexOf dataTypeStr "[" in
       if splitIndex <? 0 then Throw "Invalid data type"
       else
         let arrayBoundsStr :=
           Js.substring dataTypeStr (splitIndex + 1) (Js.length dataTypeStr - 1) in
         let dataTypeStr := Js.substring dataTypeStr 0 splitIndex in
         r ← loadArrayBounds arrayBoundsStr;
         Ok (Some r, dataTypeStr)
     else Ok (None, dataTypeStr));
  let '(nullable, dataTypeStr) :=
    if Js.endsWith dataTypeStr "?"
    then (true, Js.substring dataTypeStr 0 (Js.length dataTypeStr - 1))
    else (false, dataTypeStr) in
  let predefinedType := SsPredefinedTypeUtil.getPredefinedTypeOrNull dataTypeStr in
  let valueTypeDef :=
    match predefinedType with
    | None => SsDefinitionList.getOrNull (SsDefinitions.valueTypeDefs definitions) dataTypeStr
    | Some _ => None
    end in
  structDef ←
    match predefinedType, valueTypeDef with
    | None, None =>
        s ← SsDefinitionList.get (SsDefinitions.structDefs definitions) dataTypeStr;
        Ok (Some s)
    | _, _ => Ok None
    end;
  SsAttributeDataType.new predefinedType valueTypeDef structDef nullable arrayBounds arrayNullable.

Definition loadStructValue (sValueAttribute : SmlAttribute.t) (structDef : SsStructDef.t)
    (definitions : SsDefinitions) : result SsStructDef.t :=
  _ ← SmlAttribute.assureValueCount sValueAttribute 3;
  valueName ← SmlAttribute.getString sValueAttribute 0;
  optionalIndex ← SmlAttribute.getEnum sValueAttribute ["Required"; "Optional"] 1;
  let optional := (optionalIndex =? 1)%nat in
  typeStr ← SmlAttribute.getString sValueAttribute 2;
  let '(nullable, typeStr) :=
    if Js.endsWith typeStr "?"
    then (true, Js.substring typeStr 0 (Js.length typeStr - 1))
    else (false, typeStr) in
  let predefinedType := SsPredefinedTypeUtil.getPredefinedTypeOrNull typeStr in
  valueTypeDef ←
    match predefinedType with
    | None =>
        v ← SsDefinitionList.get (SsDefinitions.valueTypeDefs definitions) typeStr;
        Ok (Some v)
    | Some _ => Ok None
    end;
  SsStructDef.addValue structDef valueName optional predefinedType valueTypeDef nullable.

Definition loadEnumTypeDef (sEnumTypeDef : SmlElement) (definitions : SsDefinitions)
    : result SsDefinitions :=
  _ ← SmlElement.assureNoElements sEnumTypeDef;
  _ ← SmlElement.assureAttributeNames sEnumTypeDef ["Name"; "Values"];
  name ← SmlElement.requiredAttribute sEnumTypeDef "Name" ≫= SmlAttribute.asString;
  values ← SmlElement.requiredAttribute sEnumTypeDef "Values" ≫= SmlAttribute.asStringArray;
  SsDefinitions.addEnum definitions name values.

(** The first three loops of [loadDefinitions].  An object created by
    [add] is filled after it was put into the map; the filled state is
    written back under the same key. *)
Definition loadStruct (sStructDef : SmlElement) (definitions : SsDefinitions)
    : result SsDefinitions :=
  name ← SmlElement.requiredAttribute sStructDef "Name" ≫= SmlAttribute.asString;
  '(structDef, l) ← SsDefinitions.addStructDef definitions name;
  let definitions := SsDefinitions.setStructDefs definitions l in
  structDef ←
    forEach (SmlElement.attributes sStructDef "Value")
      (fun sValueAttribute structDef => loadStructValue sValueAttribute structDef definitions)
      structDef;
  Ok (SsDefinitions.setStructDefs definitions (SsDefinitionList.setLocal l name structDef)).

Definition loadAttribute (sAttributeDef : SmlElement) (definitions : SsDefinitions)
    : result SsDefinitions :=
  name ← SmlElement.requiredAttribute sAttributeDef "Name" ≫= SmlAttribute.asString;
  '(attributeDef, l) ← SsDefinitions.addAttributeDef definitions name;
  let definitions := SsDefinitions.setAttributeDefs definitions l in
  dataTypeStr ← SmlElement.requiredAttribute sAttributeDef "DataType" ≫= SmlAttribute.asString;
  dataType ← loadDataType dataTypeStr definitions;
  attributeDef ← SsAttributeDef.setDataType attributeDef dataType;
  Ok (SsDefinitions.setAttributeDefs definitions (SsDefinitionList.setLocal l name attributeDef)).

(** The two loops over the attributes of [UnorderedContent]. *)
Definition loadUnorderedElement (sElementAttribute : SmlAttribute.t)
    (elementDef : SsElementDef) : result SsElementDef :=
  _ ← SmlAttribute.assureValueCount sElementAttribute 2;
  elementName ← SmlAttribute.getString sElementAttribute 0;
  occurrence ← getOccurrence sElementAttribute 1;
  SsUnorderedContent.addElement elementDef elementName occurrence.

Definition loadUnorderedAttribute (sAttributeAttribute : SmlAttribute.t)
    (elementDef : SsElementDef) : result SsElementDef :=
  _ ← SmlAttribute.assureValueCountMinMax sAttributeAttribute 2 3;
  attributeName ← SmlAttribute.getString sAttributeAttribute 0;
  occurrence ← getOccurrence sAttributeAttribute 1;
  if (SmlAttribute.valueCount sAttributeAttribute =? 2)%nat then
    SsUnorderedContent.addAttribute elementDef attributeName occurrence
  else
    let inlineAttributeDef := SsAttributeDef.new attributeName in
    dataTypeStr ← SmlAttribute.getString sAttributeAttribute 2;
    dataType ← loadDataType dataTypeStr (SsElementDef.definitions elementDef);
    inlineAttributeDef ← SsAttributeDef.setDataType inlineAttributeDef dataType;
    SsUnorderedContent.addInlineAttribute elementDef inlineAttributeDef occurrence.

Definition loadContent (sElementDef : SmlElement) (elementDef : SsElementDef)
    : result SsElementDef :=
  _ ← SmlElement.assureChoice sElementDef ["UnorderedContent"; "ListContent"];
  if SmlElement.hasElement sElementDef "ListContent" then Throw "Todo"
  else if SmlElement.hasElement sElementDef "UnorderedContent" then
    let elementDef := SsElementDef.setUnorderedContent elementDef in
    o ← SmlElement.optionalElement sElementDef "UnorderedContent";
    match o with
    | None => Throw "TypeError: Cannot read properties of null"
    | Some sUnorderedContentElement =>
        elementDef ←
          forEach (SmlElement.attributes sUnorderedContentElement "Element")
            loadUnorderedElement elementDef;
        forEach (SmlElement.attributes sUnorderedContentElement "Attribute")
          loadUnorderedAttribute elementDef
    end
  else Ok elementDef.

(** [loadElementDef] and [loadDefinitions] call each other along the
    node tree; [fuel] bounds the nesting, and [parse] supplies the
    height of the tree.

    The scope of a new element reads its parent scope through a
    reference while the element is loaded, and the parent then
    already holds the element.  So the element is loaded with the
    parent's state after [add] as its parent, and its final state is
    written back into the parent afterwards. *)
Fixpoint loadDefinitions (fuel : nat) (sElement : SmlElement)
    (definitions : SsDefinitions) : result SsDefinitions :=
  match fuel with
  | O => Throw "out of fuel"
  | S fuel' =>
      let loadElementDef (sElementDef : SmlElement) (elementDef : SsElementDef)
          : result SsElementDef :=
        _ ← SmlElement.assureElementNames sElementDef
              ["Definitions"; "UnorderedContent"; "ListContent"];
        _ ← SmlElement.assureAttributeNames sElementDef ["Name"];
        sDefinitionsElement ← SmlElement.optionalElement sElementDef "Definitions";
        elementDef ←
          match sDefinitionsElement with
          | Some sDefinitionsElement =>
              _ ← SmlElement.assureElementNames sDefinitionsElement
                    ["EnumType"; "Struct"; "Attribute"; "Element"];
              _ ← SmlElement.assureNoAttributes sDefinitionsElement;
              d ← loadDefinitions fuel' sDefinitionsElement
                    (SsElementDef.definitions elementDef);
              Ok (SsElementDef.setDefinitions elementDef d)
          | None => Ok elementDef
          end;
        loadContent sElementDef elementDef in
      let loadElement (sElementDef : SmlElement) (definitions : SsDefinitions)
          : result SsDefinitions :=
        name ← SmlElement.requiredAttribute sElementDef "Name" ≫= SmlAttribute.asString;
        '(_, l) ← SsDefinitions.addElementDef definitions name;
        let definitions := SsDefinitions.setElementDefs definitions l in
        elementDef ← loadElementDef sElementDef (SsElementDef.new name definitions);
        Ok (SsDefinitions.setElementDefs definitions
              (SsDefinitionList.setLocal l name elementDef)) in
      definitions ← forEach (SmlElement.elements sElement "EnumType") loadEnumTypeDef definitions;
      definitions ← forEach (SmlElement.elements sElement "Struct") loadStruct definitions;
      definitions ← forEach (SmlElement.elements sElement "Attribute") loadAttribute definitions;
      forEach (SmlElement.elements sElement "Element") loadElement definitions
  end.

(** [parse], from the document that [SmlDocument.parse(content)]
    returns.  The [catch] rethrows with a prefixed message. *)
Definition parse (document : SmlDocument.t) : result SmlSchema.t :=
  let schema := SmlSchema.new in
  let attempt : result SmlSchema.t :=
    let sRootElement := SmlDocument.root document in
    _ ← SmlElement.assureName sRootElement "Schema";
    _ ← SmlElement.assureElementNames sRootElement ["EnumType"; "Struct"; "Attribute"; "Element"];
    _ ← SmlElement.assureAttributeNames sRootElement ["RootElement"];
    definitions ← loadDefinitions (SmlElement.height sRootElement) sRootElement
                    (SmlSchema.definitions schema);
    let schema := SmlSchema.mk definitions (SmlSchema._rootElement schema) in
    sRootElementAttribute ← SmlElement.optionalAttribute sRootElement "RootElement";
    match sRootElementAttribute with
    | Some a =>
        rootElementName ← SmlAttribute.asString a;
        SmlSchema.setRootElementByName schema rootElementName
    | None => SmlSchema.setRootElementDefault schema
    end in
  match attempt with
  | Ok s => Ok s
  | Throw e => Throw ("Could not parse schema because Error: " +:+ e)
  end.

End SmlSchemaLoader.

(** ** The data-type grammar, in stages *)

(** The four consecutive blocks of [loadDataType] as functions of their
    own, the text [toString] builds from a name and the three other
    parts, and what the parser knows about the name it resolves.  They
    serve the statements and proofs about data-type strings. *)
Module DataTypeText.
Import SmlSchemaLoader.

Definition stripArrayNullable (s : string) : bool * string :=
  if Js.endsWith s "]?" then (true, Js.substring s 0 (Js.length s - 1)) else (false, s).

Definition stripBounds (s : string) : result (option SsRange.t * string) :=
  if Js.endsWith s "]" then
    let splitIndex := Js.indexOf s "[" in
    if splitIndex <? 0 then Throw "Invalid data type"
    else
      r ← loadArrayBounds (Js.substring s (splitIndex + 1) (Js.length s - 1));
      Ok (Some r, Js.substring s 0 splitIndex)
  else Ok (None, s).

Definition stripNullable (s : string) : bool * string :=
  if Js.endsWith s "?" then (true, Js.substring s 0 (Js.length s - 1)) else (false, s).

Definition resolve (t : string) (nullable : bool) (r : option SsRange.t) (an : bool)
    (definitions : SsDefinitions) : result SsAttributeDataType.t :=
  let predefinedType := SsPredefinedTypeUtil.getPredefinedTypeOrNull t in
  let valueTypeDef :=
    match predefinedType with
    | None => SsDefinitionList.getOrNull (SsDefinitions.valueTypeDefs definitions) t
    | Some _ => None
    end in
  structDef ←
    match predefinedType, valueTypeDef with
    | None, None =>
        s ← SsDefinitionList.get (SsDefinitions.structDefs definitions) t;
        Ok (Some s)
    | _, _ => Ok None
    end;
  SsAttributeDataType.new predefinedType valueTypeDef structDef nullable r an.

Definition boundsText (r : SsRange.t) : string :=
  let arrayRangeStr := SsAttributeDataType.numberOrNullToString (SsRange.min r) in
  if negb (SsRange.isFixed r)
  then arrayRangeStr +:+ ".." +:+
       match SsRange.max r with
       | None => "N"
       | Some mx => Number.toString mx
       end
  else arrayRangeStr.

Definition text (t : string) (nullable : bool) (r : option SsRange.t) (an : bool) : string :=
  (if nullable then t +:+ "?" else t)
  +:+ match r with Some r => "[" +:+ boundsText r +:+ "]" | None => EmptyString end
  +:+ (if an then "?" else EmptyString).




(** Scopes in which every definition is registered under its own name,
    as [addEnum] and [add] register them. *)
Definition wellKeyed (definitions : SsDefinitions) : Prop :=
  (forall t v, SsDefinitionList.getOrNull (SsDefinitions.valueTypeDefs definitions) t = Some v ->
               SsValueTypeDef.name v = t)
  /\ (forall t sd, SsDefinitionList.getOrNull (SsDefinitions.structDefs definitions) t = Some sd ->
                  SsStructDef.name sd = t).

End DataTypeText.

(** ** SmlSchemaSerializer *)

Module SmlSchemaSerializer.

(** Each function returns [sElement] with the new child appended; the
    child is built first and added when it is complete. *)
Definition serializeValueTypeDef (valueTypeDef : SsValueTypeDef) (sElement : SmlElement)
    : result SmlElement :=
  match valueTypeDef with
  | SsEnumTypeDef name values =>
      let sEnumTypeDef := SmlElement.new "EnumTypeDef" in
      let sEnumTypeDef := SmlElement.addAttribute sEnumTypeDef "Name" [name] in
      let sEnumTypeDef := SmlElement.addAttribute sEnumTypeDef "Values" values in
      Ok (SmlElement.addNode sElement sEnumTypeDef)
  | _ => Throw "Todo"
  end.

Definition serializeStructDef (structDef : SsStructDef.t) (sElement : SmlElement)
    : result SmlElement :=
  let sStructDef := SmlElement.new "StructDef" in
  let sStructDef := SmlElement.addAttribute sStructDef "Name" [SsStructDef.name structDef] in
  sStructDef ←
    forEach (SsStructDef.values structDef)
      (fun value sStructDef =>
         typeString ← SsStructValue.getTypeString value;
         Ok (SmlElement.addAttribute sStructDef "Value"
               [SsStructValue.name value;
                if SsStructValue.optional value then "Optional" else "Required";
                typeString]))
      sStructDef;
  Ok (SmlElement.addNode sElement sStructDef).

Definition serializeOccurrence (occurrence : SsRange.t) : result string :=
  if SsRange.isRequired occurrence then Ok "Required"
  else if SsRange.isOptional occurrence then Ok "Optional"
  else if SsRange.isRepeatedPlus occurrence then Ok "Repeated+"
  else if SsRange.isRepeatedStar occurrence then Ok "Repeated*"
  else Throw "Invalid occurrence".

Definition serializeAttributeDef (attributeDef : SsAttributeDef.t) (sElement : SmlElement)
    : result SmlElement :=
  let sAttributeDef := SmlElement.new "AttributeDef" in
  let sAttributeDef := SmlElement.addAttribute sAttributeDef "Name" [SsAttributeDef.name attributeDef] in
  dataTypeStr ← SsAttributeDef.dataType attributeDef ≫= SsAttributeDataType.toString;
  Ok (SmlElement.addNode sElement (SmlElement.addAttribute sAttributeDef "DataType" [dataTypeStr])).

Definition serializeUnorderedAttribute (unorderedAttribute : SsUnorderedAttribute.t)
    (sElementDef : SmlElement) : result SmlElement :=
  occurrenceStr ← serializeOccurrence (SsUnorderedAttribute.occurrence unorderedAttribute);
  let values := [SsAttributeDef.name (SsUnorderedAttribute.attributeDef unorderedAttribute);
                 occurrenceStr] in
  values ←
    (if SsUnorderedAttribute.inline unorderedAttribute then
       dataTypeStr ←
         SsAttributeDef.dataType (SsUnorderedAttribute.attributeDef unorderedAttribute)
           ≫= SsAttributeDataType.toString;
       Ok (values ++ [dataTypeStr])
     else Ok values);
  Ok (SmlElement.addAttribute sElementDef "Attribute" values).

Definition serializeUnorderedElement (unorderedElement : SsUnorderedElement.t)
    (sElementDef : SmlElement) : result SmlElement :=
  occurrenceStr ← serializeOccurrence (SsUnorderedElement.occurrence unorderedElement);
  Ok (SmlElement.addAttribute sElementDef "Element"
        [SsUnorderedElement.elementDef unorderedElement; occurrenceStr]).

Definition serializeContent (content : option SsElementContent) (sElementDef : SmlElement)
    : result SmlElement :=
  match content with
  | None => Ok sElementDef
  | Some (SsUnorderedContent _ _ as unorderedContent) =>
      sElementDef ←
        forEach (SsUnorderedContent.unorderedAttributes unorderedContent)
          serializeUnorderedAttribute sElementDef;
      forEach (SsUnorderedContent.unorderedElements unorderedContent)
        serializeUnorderedElement sElementDef
  | Some SsOrderedContent => Throw "Todo"
  end.

(** [serializeDefinitions] and [serializeElementDef] descend through
    the element definitions; [fuel] bounds the nesting. *)
Fixpoint serializeDefinitions (fuel : nat) (definitions : SsDefinitions)
    (sElement : SmlElement) : result SmlElement :=
  match fuel with
  | O => Throw "out of fuel"
  | S fuel' =>
      let serializeElementDef (elementDef : SsElementDef) (sElement : SmlElement)
          : result SmlElement :=
        let sElementDef := SmlElement.new "ElementDef" in
        let sElementDef := SmlElement.addAttribute sElementDef "Name" [SsElementDef.name elementDef] in
        sElementDef ← serializeDefinitions fuel' (SsElementDef.definitions elementDef) sElementDef;
        sElementDef ← serializeContent (SsElementDef.content elementDef) sElementDef;
        Ok (SmlElement.addNode sElement sElementDef) in
      sElement ← forEach (SsDefinitionList.values (SsDefinitions.valueTypeDefs definitions))
                   serializeValueTypeDef sElement;
      sElement ← forEach (SsDefinitionList.values (SsDefinitions.structDefs definitions))
                   serializeStructDef sElement;
      sElement ← forEach (SsDefinitionList.values (SsDefinitions.attributeDefs definitions))
                   serializeAttributeDef sElement;
      forEach (SsDefinitionList.values (SsDefinitions.elementDefs definitions))
        serializeElementDef sElement
  end.

(** The nesting depth of the element definitions below an element and
    below a scope; the latter is the fuel [serialize] supplies. *)
Fixpoint elementDepth (e : SsElementDef) : nat :=
  match e with
  | mkElementDef _ (mkDefinitions _ _ _ els _) _ =>
      S (foldr (fun p h => Nat.max (elementDepth (snd p)) h) 0%nat (dl_map els))
  end.

Definition depth (definitions : SsDefinitions) : nat :=
  S (foldr (fun p h => Nat.max (elementDepth (snd p)) h) 0%nat
       (dl_map (SsDefinitions.elementDefs definitions))).

Definition serializeWith (fuel : nat) (schema : SmlSchema.t) : result SmlDocument.t :=
  let sRootElement := SmlElement.new "Schema" in
  sRootElement ← serializeDefinitions fuel (SmlSchema.definitions schema) sRootElement;
  sRootElement ←
    (if (1 <? List.length (SsDefinitionList.values
                             (SsDefinitions.elementDefs (SmlSchema.definitions schema))))%nat
     then
       root ← SmlSchema.getRootElement schema;
       match root with
       | Defined e => Ok (SmlElement.addAttribute sRootElement "RootElement" [SsElementDef.name e])
       | Undefined => Throw "TypeError: Cannot read properties of undefined"
       end
     else Ok sRootElement);
  Ok (SmlDocument.mk sRootElement).

Definition serialize (schema : SmlSchema.t) : result SmlDocument.t :=
  serializeWith (depth (SmlSchema.definitions schema)) schema.

(** Notions for the statements about serialized trees: the node names
    the serializer gives to the definitions, a node under one of them,
    an element extended by child elements under the same name, and the
    number of definitions in the four local maps of a scope. *)
Definition serializedNames : list string :=
  ["EnumTypeDef"; "StructDef"; "AttributeDef"; "ElementDef"].

Definition serializedNode (c : SmlElement) : Prop := SmlElement.name c ∈ serializedNames.

Definition extends (e e' : SmlElement) (cs : list SmlElement) : Prop :=
  SmlElement.name e' = SmlElement.name e
  /\ SmlElement.allElements e' = SmlElement.allElements e ++ cs.

Definition localCount (d : SsDefinitions) : nat :=
  (List.length (SsDefinitionList.values (SsDefinitions.valueTypeDefs d))
   + List.length (SsDefinitionList.values (SsDefinitions.structDefs d))
   + List.length (SsDefinitionList.values (SsDefinitions.attributeDefs d))
   + List.length (SsDefinitionList.values (SsDefinitions.elementDefs d)))%nat.

End SmlSchemaSerializer.

(** ** TsUtil and TsLookup (the name allocator) *)

Module TsUtil.

Definition keywords : list string := ["public"; "internal"].

(** [escapeString]: the text between two double quotes. *)
Definition escapeString (str : string) : string := Js.dq +:+ str +:+ Js.dq.

Definition getIdentifier (str : string) (startUpperCase : bool) : string :=
  let firstChar := Js.substring str 0 1 in
  let str :=
    (if startUpperCase then Js.toUpperCase firstChar else Js.toLowerCase firstChar)
      +:+ Js.substringFrom str 1 in
  if Js.arrayContains keywords str then "_" +:+ str else str.

End TsUtil.

Module TsLookup.
Section WithObjects.
(** [Object] keys are compared by identity; [Obj] is the type of
    object identities, [Mapped] the type of the generated constructs. *)
Context {Obj : Type} `{Countable Obj} {Mapped : Type}.

Record t : Type := mk {
  names : list string;
  nameLookup : gmap Obj string;
  lookup : gmap Obj Mapped;
  startUpperCase : bool
}.

Definition new (startUpperCase : bool) : t := mk [] ∅ ∅ startUpperCase.

(** [name + i] *)
Definition suffixed (name : string) (i : Z) : string :=
  name +:+ Number.toString (Num i).

(** [for (let i=2; i<100; i++)]: the first [i] whose candidate is not
    in [names]. *)
Definition firstFree (names : list string) (name : string) : option Z :=
  List.find (fun i => negb (Js.arrayContains names (suffixed name i))) (seqZ 2 98).

Definition generateName (l : t) (name : string) : result string :=
  if (String.length name =? 0)%nat then Throw "Invalid name"
  else
    let name := TsUtil.getIdentifier name (startUpperCase l) in
    if negb (Js.arrayContains (names l) name) then Ok name
    else
      match firstFree (names l) name with
      | Some i => Ok (suffixed name i)
      | None => Throw "Too many identical names"
      end.

Definition add (l : t) (source : Obj) (name : string) (mapped : Mapped) : result t :=
  if Js.arrayContains (names l) name then Throw "Already contains name"
  else Ok (mk (names l ++ [name]) (<[source := name]> (nameLookup l))
             (<[source := mapped]> (lookup l)) (startUpperCase l)).

Definition get (l : t) (source : Obj) : result Mapped :=
  match lookup l !! source with
  | Some m => Ok m
  | None => Throw "Does not contain source"
  end.

Definition getName (l : t) (source : Obj) : result string :=
  match nameLookup l !! source with
  | Some n => Ok n
  | None => Throw "Does not contain source"
  end.

(** One allocation, as the code generator does it: [generateName]
    followed by [add] of the returned name. *)
Definition allocate (l : t) (source : Obj) (name : string) (mapped : Mapped)
    : result (string * t) :=
  n ← generateName l name;
  l' ← add l source n mapped;
  Ok (n, l').

(** A sequence of allocations; the returned names are collected in
    call order.  It stops at the first call that throws. *)
Fixpoint allocateAll (l : t) (requests : list (Obj * string * Mapped))
    : result (list string * t) :=
  match requests with
  | [] => Ok ([], l)
  | (source, name, mapped) :: requests' =>
      '(n, l') ← allocate l source name mapped;
      '(ns, l'') ← allocateAll l' requests';
      Ok (n :: ns, l'')
  end.

(** Requests that share the base name [name]. *)
Definition sameBase (name : string) (sources : list (Obj * Mapped))
    : list (Obj * string * Mapped) :=
  map (fun sm => (sm.1, name, sm.2)) sources.

(** The allocators a program can hold: a new one, and the one left by
    a call of [add] that returned. *)
Inductive reachable : t -> Prop :=
| reachable_new (startUpperCase : bool) : reachable (new startUpperCase)
| reachable_add (l : t) (source : Obj) (name : string) (mapped : Mapped) (l' : t) :
    reachable l -> add l source name mapped = Ok l' -> reachable l'.

End WithObjects.
Arguments t Obj {_ _} Mapped.

(** The candidates [generateName] tries for a base name whose
    identifier is [N], in order: [N], [N2], ..., [N99]. *)
Definition expectedNames (N : string) : list string :=
  N :: (suffixed N <$> seqZ 2 98).

End TsLookup.

(** ** IndentedStringBuilder *)

Module IndentedStringBuilder.

(** [firstLineStray] is the property [-1] of the array
    [firstLineStack]: the index [length-1] of an empty array is -1,
    which names a property of the object and not an element. *)
Record t : Type := mk {
  text : string;
  indentationLevel : Z;
  firstLineStack : list bool;
  firstLineStray : option bool;
  lastWasEmpty : bool
}.

Definition openingString : string := "{".
Definition closingString : string := "}".
Definition newline : string := String "010"%char EmptyString.
Definition tab : string := String "009"%char EmptyString.

Definition new : t := mk EmptyString 0 [true] None false.

(** [firstLineStack[firstLineStack.length-1]] as a condition;
    [undefined] counts as false. *)
Definition top (sb : t) : bool :=
  match last (firstLineStack sb) with
  | Some b => b
  | None => default false (firstLineStray sb)
  end.

(** [firstLineStack[firstLineStack.length-1] = b] *)
Definition setTop (sb : t) (b : bool) : t :=
  match firstLineStack sb with
  | [] => mk (text sb) (indentationLevel sb) [] (Some b) (lastWasEmpty sb)
  | stack =>
      mk (text sb) (indentationLevel sb) (<[Nat.pred (List.length stack) := b]> stack)
        (firstLineStray sb) (lastWasEmpty sb)
  end.

Definition setLevel (sb : t) (level : Z) : t :=
  mk (text sb) level (firstLineStack sb) (firstLineStray sb) (lastWasEmpty sb).

Definition setLastWasEmpty (sb : t) (b : bool) : t :=
  mk (text sb) (indentationLevel sb) (firstLineStack sb) (firstLineStray sb) b.

Definition setStack (sb : t) (stack : list bool) : t :=
  mk (text sb) (indentationLevel sb) stack (firstLineStray sb) (lastWasEmpty sb).

Definition setText (sb : t) (text : string) : t :=
  mk text (indentationLevel sb) (firstLineStack sb) (firstLineStray sb) (lastWasEmpty sb).

(** [appendLine(line)]; [appendLine()] is [appendLine sb EmptyString]. *)
Definition appendLine (sb : t) (line : string) : result t :=
  let empty := (String.length line =? 0)%nat in
  if empty && (lastWasEmpty sb || top sb) then Ok sb
  else
    let sb := setLastWasEmpty sb empty in
    let sb := setTop sb false in
    let sb :=
      if negb (String.eqb (text sb) EmptyString) then setText sb (text sb +:+ newline)
      else sb in
    indentation ← Js.repeat tab (indentationLevel sb);
    Ok (setText sb (text sb +:+ indentation +:+ line)).

Definition appendLines (sb : t) (lines : string) : result t :=
  forEach (Js.splitAll lines newline) (fun lineStr sb => appendLine sb lineStr) sb.

Definition open (sb : t) (openingLine : string) : result t :=
  sb ← appendLine sb
         (openingLine
          +:+ (if String.eqb openingLine EmptyString then EmptyString else " ")
          +:+ openingString);
  let sb := setLevel sb (indentationLevel sb + 1) in
  Ok (setStack sb (firstLineStack sb ++ [true])).

Definition close (sb : t) : result t :=
  if indentationLevel sb =? 0 then Throw "Invalid close"
  else
    let sb := setLastWasEmpty sb false in
    let sb := setLevel sb (indentationLevel sb - 1) in
    sb ← appendLine sb closingString;
    Ok (setStack sb (removelast (firstLineStack sb))).

Definition closeAndOpen (sb : t) (line : string) : result t :=
  if indentationLevel sb =? 0 then Throw "Invalid close"
  else
    let sb := setLastWasEmpty sb false in
    let sb := setLevel sb (indentationLevel sb - 1) in
    sb ← appendLine sb (closingString +:+ " " +:+ line +:+ " " +:+ openingString);
    let sb := setLevel sb (indentationLevel sb + 1) in
    Ok (setTop sb true).

Definition toString (sb : t) : string := text sb.

(** The calls a program can make on a builder, and a sequence of them
    on one builder; it stops at the first call that throws. *)
Inductive call : Type :=
| AppendLine (line : string)
| AppendLines (lines : string)
| Open (openingLine : string)
| Close
| CloseAndOpen (line : string).

Definition run (c : call) (sb : t) : result t :=
  match c with
  | AppendLine line => appendLine sb line
  | AppendLines lines => appendLines sb lines
  | Open openingLine => open sb openingLine
  | Close => close sb
  | CloseAndOpen line => closeAndOpen sb line
  end.

Definition runAll (calls : list call) (sb : t) : result t := forEach calls run sb.

(** Whether every [Close] and [CloseAndOpen] of the calls has an
    [Open] before it that is still open, counting from [level] open
    blocks. *)
Fixpoint closesMatch (calls : list call) (level : Z) : bool :=
  match calls with
  | [] => true
  | Open _ :: calls' => closesMatch calls' (level + 1)
  | Close :: calls' => negb (level =? 0) && closesMatch calls' (level - 1)
  | CloseAndOpen _ :: calls' => negb (level =? 0) && closesMatch calls' level
  | _ :: calls' => closesMatch calls' level
  end.

(** The number of blocks the calls leave open, from [level]. *)
Fixpoint finalLevel (calls : list call) (level : Z) : Z :=
  match calls with
  | [] => level
  | Open _ :: calls' => finalLevel calls' (level + 1)
  | Close :: calls' => finalLevel calls' (level - 1)
  | _ :: calls' => finalLevel calls' level
  end.

(** Notions for the statements about builders.  What every call
    keeps: the level, the depth of the stack and, on a stack that is not
    empty, the stray property, while the text is extended.  The state of
    a builder between calls.  A call sequence that returns in every
    such state, at the level it started from. *)
Definition keepsShape (sb sb' : t) : Prop :=
  indentationLevel sb' = indentationLevel sb
  /\ List.length (firstLineStack sb') = List.length (firstLineStack sb)
  /\ (firstLineStack sb <> [] -> firstLineStray sb' = firstLineStray sb)
  /\ exists suffix, text sb' = text sb +:+ suffix.

Definition balanced (sb : t) : Prop :=
  0 <= indentationLevel sb
  /\ Z.of_nat (List.length (firstLineStack sb)) = indentationLevel sb + 1
  /\ firstLineStray sb = None.

Definition returnsLevel (f : t -> result t) : Prop :=
  forall sb, balanced sb ->
    exists sb', f sb = Ok sb' /\ balanced sb'
                /\ indentationLevel sb' = indentationLevel sb
                /\ exists suffix, text sb' = text sb +:+ suffix.

End IndentedStringBuilder.

(** ** TsDocument and its parts *)

Module TsImport.
Record t : Type := mk { imports : string; from : string }.
End TsImport.

Module TsEnum.
Record t : Type := mk { header : string; values : list string }.
Definition new (header : string) : t := mk header [].
Definition addValue (e : t) (value : string) : t := mk (header e) (values e ++ [value]).
End TsEnum.

Module TsClassMethod.
Record t : Type := mk { header : string; code : IndentedStringBuilder.t }.
Definition new (header : string) : t := mk header IndentedStringBuilder.new.
End TsClassMethod.

Module TsClassProperty.
Record t : Type := mk { line : string }.
End TsClassProperty.

Module TsClassConstructor.
Record t : Type := mk { header : string; code : IndentedStringBuilder.t }.
Definition new (header : string) : t := mk header IndentedStringBuilder.new.
End TsClassConstructor.

Module TsClass.
Record t : Type := mk {
  header : string;
  properties : list TsClassProperty.t;
  methods : list TsClassMethod.t;
  constructorImpl : option TsClassConstructor.t
}.
Definition new (header : string) : t := mk header [] [] None.
Definition addMethod (c : t) (header : string) : t :=
  mk (TsClass.header c) (properties c) (methods c ++ [TsClassMethod.new header])
    (constructorImpl c).
Definition addProperty (c : t) (line : string) : t :=
  mk (header c) (properties c ++ [TsClassProperty.mk line]) (methods c) (constructorImpl c).
Definition setConstructor (c : t) (header : string) : t :=
  mk (TsClass.header c) (properties c) (methods c) (Some (TsClassConstructor.new header)).
End TsClass.

(** [TsType] with its two subclasses; the class itself can be
    instantiated, which gives a type that is neither. *)
Inductive TsType : Type :=
| TsClassType (tsClass : TsClass.t)
| TsEnumType (tsEnum : TsEnum.t)
| TsPlainType.

Module TsDocument.
Import IndentedStringBuilder.

Record t : Type := mk { imports : list TsImport.t; types : list TsType }.

Definition new : t := mk [] [].

Definition addImport (d : t) (imports from : string) : t :=
  mk (TsDocument.imports d ++ [TsImport.mk imports from]) (types d).
Definition addClass (d : t) (header : string) : t :=
  mk (imports d) (types d ++ [TsClassType (TsClass.new header)]).
Definition addEnum (d : t) (header : string) : t :=
  mk (imports d) (types d ++ [TsEnumType (TsEnum.new header)]).

Definition headerLine : string :=
  "// This document was generated. Do not modify. Changes might be overwritten.".

(** The body of the loop over [tsClass.methods], also run for the
    constructor. *)
Definition appendBlock (header : string) (code : IndentedStringBuilder.t)
    (sb : IndentedStringBuilder.t) : result IndentedStringBuilder.t :=
  sb ← appendLine sb EmptyString;
  sb ← open sb header;
  sb ← appendLines sb (IndentedStringBuilder.toString code);
  close sb.

Definition appendClass (tsClass : TsClass.t) (sb : IndentedStringBuilder.t)
    : result IndentedStringBuilder.t :=
  sb ← appendLine sb EmptyString;
  sb ← open sb (TsClass.header tsClass);
  sb ← forEach (TsClass.properties tsClass)
         (fun property sb => appendLine sb (TsClassProperty.line property)) sb;
  sb ← match TsClass.constructorImpl tsClass with
       | Some c => appendBlock (TsClassConstructor.header c) (TsClassConstructor.code c) sb
       | None => Ok sb
       end;
  sb ← forEach (TsClass.methods tsClass)
         (fun method sb => appendBlock (TsClassMethod.header method) (TsClassMethod.code method) sb)
         sb;
  close sb.

(** [for (let i=0; i<tsEnum.values.length; i++)] *)
Definition appendEnum (tsEnum : TsEnum.t) (sb : IndentedStringBuilder.t)
    : result IndentedStringBuilder.t :=
  sb ← appendLine sb EmptyString;
  sb ← open sb (TsEnum.header tsEnum);
  sb ← forEach (imap (fun i value => (i, value)) (TsEnum.values tsEnum))
         (fun '(i, value) sb =>
            let commaStr :=
              if (i =? List.length (TsEnum.values tsEnum) - 1)%nat then EmptyString else "," in
            appendLine sb (value +:+ commaStr))
         sb;
  close sb.

Definition toString (d : t) : result string :=
  let sb := IndentedStringBuilder.new in
  sb ← appendLine sb headerLine;
  sb ← appendLine sb EmptyString;
  sb ← forEach (imports d)
         (fun tsImport sb =>
            appendLine sb ("import { " +:+ TsImport.imports tsImport +:+ " } from "
                           +:+ Js.dq +:+ TsImport.from tsImport +:+ Js.dq))
         sb;
  sb ← forEach (types d)
         (fun tsType sb =>
            match tsType with
            | TsClassType tsClass => appendClass tsClass sb
            | TsEnumType tsEnum => appendEnum tsEnum sb
            | TsPlainType => Ok sb
            end)
         sb;
  Ok (IndentedStringBuilder.toString sb).

End TsDocument.

(** ** SmlSchemaCodeGen *)

Module SmlSchemaCodeGen.

(** The number of a member of the enum [SsPredefinedType], which is
    what the error messages show. *)
Definition enumValue (predefinedType : SsPredefinedType) : Z :=
  match predefinedType with
  | Bool => 0
  | Int => 1
  | UInt => 2
  | Number => 3
  | String_ => 4
  | Date => 5
  | Time => 6
  | Base64 => 7
  | DateTime => 8
  end.

Definition todo (predefinedType : SsPredefinedType) : string :=
  "Todo " +:+ Number.toString (Num (enumValue predefinedType)).

Definition getPredefinedTypeString (predefinedType : SsPredefinedType) : result string :=
  match predefinedType with
  | Bool => Ok "boolean"
  | Int => Ok "number"
  | UInt => Ok "number"
  | Number => Ok "number"
  | String_ => Ok "string"
  | DateTime => Ok "Date"
  | _ => Throw (todo predefinedType)
  end.

Definition getPredefinedTypeInitialization (predefinedType : SsPredefinedType)
    : result string :=
  match predefinedType with
  | Bool => Ok "false"
  | Int => Ok "0"
  | UInt => Ok "0"
  | Number => Ok "0.0"
  | String_ => Ok (Js.dq +:+ Js.dq)
  | DateTime => Ok "new Date()"
  | _ => Throw (todo predefinedType)
  end.

Section WithObjects.
(** The keys of [typeLookup] are objects; [elementDefObject] gives the
    identity of the element definition an unordered element refers
    to. *)
Context {Obj : Type} `{Countable Obj} {Mapped : Type}.
Context (elementDefObject : SsUnorderedElement.t -> Obj).

(** The name, type and initial value of the property generated for an
    unordered element. *)
Definition elementProperty (unorderedElement : SsUnorderedElement.t)
    (elementalTypeName : string) : string * string * string :=
  let elementName := SsUnorderedElement.elementDef unorderedElement in
  let typeName := elementalTypeName in
  let initialization := "new " +:+ typeName +:+ "()" in
  let isOptional := SsRange.isOptional (SsUnorderedElement.occurrence unorderedElement) in
  let '(typeName, initialization) :=
    if isOptional then (typeName +:+ " | null", "null") else (typeName, initialization) in
  let asArray :=
    SsRange.isRepeatedPlus (SsUnorderedElement.occurrence unorderedElement)
    || SsRange.isRepeatedStar (SsUnorderedElement.occurrence unorderedElement) in
  let '(elementName, typeName, initialization) :=
    if asArray then (elementName +:+ "List", "(" +:+ typeName +:+ ")[]", "[]")
    else (elementName, typeName, initialization) in
  (TsUtil.getIdentifier elementName false, typeName, initialization).

(** [generateUnorderedElement]; it returns the class and the builder
    after the call. *)
Definition generateUnorderedElement (typeLookup : TsLookup.t Obj Mapped)
    (unorderedElement : SsUnorderedElement.t) (elementClass : TsClass.t)
    (sbLoad : IndentedStringBuilder.t)
    : result (TsClass.t * IndentedStringBuilder.t) :=
  let occurrence := SsUnorderedElement.occurrence unorderedElement in
  elementalTypeName ← TsLookup.getName typeLookup (elementDefObject unorderedElement);
  let '(elementName, typeName, initialization) :=
    elementProperty unorderedElement elementalTypeName in
  let loadStr := elementalTypeName +:+ ".load(sCurElement)" in
  let nameStr := TsUtil.escapeString (SsUnorderedElement.elementDef unorderedElement) in
  sbLoad ← IndentedStringBuilder.open sbLoad EmptyString;
  sbLoad ←
    (if SsRange.isRequired occurrence then
       sbLoad ← IndentedStringBuilder.appendLine sbLoad
                  ("let sCurElement: SmlElement = sElement.requiredElement(" +:+ nameStr +:+ ")");
       IndentedStringBuilder.appendLine sbLoad
         ("element." +:+ elementName +:+ " = " +:+ loadStr)
     else if SsRange.isOptional occurrence then
       sbLoad ← IndentedStringBuilder.appendLine sbLoad
                  ("let sCurElement: SmlElement | null = sElement.optionalElement("
                   +:+ nameStr +:+ ")");
       sbLoad ← IndentedStringBuilder.open sbLoad "if (sCurElement !== null)";
       sbLoad ← IndentedStringBuilder.appendLine sbLoad
                  ("element." +:+ elementName +:+ " = " +:+ loadStr);
       IndentedStringBuilder.close sbLoad
     else
       sbLoad ←
         (if SsRange.isRepeatedPlus occurrence then
            IndentedStringBuilder.open sbLoad
              ("for (let sCurElement of sElement.oneOrMoreAttributes(" +:+ nameStr +:+ "))")
          else if SsRange.isRepeatedStar occurrence then
            IndentedStringBuilder.open sbLoad
              ("for (let sCurElement of sElement.attributes(" +:+ nameStr +:+ "))")
          else Throw EmptyString);
       sbLoad ← IndentedStringBuilder.appendLine sbLoad
                  ("element." +:+ elementName +:+ ".push(" +:+ loadStr +:+ ")");
       IndentedStringBuilder.close sbLoad);
  sbLoad ← IndentedStringBuilder.close sbLoad;
  Ok (TsClass.addProperty elementClass
        (elementName +:+ ": " +:+ typeName +:+ " = " +:+ initialization),
      sbLoad).

(** The identities of the value type and of the struct a data type
    refers to. *)
Context (valueTypeObject : SsValueTypeDef -> Obj).
Context (structObject : SsStructDef.t -> Obj).

(** [enumTypeDef.values[0]] is [undefined] for an enum without values,
    on which [getIdentifier] raises a [TypeError]. *)
Definition getValueTypeInitialization (valueTypeDef : SsValueTypeDef) (typeName : string)
    : result string :=
  match valueTypeDef with
  | SsEnumTypeDef _ values =>
      match values !! 0%nat with
      | Some value =>
          let firstValue := TsUtil.getIdentifier value true in
          Ok (typeName +:+ "." +:+ firstValue)
      | None => Throw "TypeError: Cannot read properties of undefined"
      end
  | _ => Throw "Todo"
  end.

Definition getAttributeDataTypeString (typeLookup : TsLookup.t Obj Mapped)
    (dataType : SsAttributeDataType.t) : result string :=
  match SsAttributeDataType.predefinedType dataType with
  | Some predefinedType => getPredefinedTypeString predefinedType
  | None =>
      match SsAttributeDataType.valueTypeDef dataType with
      | Some valueTypeDef => TsLookup.getName typeLookup (valueTypeObject valueTypeDef)
      | None =>
          match SsAttributeDataType.structDef dataType with
          | Some structDef => TsLookup.getName typeLookup (structObject structDef)
          | None => Throw "Todo"
          end
      end
  end.

Definition getAttributeDataTypeInitialization (dataType : SsAttributeDataType.t)
    (typeName : string) : result string :=
  match SsAttributeDataType.predefinedType dataType with
  | Some predefinedType => getPredefinedTypeInitialization predefinedType
  | None =>
      match SsAttributeDataType.valueTypeDef dataType with
      | Some valueTypeDef => getValueTypeInitialization valueTypeDef typeName
      | None =>
          match SsAttributeDataType.structDef dataType with
          | Some _ => Ok ("new " +:+ typeName +:+ "()")
          | None => Throw "Todo"
          end
      end
  end.

(** A number or [null] inside a template literal. *)
Definition templateNumber (n : option number) : string :=
  match n with
  | Some n => Number.toString n
  | None => "null"
  end.

(** The type and the initial value that [getAttributeDataTypePropertyCode]
    derives from the elemental ones. *)
Definition propertyType (dataType : SsAttributeDataType.t) (forceNullable asArray : bool)
    (elementalTypeName : string) : string :=
  let nullable := SsAttributeDataType.nullable dataType in
  let isArray := SsAttributeDataType.isArray dataType in
  let typeName := elementalTypeName in
  let typeName :=
    if nullable then
      let typeName := typeName +:+ " | null" in
      if isArray then "(" +:+ typeName +:+ ")[]" else typeName
    else
      if isArray then typeName +:+ "[]" else typeName in
  let typeName :=
    if SsAttributeDataType.arrayNullable dataType
       || (forceNullable && ((nullable && isArray) || negb nullable))
    then typeName +:+ " | null" else typeName in
  if asArray then "(" +:+ typeName +:+ ")[]" else typeName.

Definition propertyInitialization (dataType : SsAttributeDataType.t)
    (forceNullable asArray : bool) (elementalInitialization : string) : string :=
  let nullable := SsAttributeDataType.nullable dataType in
  let isArray := SsAttributeDataType.isArray dataType in
  let initialization :=
    if (negb isArray && nullable)
       || (isArray && SsAttributeDataType.arrayNullable dataType)
       || forceNullable
    then "null"
    else if isArray then "[]" else elementalInitialization in
  if asArray then "[]" else initialization.

(** The last block of [getAttributeDataTypePropertyCode]. *)
Definition loadCode (dataType : SsAttributeDataType.t) (elementalTypeName : string)
    : result string :=
  match SsAttributeDataType.predefinedType dataType with
  | Some predefinedType =>
      typeNameStr ← SsPredefinedTypeUtil.getPredefinedTypeString predefinedType;
      match SsAttributeDataType.arrayRange dataType with
      | Some arrayRange =>
          let rangeStr :=
            if negb (SsRange.isRepeatedPlus arrayRange)
            then templateNumber (SsRange.min arrayRange) +:+ ", "
                 +:+ templateNumber (SsRange.max arrayRange)
            else EmptyString in
          Ok ("sCurAttribute.as"
              +:+ (if SsAttributeDataType.nullable dataType then "Nullable" else EmptyString)
              +:+ typeNameStr +:+ "Array(" +:+ rangeStr +:+ ")")
      | None => Ok ("sCurAttribute.as" +:+ typeNameStr +:+ "()")
      end
  | None =>
      match SsAttributeDataType.valueTypeDef dataType with
      | Some _ =>
          if SsAttributeDataType.isArray dataType then Throw "Todo"
          else Ok ("ValueTypeUtils.as" +:+ elementalTypeName +:+ "(sCurAttribute)")
      | None => Throw "Todo"
      end
  end.

Record TsPropertyCode : Type := mkPropertyCode {
  typeName : string;
  initialization : string;
  load : string
}.

Definition getAttributeDataTypePropertyCode (typeLookup : TsLookup.t Obj Mapped)
    (dataType : SsAttributeDataType.t) (forceNullable asArray : bool)
    : result TsPropertyCode :=
  elementalTypeName ← getAttributeDataTypeString typeLookup dataType;
  elementalInitialization ← getAttributeDataTypeInitialization dataType elementalTypeName;
  let typeName := propertyType dataType forceNullable asArray elementalTypeName in
  let initialization :=
    propertyInitialization dataType forceNullable asArray elementalInitialization in
  loadCode ← loadCode dataType elementalTypeName;
  Ok (mkPropertyCode typeName initialization loadCode).

End WithObjects.

End SmlSchemaCodeGen.

(** ** Arrays as shared objects *)

(** The [values] accessors return a new array object.  To state what a
    caller can and cannot change through it, arrays are placed in a
    store: an array is a location, its contents are read from the
    store, and a mutation of an array replaces the contents at its
    location. *)
Module Store.

Abbreviation loc := positive (only parsing).
Abbreviation t A := (gmap positive (list A)) (only parsing).

Section Arrays.
Context {A : Type}.

(** A location that holds no array. *)
Definition fresh (h : t A) : loc := fresh (dom h).

(** [[...xs]]: a new array with the given contents. *)
Definition alloc (h : t A) (xs : list A) : loc * t A :=
  let l := fresh h in (l, <[l := xs]> h).

Definition read (h : t A) (l : loc) : list A := default [] (h !! l).

(** Any in-place mutation of the array at [l] ([push], [pop],
    [splice], an indexed write, an assignment to [length]): the new
    contents are a function of the old ones. *)
Definition mutate (h : t A) (l : loc) (f : list A -> list A) : t A :=
  match h !! l with
  | Some xs => <[l := f xs]> h
  | None => h
  end.

End Arrays.
End Store.

Module SsEnumTypeDefObject.

(** [SsEnumTypeDef] with its private array [_values] as a location. *)
Record t : Type := mk { name : string; _values : Store.loc }.

(** [constructor(name, values)] keeps the array it is given. *)
Definition new (name : string) (values : Store.loc) : t := mk name values.

(** [get values()]: [[...this._values]] *)
Definition values (e : t) (h : Store.t string) : Store.loc * Store.t string :=
  Store.alloc h (Store.read h (_values e)).

End SsEnumTypeDefObject.

Module SsStructDefObject.

(** [SsStructDef] with its private array [_values] as a location. *)
Record t : Type := mk { name : string; _values : Store.loc }.

(** [get values()]: [[...this._values]] *)
Definition values (s : t) (h : Store.t SsStructValue.t)
    : Store.loc * Store.t SsStructValue.t :=
  Store.alloc h (Store.read h (_values s)).

Definition hasOptional (s : t) (h : Store.t SsStructValue.t) : bool :=
  match List.find SsStructValue.optional (Store.read h (_values s)) with
  | Some _ => true
  | None => false
  end.

End SsStructDefObject.

(** ** Example values *)

(** The struct of the end-to-end example: [x] is a required number and
    [color] an optional [Color]. *)
Definition struct_example_required : SsStructValue.t :=
  SsStructValue.mk "x" false (Some Number) None false.
Definition struct_example_optional : SsStructValue.t :=
  SsStructValue.mk "color" true None (Some (SsEnumTypeDef "Color" ["Red"; "Green"; "Blue"])) false.
Definition struct_example : SsStructDef.t :=
  SsStructDef.mk "Point" [struct_example_required; struct_example_optional].

(** A value-type namespace of a schema that defines the enum [X], and
    the namespace of an element nested in it. *)
Definition outer_X : SsValueTypeDef := SsEnumTypeDef "X" ["A"].
Definition inner_X : SsValueTypeDef := SsEnumTypeDef "X" ["B"].
Definition outer_list : SsDefinitionList SsValueTypeDef :=
  SsDefinitionList.setLocal (SsDefinitionList.new None "ValueTypeDef" "schema") "X" outer_X.
Definition nested_list : SsDefinitionList SsValueTypeDef :=
  SsDefinitionList.new (Some outer_list) "ValueTypeDef" "ElementDef E".

(** A document whose root [Schema] has no children and no attributes,
    and one that declares an enum type and no element. *)
Definition empty_schema_document : SmlDocument.t :=
  SmlDocument.mk (SmlElement.new "Schema").
Definition enum_only_document : SmlDocument.t :=
  SmlDocument.mk
    (mkSmlElement "Schema"
       [inr (mkSmlElement "EnumType"
               [inl (SmlAttribute.mk "Name" ["Color"]);
                inl (SmlAttribute.mk "Values" ["Red"; "Green"; "Blue"])])]).


(** The schema built by [new SmlSchema()] followed by
    [definitions.addEnum("Color", ["Red", "Green", "Blue"])]. *)
Definition color_schema : result SmlSchema.t :=
  d ← SsDefinitions.addEnum (SmlSchema.definitions SmlSchema.new) "Color" ["Red"; "Green"; "Blue"];
  Ok (SmlSchema.mk d (SmlSchema._rootElement SmlSchema.new)).

(** The schema built by [new SmlSchema()],
    [definitions.elementDefs.add("Person")], [setUnorderedContent()] on
    the new element, and [setRootElementDefault()]. *)
Definition person_schema : result SmlSchema.t :=
  let schema := SmlSchema.new in
  '(person, l) ← SsDefinitions.addElementDef (SmlSchema.definitions schema) "Person";
  let person := SsElementDef.setUnorderedContent person in
  let d := SsDefinitions.setElementDefs (SmlSchema.definitions schema)
             (SsDefinitionList.setLocal l "Person" person) in
  SmlSchema.setRootElementDefault (SmlSchema.mk d (SmlSchema._rootElement schema)).

(** Serialize, then load what was serialized. *)
Definition reload (schema : SmlSchema.t) : result SmlSchema.t :=
  SmlSchemaSerializer.serialize schema ≫= SmlSchemaLoader.parse.

(* ====================================================================== *)
(** * Part II: properties *)
(* ====================================================================== *)

(** ** Exceptions and loops *)

Ltac in_list := apply list_elem_of_In; simpl; tauto.

Lemma throws_iff {A} (r : result A) : throws r <-> exists msg, r = Throw msg.
Proof.
  destruct r as [a|msg]; simpl; split; try contradiction; eauto.
  intros [m Hm]; discriminate.
Qed.

Lemma forEach_app {A S} (xs ys : list A) (body : A -> S -> result S) (s : S) :
  forEach (xs ++ ys) body s = s' ← forEach xs body s; forEach ys body s'.
Proof.
  revert s; induction xs as [|x xs IH]; intros s; simpl; [reflexivity|].
  destruct (body x s) as [s1|msg]; simpl; [apply IH | reflexivity].
Qed.

(** ** Occurrence ranges *)

Section RangeFacts.
Import SsRange.

Lemma named_constructors_return (c : named) : exists r, build c = Ok r.
Proof.
  destruct c as [| | | |[|z]]; simpl; eauto.
  unfold fixed, new, Number.lt. rewrite Z.ltb_irrefl. eauto.
Qed.

Lemma fixed_value (z : Z) : fixed (Num z) = Ok (mk (Some (Num z)) (Some (Num z))).
Proof. unfold fixed, new, Number.lt. now rewrite Z.ltb_irrefl. Qed.

(** With a size that is not a number no predicate holds on the range. *)
Lemma fixed_NaN_predicates :
  exists r, fixed NaN = Ok r /\ predicates r = [false; false; false; false; false].
Proof. eexists; split; reflexivity. Qed.
End RangeFacts.

(** C6, as stated, fails: on the range returned by [required()] both
    [isRequired] and [isFixed] hold, so two of the five predicates hold
    rather than exactly one. *)
Lemma required_range_is_also_fixed :
  exists r, SsRange.build SsRange.Required = Ok r
    /\ SsRange.isRequired r = true /\ SsRange.isFixed r = true
    /\ SsRange.holding r = 2%nat.
Proof. eexists; repeat split; reflexivity. Qed.

(** C6 (amended): every named constructor returns a range; on the ranges
    of [optional()], [repeatedPlus()], [repeatedStar()] and of [fixed(n)]
    with an integer [n] other than 1 exactly one of the five predicates
    holds ([isOptional], [isRepeatedPlus], [isRepeatedStar], [isFixed]
    respectively), and on the range (1,1), returned by [required()] and
    by [fixed(1)], exactly two hold: [isRequired] and [isFixed]. *)
Theorem named_constructor_predicates (c : SsRange.named) :
  c <> SsRange.Fixed NaN ->
  exists r, SsRange.build c = Ok r /\
    SsRange.predicates r =
      match c with
      | SsRange.Required => [true; false; false; false; true]
      | SsRange.Optional => [false; true; false; false; false]
      | SsRange.RepeatedPlus => [false; false; true; false; false]
      | SsRange.RepeatedStar => [false; false; false; true; false]
      | SsRange.Fixed (Num n) => [n =? 1; false; false; false; true]
      | SsRange.Fixed NaN => []
      end /\
    SsRange.holding r =
      match c with
      | SsRange.Required => 2%nat
      | SsRange.Fixed (Num n) => if n =? 1 then 2%nat else 1%nat
      | _ => 1%nat
      end.
Proof.
  intros Hc. destruct c as [| | | |[|n]]; try congruence;
    try (eexists; repeat split; reflexivity).
  exists (SsRange.mk (Some (Num n)) (Some (Num n))). split; [apply fixed_value|].
  unfold SsRange.holding, SsRange.predicates, SsRange.isRequired, SsRange.isOptional,
    SsRange.isRepeatedPlus, SsRange.isRepeatedStar, SsRange.isFixed; simpl.
  rewrite Z.eqb_refl, andb_diag.
  replace ((n =? 0) && (n =? 1)) with false by (destruct (Z.eqb_spec n 0); [subst|]; reflexivity).
  split; [reflexivity|]. destruct (n =? 1); reflexivity.
Qed.

Lemma named_constructor_predicates_witness :
  exists r, SsRange.build (SsRange.Fixed (Num 3)) = Ok r /\
    SsRange.predicates r = [false; false; false; false; true] /\
    SsRange.holding r = 1%nat.
Proof. apply (named_constructor_predicates (SsRange.Fixed (Num 3))). discriminate. Defined.

(** ** Predefined types *)

Section PredefinedFacts.
Import SsPredefinedTypeUtil.

(** The enum has the nine members, each once. *)
Lemma all_predefined (p : SsPredefinedType) : p ∈ all.
Proof. destruct p; apply (bool_decide_unpack _); vm_compute; exact I. Qed.

Lemma all_predefined_NoDup : NoDup all.
Proof. apply (bool_decide_unpack _). vm_compute. exact I. Qed.

(** Lookup depends on the lower-cased text only, so every letter-casing
    of a name is found. *)
Lemma lookup_any_casing (p : SsPredefinedType) (str : string) :
  Js.toLowerCase str = Js.toLowerCase (canonicalName p) ->
  getPredefinedTypeOrNull str = Some p.
Proof.
  intros Hs. unfold getPredefinedTypeOrNull. rewrite Hs. destruct p; reflexivity.
Qed.

(** Only the nine names are found. *)
Lemma lookup_sound (p : SsPredefinedType) (str : string) :
  getPredefinedTypeOrNull str = Some p ->
  Js.toLowerCase str = Js.toLowerCase (canonicalName p).
Proof.
  unfold getPredefinedTypeOrNull.
  repeat match goal with
         | |- context [String.eqb ?a ?b] => destruct (String.eqb_spec a b) as [->|_]
         end; intros [= <-]; reflexivity.
Qed.


End PredefinedFacts.

(** C7 (defect): [Base64] is a member of the enum and its name is found
    by the lookup in any casing, but [getPredefinedTypeString] has no
    case for it and throws, so rendering does not return the canonical
    name and lookup after rendering is not defined on [Base64]. *)
Theorem base64_lookup_succeeds_render_throws :
  SsPredefinedTypeUtil.getPredefinedTypeOrNull "Base64" = Some Base64
  /\ SsPredefinedTypeUtil.getPredefinedTypeOrNull "BASE64" = Some Base64
  /\ SsPredefinedTypeUtil.getPredefinedTypeString Base64
     = Throw "Invalid predefined type string".
Proof. repeat split; reflexivity. Qed.

(** ** Struct definitions *)

Section StructFacts.
Import SsStructDef.

Lemma addStructValue_eq (s : t) (v : SsStructValue.t) :
  addStructValue s v =
    if (0 <? List.length (_values s))%nat
       && (negb (SsStructValue.optional v)
           && match last (_values s) with
              | Some w => SsStructValue.optional w
              | None => false
              end)
    then Throw "Value is not optional but value before was optional"
    else Ok (mk (name s) (_values s ++ [v])).
Proof. destruct v; reflexivity. Qed.

Lemma trailingOptional_snoc (vs : list SsStructValue.t) (v : SsStructValue.t) :
  trailingOptional (vs ++ [v]) =
    trailingOptional vs
    && (SsStructValue.optional v || negb (existsb SsStructValue.optional vs)).
Proof.
  induction vs as [|w vs IH]; simpl.
  - destruct (SsStructValue.optional v); reflexivity.
  - rewrite IH, forallb_app; simpl.
    destruct (SsStructValue.optional w); simpl.
    + destruct (forallb SsStructValue.optional vs), (trailingOptional vs),
        (SsStructValue.optional v); simpl; try reflexivity.
    + reflexivity.
Qed.

Lemma hasOptional_existsb (s : t) :
  hasOptional s = existsb SsStructValue.optional (_values s).
Proof.
  unfold hasOptional. induction (_values s) as [|w vs IH]; simpl; [reflexivity|].
  destruct (SsStructValue.optional w); [reflexivity | apply IH].
Qed.

(** Under the rule, the last value is optional as soon as one is. *)
Lemma trailingOptional_last (vs : list SsStructValue.t) :
  trailingOptional vs = true ->
  existsb SsStructValue.optional vs = true ->
  exists w, last vs = Some w /\ SsStructValue.optional w = true.
Proof.
  induction vs as [|v vs IH]; simpl; [discriminate|].
  intros Ht He. apply andb_prop in Ht as [Hv Ht].
  destruct vs as [|v' vs'].
  - exists v. split; [reflexivity|]. simpl in He. now rewrite orb_false_r in He.
  - destruct (SsStructValue.optional v) eqn:Ev.
    + destruct (IH Ht) as (w & Hw & Ow); [|exists w; split; assumption].
      simpl in Hv. apply andb_prop in Hv as [Hv' _]. simpl. now rewrite Hv'.
    + simpl in He. destruct (IH Ht He) as (w & Hw & Ow). exists w; split; assumption.
Qed.

Lemma reachable_trailingOptional (s : t) :
  reachable s -> trailingOptional (_values s) = true.
Proof.
  induction 1 as [n | s s' v Hs IH Hadd]; [reflexivity|].
  rewrite addStructValue_eq in Hadd.
  destruct (_ && _) eqn:Hguard in Hadd; [discriminate|].
  injection Hadd as <-. simpl. rewrite trailingOptional_snoc, IH. simpl.
  destruct (SsStructValue.optional v) eqn:Ov; [reflexivity|]. simpl in *.
  destruct (existsb SsStructValue.optional (_values s)) eqn:He; [|reflexivity].
  destruct (trailingOptional_last _ IH He) as (w & Hw & Ow).
  rewrite Hw, Ow, andb_true_r in Hguard.
  destruct (_values s); [discriminate Hw | discriminate Hguard].
Qed.

Lemma addValues_required (s : t) (req : list SsStructValue.t) :
  hasOptional s = false ->
  Forall (fun v => SsStructValue.optional v = false) req ->
  addValues s req = Ok (mk (name s) (_values s ++ req)).
Proof.
  intros Hs Hreq. revert s Hs.
  induction Hreq as [|v req Hv _ IH]; intros s Hs; simpl.
  - rewrite app_nil_r. now destruct s.
  - unfold addValues; simpl. rewrite addStructValue_eq.
    assert (Hl : match last (_values s) with
                 | Some w => SsStructValue.optional w
                 | None => false
                 end = false).
    { rewrite hasOptional_existsb in Hs.
      destruct (last (_values s)) as [w|] eqn:Hw; [|reflexivity].
      apply last_Some in Hw as [l' Hl']. rewrite Hl', existsb_app in Hs. simpl in Hs.
      destruct (SsStructValue.optional w); [|reflexivity].
      now rewrite orb_true_r in Hs. }
    rewrite Hl, andb_false_r, andb_false_r. simpl.
    fold (addValues (mk (name s) (_values s ++ [v])) req).
    rewrite IH; simpl.
    + now rewrite <- app_assoc.
    + rewrite hasOptional_existsb in *. simpl. rewrite existsb_app, Hs. simpl.
      now rewrite Hv.
Qed.

Lemma addValues_optional (s : t) (opt : list SsStructValue.t) :
  Forall (fun v => SsStructValue.optional v = true) opt ->
  addValues s opt = Ok (mk (name s) (_values s ++ opt)).
Proof.
  intros Hopt. revert s.
  induction Hopt as [|v opt Hv _ IH]; intros s; simpl.
  - rewrite app_nil_r. now destruct s.
  - unfold addValues; simpl. rewrite addStructValue_eq, Hv. simpl.
    rewrite andb_false_r. simpl.
    fold (addValues (mk (name s) (_values s ++ [v])) opt).
    rewrite IH; simpl. now rewrite <- app_assoc.
Qed.

End StructFacts.

(** C4: in every state a struct definition can reach, the
    trailing-optional rule holds and adding a required value to a struct
    that contains an optional one throws; and on a new struct, adding
    any required values followed by any optional values succeeds and
    stores them in that order. *)
Theorem struct_trailing_optional_rule (s : SsStructDef.t) (name : string)
    (req opt : list SsStructValue.t) :
  SsStructDef.reachable s ->
  Forall (fun v => SsStructValue.optional v = false) req ->
  Forall (fun v => SsStructValue.optional v = true) opt ->
  SsStructDef.trailingOptional (SsStructDef._values s) = true
  /\ (forall v, SsStructDef.hasOptional s = true ->
                SsStructValue.optional v = false ->
                SsStructDef.addStructValue s v
                = Throw "Value is not optional but value before was optional")
  /\ SsStructDef.addValues (SsStructDef.new name) (req ++ opt)
     = Ok (SsStructDef.mk name (req ++ opt))
  /\ SsStructDef.reachable (SsStructDef.mk name (req ++ opt)).
Proof.
  intros Hs Hreq Hopt.
  pose proof (reachable_trailingOptional s Hs) as Ht.
  assert (Hrun : SsStructDef.addValues (SsStructDef.new name) (req ++ opt)
                 = Ok (SsStructDef.mk name (req ++ opt))).
  { unfold SsStructDef.addValues. rewrite forEach_app.
    fold (SsStructDef.addValues (SsStructDef.new name) req).
    rewrite addValues_required by (assumption || reflexivity). simpl.
    fold (SsStructDef.addValues (SsStructDef.mk name req) opt).
    now rewrite addValues_optional. }
  split; [exact Ht|]. split; [|split; [exact Hrun|]].
  - intros v Ho Hv. rewrite addStructValue_eq, Hv. simpl.
    rewrite hasOptional_existsb in Ho.
    destruct (trailingOptional_last _ Ht Ho) as (w & Hw & Ow). rewrite Hw, Ow.
    destruct (SsStructDef._values s); [discriminate Hw | reflexivity].
  - clear Hreq Hopt. revert Hrun. generalize (req ++ opt). intros vs.
    assert (Hgen : forall s0 s1, SsStructDef.reachable s0 ->
              SsStructDef.addValues s0 vs = Ok s1 -> SsStructDef.reachable s1).
    { induction vs as [|v vs IH]; intros s0 s1 H0; unfold SsStructDef.addValues; simpl.
      - now intros [= <-].
      - destruct (SsStructDef.addStructValue s0 v) as [s0'|] eqn:Hadd; simpl; [|discriminate].
        apply IH. eapply SsStructDef.reachable_addValue; eassumption. }
    intros Hrun. eapply Hgen; [apply SsStructDef.reachable_new | exact Hrun].
Qed.

Lemma struct_trailing_optional_rule_witness :
  SsStructDef.trailingOptional
    (SsStructDef._values struct_example) = true
  /\ (forall v, SsStructDef.hasOptional
                  struct_example = true ->
                SsStructValue.optional v = false ->
                SsStructDef.addStructValue
                  struct_example v
                = Throw "Value is not optional but value before was optional")
  /\ SsStructDef.addValues (SsStructDef.new "Point")
       ([struct_example_required] ++ [struct_example_optional])
     = Ok (SsStructDef.mk "Point" ([struct_example_required] ++ [struct_example_optional]))
  /\ SsStructDef.reachable
       (SsStructDef.mk "Point" ([struct_example_required] ++ [struct_example_optional])).
Proof.
  apply (struct_trailing_optional_rule
           struct_example
           "Point" [struct_example_required] [struct_example_optional]).
  - apply (SsStructDef.reachable_addValue
             (SsStructDef.mk "Point" [struct_example_required]) _ struct_example_optional);
      [|reflexivity].
    apply (SsStructDef.reachable_addValue
             (SsStructDef.new "Point") _ struct_example_required);
      [|reflexivity].
    apply SsStructDef.reachable_new.
  - repeat constructor.
  - repeat constructor.
Defined.

(** ** Attribute data types *)

(** A data type that was constructed has exactly one base kind, is
    array-nullable only as an array, and as an array of a struct has a
    struct without optional values. *)
Lemma attribute_data_type_new_ok p v s n r an (d : SsAttributeDataType.t) :
  SsAttributeDataType.new p v s n r an = Ok d ->
  d = SsAttributeDataType.mk p v s n r an
  /\ (an = true -> is_Some r)
  /\ (forall sd, s = Some sd -> is_Some r -> SsStructDef.hasOptional sd = false).
Proof.
  unfold SsAttributeDataType.new.
  destruct p, v, s as [sd|], r, an; simpl; try discriminate;
    try (destruct (SsStructDef.hasOptional sd) eqn:Ho; try discriminate);
    intros [= <-]; (split; [reflexivity|]); split;
    try (intros _; eexists; reflexivity); try discriminate;
    try (intros sd' [= <-] _; assumption);
    try (intros sd' _ [x Hx]; discriminate Hx);
    intros sd' Hsd; discriminate Hsd.
Qed.

(** C5: the constructor of [SsAttributeDataType] throws, and so returns
    no object, when [arrayNullable] is true and no array range is given,
    and when the base kind is a struct with an optional value and an
    array range is given. *)
Theorem attribute_data_type_invalid_combinations
    (predefinedType : option SsPredefinedType) (valueTypeDef : option SsValueTypeDef)
    (structDef : option SsStructDef.t) (nullable : bool)
    (arrayRange : option SsRange.t) (arrayNullable : bool) :
  (arrayRange = None /\ arrayNullable = true)
  \/ (exists sd, structDef = Some sd /\ SsStructDef.hasOptional sd = true /\ is_Some arrayRange) ->
  exists msg,
    SsAttributeDataType.new predefinedType valueTypeDef structDef nullable
      arrayRange arrayNullable = Throw msg.
Proof.
  intros Hbad.
  destruct (SsAttributeDataType.new predefinedType valueTypeDef structDef nullable
              arrayRange arrayNullable) as [d|msg] eqn:Hnew; [|eauto].
  apply attribute_data_type_new_ok in Hnew as (_ & Han & Hs).
  destruct Hbad as [[-> ->] | (sd & -> & Ho & Hr)].
  - destruct (Han eq_refl) as [x Hx]. discriminate Hx.
  - rewrite (Hs sd eq_refl Hr) in Ho. discriminate Ho.
Qed.

Lemma attribute_data_type_invalid_combinations_witness :
  (exists msg, SsAttributeDataType.new (Some Int) None None false None true = Throw msg)
  /\ (exists msg,
        SsAttributeDataType.new None None
          (Some struct_example)
          false (Some (SsRange.mk (Some (Num 2)) None)) false = Throw msg).
Proof.
  split.
  - apply (attribute_data_type_invalid_combinations (Some Int) None None false None true).
    left. split; reflexivity.
  - apply (attribute_data_type_invalid_combinations None None
             (Some struct_example)
             false (Some (SsRange.mk (Some (Num 2)) None)) false).
    right. eexists. split; [reflexivity|]. split; [reflexivity|]. eexists; reflexivity.
Defined.

(** ** The scoped registry *)

Section RegistryFacts.
Context {T : Type}.
Import SsDefinitionList.

Lemma JsMap_has_get (m : JsMap.t T) (key : string) :
  JsMap.has m key = bool_decide (is_Some (JsMap.get m key)).
Proof.
  unfold JsMap.has. destruct (JsMap.get m key); symmetry.
  - apply bool_decide_eq_true. eauto.
  - apply bool_decide_eq_false. intros [x Hx]. discriminate.
Qed.

Lemma JsMap_get_set_eq (m : JsMap.t T) (key : string) (v : T) :
  JsMap.get (JsMap.set m key v) key = Some v.
Proof.
  induction m as [|[k w] m IH]; simpl.
  - now rewrite String.eqb_refl.
  - destruct (String.eqb k key) eqn:E; simpl; rewrite E; [reflexivity | exact IH].
Qed.

Lemma JsMap_get_set_ne (m : JsMap.t T) (key key' : string) (v : T) :
  key <> key' -> JsMap.get (JsMap.set m key v) key' = JsMap.get m key'.
Proof.
  intros Hne. induction m as [|[k w] m IH]; simpl.
  - destruct (String.eqb_spec key key'); [contradiction | reflexivity].
  - destruct (String.eqb_spec k key) as [->|Hk]; simpl.
    + destruct (String.eqb_spec key key'); [contradiction | reflexivity].
    + destruct (String.eqb k key'); [reflexivity | exact IH].
Qed.

(** A key that is not in the map is appended: insertion order is
    declaration order. *)
Lemma JsMap_set_fresh (m : JsMap.t T) (key : string) (v : T) :
  JsMap.get m key = None -> JsMap.set m key v = m ++ [(key, v)].
Proof.
  induction m as [|[k w] m IH]; simpl; [reflexivity|].
  destruct (String.eqb k key); [discriminate|]. intros Hm. now rewrite IH.
Qed.

Lemma has_getOrNull (l : SsDefinitionList T) (name : string) :
  has l name = bool_decide (is_Some (getOrNull l name)).
Proof.
  revert l. fix IH 1. intros [m [p|] td sd]; simpl.
  - unfold JsMap.has. destruct (JsMap.get m name) as [x|].
    + symmetry. apply bool_decide_eq_true. eauto.
    + apply IH.
  - unfold JsMap.has. destruct (JsMap.get m name) as [x|]; symmetry.
    + apply bool_decide_eq_true. eauto.
    + apply bool_decide_eq_false. intros [x Hx]. discriminate.
Qed.

(** [add] throws exactly when the name is in the local map or the
    [newFunction] of the namespace throws. *)
Lemma add_throws_iff (newFunction : string -> result T) (l : SsDefinitionList T)
    (name : string) :
  throws (add newFunction l name)
  <-> JsMap.has (dl_map l) name = true \/ throws (newFunction name).
Proof.
  unfold add. destruct (JsMap.has (dl_map l) name); simpl.
  - split; [now left | trivial].
  - destruct (newFunction name); simpl; split; try tauto.
    intros [?|?]; [discriminate | assumption].
Qed.

Lemma addExisting_throws_iff (l : SsDefinitionList T) (name : string) (item : T) :
  throws (addExisting l name item) <-> JsMap.has (dl_map l) name = true.
Proof.
  unfold addExisting. destruct (JsMap.has (dl_map l) name); simpl; split;
    try tauto; discriminate.
Qed.

Lemma add_returns (newFunction : string -> result T) (l l' : SsDefinitionList T)
    (name : string) (item : T) :
  add newFunction l name = Ok (item, l') ->
  JsMap.has (dl_map l) name = false /\ newFunction name = Ok item
  /\ l' = setLocal l name item.
Proof.
  unfold add. destruct (JsMap.has (dl_map l) name); [discriminate|].
  destruct (newFunction name) as [i|]; simpl; [|discriminate].
  intros [= -> <-]. auto.
Qed.

Lemma addExisting_returns (l l' : SsDefinitionList T) (name : string) (item item' : T) :
  addExisting l name item = Ok (item', l') ->
  JsMap.has (dl_map l) name = false /\ item' = item /\ l' = setLocal l name item.
Proof.
  unfold addExisting. destruct (JsMap.has (dl_map l) name); [discriminate|].
  intros [= <- <-]. auto.
Qed.

(** What was added locally is what a lookup from this list returns,
    whatever the parent chain defines. *)
Lemma getOrNull_setLocal (l : SsDefinitionList T) (name : string) (item : T) :
  getOrNull (setLocal l name item) name = Some item
  /\ has (setLocal l name item) name = true
  /\ get (setLocal l name item) name = Ok item.
Proof.
  assert (H1 : getOrNull (setLocal l name item) name = Some item).
  { destruct l as [m p td sd]; simpl. now rewrite JsMap_get_set_eq. }
  split; [exact H1|]. split.
  - rewrite has_getOrNull, H1. apply bool_decide_eq_true. eauto.
  - unfold get. now rewrite H1.
Qed.

(** A lookup of a name that is not in the local map is the lookup in the
    parent list, and fails without a parent. *)
Lemma lookup_recurses (l : SsDefinitionList T) (name : string) :
  JsMap.has (dl_map l) name = false ->
  getOrNull l name = match dl_parentList l with
                     | Some p => getOrNull p name
                     | None => None
                     end
  /\ has l name = match dl_parentList l with
                  | Some p => has p name
                  | None => false
                  end.
Proof.
  intros Hl. destruct l as [m p td sd]; simpl in *. rewrite Hl.
  unfold JsMap.has in Hl. destruct (JsMap.get m name); [discriminate|].
  split; reflexivity.
Qed.

End RegistryFacts.

(** C9, as stated, fails in the value-type namespace: [add] of a name
    that is in no map throws there, because the [newFunction] of that
    namespace throws. *)
Lemma value_type_add_always_throws :
  JsMap.has (dl_map (SsDefinitions.valueTypeDefs (SsDefinitions.new None None))) "X" = false
  /\ SsDefinitions.addValueTypeDef (SsDefinitions.new None None) "X" = Throw "Not supported".
Proof. split; reflexivity. Qed.

(** C9 (amended): in the struct, attribute and element namespaces [add]
    throws exactly when the name is in the local map, and so does
    [addExisting] in every namespace (the value-type namespace is filled
    through it; its [add] always throws).  A definition in a parent
    scope never makes them throw.  After [X] was added to a nested list,
    a lookup of [X] from that list returns the added item, whatever the
    ancestors define.  A lookup of a name that is not in the local map
    is the lookup in the parent list. *)
Theorem registry_add_and_lookup (d : SsDefinitions) (name : string) :
  (throws (SsDefinitions.addStructDef d name)
     <-> JsMap.has (dl_map (SsDefinitions.structDefs d)) name = true)
  /\ (throws (SsDefinitions.addAttributeDef d name)
     <-> JsMap.has (dl_map (SsDefinitions.attributeDefs d)) name = true)
  /\ (throws (SsDefinitions.addElementDef d name)
     <-> JsMap.has (dl_map (SsDefinitions.elementDefs d)) name = true)
  /\ (forall item, throws (SsDefinitionList.addExisting (SsDefinitions.valueTypeDefs d) name item)
     <-> JsMap.has (dl_map (SsDefinitions.valueTypeDefs d)) name = true)
  /\ throws (SsDefinitions.addValueTypeDef d name)
  /\ (forall T newFunction (l l' : SsDefinitionList T) (item : T),
        (SsDefinitionList.add newFunction l name = Ok (item, l')
         \/ SsDefinitionList.addExisting l name item = Ok (item, l')) ->
        dl_parentList l' = dl_parentList l
        /\ SsDefinitionList.getOrNull l' name = Some item
        /\ SsDefinitionList.get l' name = Ok item
        /\ SsDefinitionList.has l' name = true)
  /\ (forall T (l : SsDefinitionList T),
        JsMap.has (dl_map l) name = false ->
        SsDefinitionList.getOrNull l name
          = match dl_parentList l with
            | Some p => SsDefinitionList.getOrNull p name
            | None => None
            end
        /\ SsDefinitionList.has l name
          = match dl_parentList l with
            | Some p => SsDefinitionList.has p name
            | None => false
            end).
Proof.
  split; [|split; [|split; [|split; [|split; [|split]]]]].
  1-3: unfold SsDefinitions.addStructDef, SsDefinitions.addAttributeDef,
         SsDefinitions.addElementDef; rewrite add_throws_iff; simpl; tauto.
  - intros item. apply addExisting_throws_iff.
  - unfold SsDefinitions.addValueTypeDef. apply add_throws_iff. right. exact I.
  - intros T newFunction l l' item H.
    assert (Hl : l' = SsDefinitionList.setLocal l name item).
    { destruct H as [H|H]; [eapply add_returns | eapply addExisting_returns]; exact H. }
    subst l'. split; [reflexivity|].
    destruct (getOrNull_setLocal l name item) as (H1 & H2 & H3). auto.
  - intros T l Hl. now apply lookup_recurses.
Qed.

Lemma registry_add_and_lookup_witness :
  (dl_parentList (SsDefinitionList.setLocal nested_list "X" inner_X) = Some outer_list
   /\ SsDefinitionList.getOrNull (SsDefinitionList.setLocal nested_list "X" inner_X) "X"
      = Some inner_X
   /\ SsDefinitionList.get (SsDefinitionList.setLocal nested_list "X" inner_X) "X"
      = Ok inner_X
   /\ SsDefinitionList.has (SsDefinitionList.setLocal nested_list "X" inner_X) "X" = true)
  /\ (SsDefinitionList.getOrNull nested_list "X"
        = SsDefinitionList.getOrNull outer_list "X"
      /\ SsDefinitionList.has nested_list "X" = SsDefinitionList.has outer_list "X").
Proof.
  destruct (registry_add_and_lookup (SsDefinitions.new None None) "X")
    as (_ & _ & _ & _ & _ & Hadded & Hrec).
  split.
  - apply (Hadded SsValueTypeDef SsDefinitions.newValueTypeDef nested_list
             (SsDefinitionList.setLocal nested_list "X" inner_X) inner_X).
    right. reflexivity.
  - apply (Hrec SsValueTypeDef nested_list). reflexivity.
Defined.

(** ** The arrays behind the [values] accessors *)

Section StoreFacts.
Context {A : Type}.
Implicit Types (h : Store.t A) (l : Store.loc) (xs : list A).

Lemma alloc_fresh h xs : h !! (Store.alloc h xs).1 = None.
Proof.
  unfold Store.alloc, Store.fresh; simpl.
  apply (not_elem_of_dom_1 (M := gmap positive)). apply is_fresh.
Qed.

Lemma read_alloc h xs :
  Store.read (Store.alloc h xs).2 (Store.alloc h xs).1 = xs.
Proof. unfold Store.alloc, Store.read; simpl. now rewrite lookup_insert_eq. Qed.

Lemma read_alloc_other h xs l :
  is_Some (h !! l) -> Store.read (Store.alloc h xs).2 l = Store.read h l.
Proof.
  intros [ys Hl]. unfold Store.read, Store.alloc; simpl.
  rewrite lookup_insert_ne; [reflexivity|].
  intros E. pose proof (alloc_fresh h xs) as Hf. unfold Store.alloc in Hf; simpl in Hf.
  rewrite E, Hl in Hf. discriminate.
Qed.

Lemma read_mutate_other h l l' f :
  l <> l' -> Store.read (Store.mutate h l f) l' = Store.read h l'.
Proof.
  intros Hne. unfold Store.read, Store.mutate.
  destruct (h !! l); [|reflexivity]. now rewrite lookup_insert_ne.
Qed.

Lemma read_mutate h l f :
  Store.read (Store.mutate h l f) l = match h !! l with
                                      | Some xs => f xs
                                      | None => []
                                      end.
Proof.
  unfold Store.read, Store.mutate. destruct (h !! l) eqn:E.
  - now rewrite lookup_insert_eq.
  - now rewrite E.
Qed.

Lemma lookup_mutate_is_Some h l l' f :
  is_Some (h !! l') -> is_Some (Store.mutate h l f !! l').
Proof.
  intros Hs. unfold Store.mutate. destruct (h !! l) eqn:E; [|exact Hs].
  destruct (decide (l = l')) as [->|Hne].
  - rewrite lookup_insert_eq. eauto.
  - now rewrite lookup_insert_ne.
Qed.

(** The copy is a new array with the contents of the copied one, and no
    mutation of the copy is seen through the copied one. *)
Lemma copy_is_independent h l xs f :
  h !! l = Some xs ->
  let c := Store.alloc h (Store.read h l) in
  c.1 <> l
  /\ Store.read c.2 c.1 = xs
  /\ Store.read c.2 l = xs
  /\ Store.read (Store.mutate c.2 c.1 f) c.1 = f xs
  /\ Store.read (Store.mutate c.2 c.1 f) l = xs
  /\ is_Some (Store.mutate c.2 c.1 f !! l).
Proof.
  intros Hl c. subst c.
  assert (Hr : Store.read h l = xs) by (unfold Store.read; now rewrite Hl).
  assert (Hne : (Store.alloc h (Store.read h l)).1 <> l).
  { intros E. pose proof (alloc_fresh h (Store.read h l)) as Hf.
    rewrite E, Hl in Hf. discriminate. }
  split; [exact Hne|]. split; [now rewrite read_alloc|].
  split; [rewrite read_alloc_other; eauto|].
  split.
  - rewrite read_mutate. unfold Store.alloc at 1 2; simpl.
    now rewrite lookup_insert_eq, Hr.
  - split.
    + rewrite read_mutate_other by exact Hne. rewrite read_alloc_other; eauto.
    + apply lookup_mutate_is_Some. unfold Store.alloc; simpl.
      rewrite lookup_insert_ne; [eauto|]. exact Hne.
Qed.

End StoreFacts.

(** C10: the array that [values] returns, for an enum type and for a
    struct, is a new array with the stored contents; after any mutation
    of the returned array the definition's own array is as before, so
    [values] returns the same contents again and [hasOptional] the same
    answer. *)
Theorem values_returns_independent_copy
    (e : SsEnumTypeDefObject.t) (he : Store.t string) (labels : list string)
    (fe : list string -> list string)
    (s : SsStructDefObject.t) (hs : Store.t SsStructValue.t)
    (vs : list SsStructValue.t)
    (fs : list SsStructValue.t -> list SsStructValue.t) :
  he !! SsEnumTypeDefObject._values e = Some labels ->
  hs !! SsStructDefObject._values s = Some vs ->
  (let r := SsEnumTypeDefObject.values e he in
   let he' := Store.mutate r.2 r.1 fe in
   let r' := SsEnumTypeDefObject.values e he' in
   r.1 <> SsEnumTypeDefObject._values e
   /\ Store.read r.2 r.1 = labels
   /\ Store.read he' r.1 = fe labels
   /\ Store.read he' (SsEnumTypeDefObject._values e) = labels
   /\ Store.read r'.2 r'.1 = labels)
  /\ (let r := SsStructDefObject.values s hs in
      let hs' := Store.mutate r.2 r.1 fs in
      let r' := SsStructDefObject.values s hs' in
      r.1 <> SsStructDefObject._values s
      /\ Store.read r.2 r.1 = vs
      /\ Store.read hs' r.1 = fs vs
      /\ Store.read hs' (SsStructDefObject._values s) = vs
      /\ Store.read r'.2 r'.1 = vs
      /\ SsStructDefObject.hasOptional s hs' = SsStructDefObject.hasOptional s hs).
Proof.
  intros He Hs. split.
  - destruct (copy_is_independent he _ labels fe He) as (H1 & H2 & H3 & H4 & H5 & H6).
    cbv zeta. unfold SsEnumTypeDefObject.values.
    repeat (split; [assumption|]).
    rewrite read_alloc. exact H5.
  - destruct (copy_is_independent hs _ vs fs Hs) as (H1 & H2 & H3 & H4 & H5 & H6).
    cbv zeta. unfold SsStructDefObject.values, SsStructDefObject.hasOptional.
    repeat (split; [assumption|]).
    split; [rewrite read_alloc; exact H5|].
    rewrite H5. unfold Store.read. now rewrite Hs.
Qed.

Lemma values_returns_independent_copy_witness :
  let e := SsEnumTypeDefObject.new "Color" 1%positive in
  let he : Store.t string := {[ 1%positive := ["Red"; "Green"; "Blue"] ]} in
  let s := SsStructDefObject.mk "Point" 1%positive in
  let hs : Store.t SsStructValue.t :=
    {[ 1%positive := [struct_example_required; struct_example_optional] ]} in
  (let r := SsEnumTypeDefObject.values e he in
   let he' := Store.mutate r.2 r.1 (fun xs => xs ++ ["Black"]) in
   let r' := SsEnumTypeDefObject.values e he' in
   r.1 <> SsEnumTypeDefObject._values e
   /\ Store.read r.2 r.1 = ["Red"; "Green"; "Blue"]
   /\ Store.read he' r.1 = ["Red"; "Green"; "Blue"] ++ ["Black"]
   /\ Store.read he' (SsEnumTypeDefObject._values e) = ["Red"; "Green"; "Blue"]
   /\ Store.read r'.2 r'.1 = ["Red"; "Green"; "Blue"])
  /\ (let r := SsStructDefObject.values s hs in
      let hs' := Store.mutate r.2 r.1 (fun _ => []) in
      let r' := SsStructDefObject.values s hs' in
      r.1 <> SsStructDefObject._values s
      /\ Store.read r.2 r.1 = [struct_example_required; struct_example_optional]
      /\ Store.read hs' r.1 = []
      /\ Store.read hs' (SsStructDefObject._values s)
         = [struct_example_required; struct_example_optional]
      /\ Store.read r'.2 r'.1 = [struct_example_required; struct_example_optional]
      /\ SsStructDefObject.hasOptional s hs' = SsStructDefObject.hasOptional s hs).
Proof.
  intros e he s hs.
  apply (values_returns_independent_copy e he ["Red"; "Green"; "Blue"]
           (fun xs => xs ++ ["Black"]) s hs
           [struct_example_required; struct_example_optional] (fun _ => [])).
  - reflexivity.
  - reflexivity.
Defined.

(** ** Strings and numbers *)

Lemma string_app_cons (c : ascii) (a b : string) :
  String c a +:+ b = String c (a +:+ b).
Proof. reflexivity. Qed.

Lemma string_app_length (a b : string) :
  String.length (a +:+ b) = (String.length a + String.length b)%nat.
Proof.
  induction a as [|c a IH]; [reflexivity|].
  rewrite string_app_cons. simpl. now rewrite IH.
Qed.

Lemma string_app_inj (a b c : string) : a +:+ b = a +:+ c -> b = c.
Proof.
  induction a as [|x a IH]; [trivial|].
  rewrite !string_app_cons. intros [= E]. auto.
Qed.

Lemma string_app_nil_r (a : string) : a +:+ EmptyString = a.
Proof.
  induction a as [|x a IH]; [reflexivity|].
  rewrite string_app_cons. now f_equal.
Qed.

Lemma string_app_assoc (a b c : string) : (a +:+ b) +:+ c = a +:+ b +:+ c.
Proof.
  induction a as [|x a IH]; [reflexivity|].
  rewrite !string_app_cons. now f_equal.
Qed.

Lemma to_int_not_nil (z : Z) :
  Z.to_int z <> Decimal.Pos Decimal.Nil /\ Z.to_int z <> Decimal.Neg Decimal.Nil.
Proof.
  destruct z as [|p|p]; simpl; split; try discriminate;
    intros [= E]; exact (DecimalPos.Unsigned.to_uint_nonnil p E).
Qed.

(** The decimal text of an integer determines it. *)
Lemma toString_inj (a b : Z) :
  Number.toString (Num a) = Number.toString (Num b) -> a = b.
Proof.
  unfold Number.toString. intros E. apply DecimalZ.to_int_inj.
  apply (f_equal NilZero.int_of_string) in E.
  destruct (to_int_not_nil a), (to_int_not_nil b).
  rewrite !NilZero.isi in E by assumption. now injection E.
Qed.

Lemma toString_nonempty (n : number) : Number.toString n <> EmptyString.
Proof.
  destruct n as [|z]; [discriminate|]. unfold Number.toString. intros E.
  apply (f_equal NilZero.int_of_string) in E.
  destruct (to_int_not_nil z). rewrite NilZero.isi in E by assumption. discriminate.
Qed.

Lemma arrayContains_true (xs : list string) (x : string) :
  Js.arrayContains xs x = true <-> x ∈ xs.
Proof.
  unfold Js.arrayContains. rewrite existsb_exists. split.
  - intros (y & Hy & E). apply String.eqb_eq in E. subst. now apply list_elem_of_In.
  - intros Hx. exists x. split; [now apply list_elem_of_In | apply String.eqb_refl].
Qed.

Lemma arrayContains_false (xs : list string) (x : string) :
  Js.arrayContains xs x = false <-> x ∉ xs.
Proof.
  rewrite <- arrayContains_true. destruct (Js.arrayContains xs x); split;
    congruence || (intros H; exfalso; now apply H).
Qed.

Lemma find_app_skip {A} (f : A -> bool) (xs ys : list A) :
  Forall (fun x => f x = false) xs -> List.find f (xs ++ ys) = List.find f ys.
Proof. induction 1 as [|x xs Hx _ IH]; simpl; [reflexivity | now rewrite Hx]. Qed.

Lemma find_all_false {A} (f : A -> bool) (xs : list A) :
  Forall (fun x => f x = false) xs -> List.find f xs = None.
Proof. induction 1 as [|x xs Hx _ IH]; simpl; [reflexivity | now rewrite Hx]. Qed.

Lemma take_seqZ (m n : Z) (k : nat) :
  Z.of_nat k <= n -> take k (seqZ m n) = seqZ m (Z.of_nat k).
Proof.
  intros Hk. replace n with (Z.of_nat k + (n - Z.of_nat k)) by lia.
  rewrite seqZ_app by lia. apply take_app_length'. rewrite length_seqZ. lia.
Qed.

(** ** The name allocator *)

Section AllocatorFacts.
Context {Obj : Type} `{Countable Obj} {Mapped : Type}.
Implicit Types (l : TsLookup.t Obj Mapped) (name n : string).
Import TsLookup.

Lemma suffixed_inj (N : string) (i j : Z) :
  TsLookup.suffixed N i = TsLookup.suffixed N j -> i = j.
Proof. unfold TsLookup.suffixed. intros E. apply string_app_inj in E. now apply toString_inj. Qed.

Lemma suffixed_ne (N : string) (i : Z) : TsLookup.suffixed N i <> N.
Proof.
  unfold TsLookup.suffixed. intros E.
  rewrite <- (string_app_nil_r N) in E at 2. apply string_app_inj in E.
  exact (toString_nonempty _ E).
Qed.

Lemma expectedNames_length (N : string) : List.length (expectedNames N) = 99%nat.
Proof. reflexivity. Qed.

Lemma expectedNames_NoDup (N : string) : NoDup (expectedNames N).
Proof.
  unfold expectedNames. apply NoDup_cons. split.
  - intros Hin. apply list_elem_of_fmap in Hin as (i & E & _).
    exact (suffixed_ne N i (eq_sym E)).
  - apply NoDup_fmap_2_strong; [|apply NoDup_seqZ]. intros i j _ _. apply suffixed_inj.
Qed.

(** After [k] of the names are taken, with [1 <= k], the suffixed
    candidates in use are those with a suffix up to [k]. *)
Lemma candidate_taken (N : string) (k : nat) (i : Z) :
  (1 <= k <= 99)%nat ->
  Js.arrayContains (take k (expectedNames N)) (TsLookup.suffixed N i)
  = bool_decide (2 <= i <= Z.of_nat k).
Proof.
  intros Hk. destruct k as [|k]; [lia|]. unfold expectedNames.
  rewrite firstn_cons, <- fmap_take, take_seqZ by lia.
  destruct (bool_decide (2 <= i <= Z.of_nat (S k))) eqn:E.
  - apply bool_decide_eq_true in E. apply arrayContains_true.
    apply elem_of_cons. right. apply list_elem_of_fmap. exists i. split; [reflexivity|].
    apply elem_of_seqZ. lia.
  - apply bool_decide_eq_false in E. apply arrayContains_false.
    intros Hin. apply elem_of_cons in Hin as [Hin|Hin].
    + exact (suffixed_ne N i Hin).
    + apply list_elem_of_fmap in Hin as (j & Ej & Hj). apply suffixed_inj in Ej.
      subst j. apply elem_of_seqZ in Hj. lia.
Qed.

Lemma firstFree_taken (N : string) (k : nat) :
  (1 <= k <= 99)%nat ->
  TsLookup.firstFree (take k (expectedNames N)) N
  = if decide (k < 99)%nat then Some (Z.of_nat k + 1) else None.
Proof.
  intros Hk. unfold TsLookup.firstFree.
  replace (seqZ 2 98) with (seqZ 2 (Z.of_nat k - 1) ++ seqZ (2 + (Z.of_nat k - 1)) (99 - Z.of_nat k))
    by (rewrite <- seqZ_app by lia; f_equal; lia).
  rewrite find_app_skip.
  - destruct (decide (k < 99)%nat) as [Hlt|Hge].
    + rewrite seqZ_cons by lia. simpl. rewrite candidate_taken by exact Hk.
      rewrite bool_decide_eq_false_2 by lia. simpl. f_equal. lia.
    + replace (99 - Z.of_nat k) with 0 by lia. reflexivity.
  - apply Forall_forall. intros i Hi. apply elem_of_seqZ in Hi.
    rewrite candidate_taken by exact Hk. rewrite bool_decide_eq_true_2 by lia. reflexivity.
Qed.

Lemma expectedNames_lookup (N : string) (k : nat) :
  (k < 99)%nat ->
  expectedNames N !! k
  = Some (if decide (k = 0)%nat then N else TsLookup.suffixed N (Z.of_nat k + 1)).
Proof.
  intros Hk. destruct k as [|k]; [reflexivity|]. unfold expectedNames.
  rewrite lookup_cons. cbv iota.
  rewrite list_lookup_fmap, lookup_seqZ_lt by lia.
  rewrite decide_False by lia. simpl. do 2 f_equal. lia.
Qed.

(** [generateName] in the state reached after [k] allocations of the
    base name. *)
Lemma generateName_after (l : TsLookup.t Obj Mapped) (name : string) (k : nat) :
  name <> EmptyString ->
  (k <= 99)%nat ->
  TsLookup.names l = take k (expectedNames (TsUtil.getIdentifier name (TsLookup.startUpperCase l))) ->
  TsLookup.generateName l name
  = match expectedNames (TsUtil.getIdentifier name (TsLookup.startUpperCase l)) !! k with
    | Some n => Ok n
    | None => Throw "Too many identical names"
    end.
Proof.
  intros Hname Hk Hnames. unfold TsLookup.generateName.
  destruct name as [|c name]; [contradiction|]. simpl String.length. simpl Nat.eqb.
  cbv iota. set (N := TsUtil.getIdentifier (String c name) (TsLookup.startUpperCase l)) in *.
  rewrite Hnames. destruct k as [|k].
  - reflexivity.
  - assert (Hin : Js.arrayContains (take (S k) (expectedNames N)) N = true).
    { apply arrayContains_true. unfold expectedNames. simpl. apply elem_of_cons. now left. }
    rewrite Hin. simpl negb. cbv iota.
    rewrite firstFree_taken by lia.
    destruct (decide (S k < 99)%nat) as [Hlt|Hge].
    + rewrite expectedNames_lookup by exact Hlt. simpl. reflexivity.
    + rewrite lookup_ge_None_2; [reflexivity|]. rewrite expectedNames_length. lia.
Qed.

(** [generateName] never returns a name in use, [add] of such a name
    succeeds and puts it last. *)
Lemma generateName_unused l name n :
  TsLookup.generateName l name = Ok n -> n ∉ TsLookup.names l.
Proof.
  unfold TsLookup.generateName.
  destruct (String.length name =? 0)%nat; [discriminate|].
  destruct (negb _) eqn:E.
  - intros [= <-]. apply arrayContains_false. now apply negb_true_iff in E.
  - destruct (TsLookup.firstFree _ _) as [i|] eqn:Hi; [|discriminate].
    intros [= <-]. apply find_some in Hi as [_ Hi].
    apply arrayContains_false. now apply negb_true_iff in Hi.
Qed.

Lemma allocate_returns l (source : Obj) name (mapped : Mapped) n l' :
  TsLookup.allocate l source name mapped = Ok (n, l') ->
  TsLookup.generateName l name = Ok n
  /\ (n ∉ TsLookup.names l)
  /\ TsLookup.names l' = TsLookup.names l ++ [n]
  /\ TsLookup.startUpperCase l' = TsLookup.startUpperCase l
  /\ TsLookup.getName l' source = Ok n.
Proof.
  unfold TsLookup.allocate.
  destruct (TsLookup.generateName l name) as [n0|] eqn:Hg; simpl; [|discriminate].
  pose proof (generateName_unused _ _ _ Hg) as Hn.
  unfold TsLookup.add. rewrite (proj2 (arrayContains_false _ _) Hn). simpl.
  intros [= <- <-]. simpl. repeat split; try assumption.
  unfold TsLookup.getName; simpl. now rewrite lookup_insert_eq.
Qed.

Lemma allocate_generated l (source : Obj) name (mapped : Mapped) n :
  TsLookup.generateName l name = Ok n ->
  exists l', TsLookup.allocate l source name mapped = Ok (n, l').
Proof.
  intros Hg. unfold TsLookup.allocate. rewrite Hg. simpl.
  pose proof (generateName_unused _ _ _ Hg) as Hn.
  unfold TsLookup.add. rewrite (proj2 (arrayContains_false _ _) Hn). simpl. eauto.
Qed.

(** In any allocator and for any base names, the names returned by a
    sequence of allocations are new and pairwise distinct. *)
Lemma allocateAll_distinct l (requests : list (Obj * string * Mapped)) ns l' :
  TsLookup.allocateAll l requests = Ok (ns, l') ->
  TsLookup.names l' = TsLookup.names l ++ ns
  /\ NoDup ns
  /\ (forall n, n ∈ ns -> n ∉ TsLookup.names l).
Proof.
  revert l ns l'. induction requests as [|[[source name] mapped] requests IH];
    intros l ns l'; simpl.
  - intros [= <- <-]. rewrite app_nil_r. repeat split; [constructor | intros n Hn; inversion Hn].
  - destruct (TsLookup.allocate l source name mapped) as [[n l1]|] eqn:Ha; simpl; [|discriminate].
    destruct (TsLookup.allocateAll l1 requests) as [[ns1 l2]|] eqn:Hr; simpl; [|discriminate].
    intros [= <- <-]. apply allocate_returns in Ha as (_ & Hn & Hnames & _).
    destruct (IH _ _ _ Hr) as (Hnames2 & Hnd & Hnew).
    rewrite Hnames2, Hnames, <- app_assoc. split; [reflexivity|]. split.
    + apply NoDup_cons. split; [|exact Hnd]. intros Hin. apply (Hnew _ Hin).
      rewrite Hnames. apply elem_of_app. right. now apply list_elem_of_singleton.
    + intros m Hm. apply elem_of_cons in Hm as [->|Hm]; [exact Hn|].
      intros Hl. apply (Hnew _ Hm). rewrite Hnames. apply elem_of_app. now left.
Qed.

(** A run of allocations of one base name, started after [k] of them. *)
Lemma allocateAll_sameBase l name (k : nat) (sources : list (Obj * Mapped)) :
  name <> EmptyString ->
  TsLookup.names l = take k (expectedNames (TsUtil.getIdentifier name (TsLookup.startUpperCase l))) ->
  (k <= 99)%nat ->
  if decide (k + List.length sources <= 99)%nat
  then exists l',
      TsLookup.allocateAll l (sameBase name sources)
      = Ok (take (List.length sources)
              (drop k (expectedNames (TsUtil.getIdentifier name (TsLookup.startUpperCase l)))), l')
  else TsLookup.allocateAll l (sameBase name sources) = Throw "Too many identical names".
Proof.
  intros Hname. revert l k. induction sources as [|[source mapped] sources IH];
    intros l k Hnames Hk; simpl.
  - rewrite decide_True by lia. eauto.
  - set (N := TsUtil.getIdentifier name (TsLookup.startUpperCase l)) in *.
    pose proof (generateName_after l name k Hname Hk Hnames) as Hg. fold N in Hg.
    destruct (decide (k < 99)%nat) as [Hlt|Hge].
    + destruct (lookup_lt_is_Some_2 (expectedNames N) k) as [n Hn];
        [rewrite expectedNames_length; exact Hlt|].
      rewrite Hn in Hg.
      destruct (allocate_generated l source name mapped n Hg) as [l1 Ha].
      rewrite Ha. simpl.
      apply allocate_returns in Ha as (_ & _ & Hnames1 & Hup & _).
      specialize (IH l1 (S k)). rewrite Hup in IH. fold N in IH.
      rewrite Hnames1, Hnames in IH. rewrite (take_S_r _ _ _ Hn) in IH.
      specialize (IH eq_refl ltac:(lia)).
      destruct (decide (S k + List.length sources <= 99)%nat) as [Hle|Hgt].
      * rewrite decide_True by lia. destruct IH as [l' ->]. simpl. exists l'.
        rewrite (drop_S _ _ _ Hn). reflexivity.
      * rewrite decide_False by lia. rewrite IH. reflexivity.
    + rewrite decide_False by lia.
      rewrite lookup_ge_None_2 in Hg by (rewrite expectedNames_length; lia).
      unfold TsLookup.allocate. rewrite Hg. reflexivity.
Qed.

Lemma find_fmap_eq {A B} (f : B -> bool) (g : A -> B) (xs : list A) :
  List.find f (g <$> xs) = g <$> List.find (fun x => f (g x)) xs.
Proof.
  induction xs as [|x xs IH]; simpl; [reflexivity|].
  destruct (f (g x)); [reflexivity | exact IH].
Qed.

(** In any state [generateName] returns the first of the candidates
    [N], [N2], ..., [N99] that is not in use, and throws when all are. *)
Lemma generateName_first_unused l name :
  name <> EmptyString ->
  TsLookup.generateName l name
  = match List.find (fun c => negb (Js.arrayContains (TsLookup.names l) c))
            (expectedNames (TsUtil.getIdentifier name (TsLookup.startUpperCase l))) with
    | Some c => Ok c
    | None => Throw "Too many identical names"
    end.
Proof.
  intros Hname. unfold TsLookup.generateName.
  destruct name as [|c name]; [contradiction|]. simpl String.length. simpl Nat.eqb.
  cbv iota. set (N := TsUtil.getIdentifier (String c name) (TsLookup.startUpperCase l)).
  unfold expectedNames. cbn [List.find].
  destruct (negb (Js.arrayContains (names l) N)); [reflexivity|].
  rewrite find_fmap_eq. unfold firstFree.
  destruct (List.find _ (seqZ 2 98)); reflexivity.
Qed.

Lemma generateName_candidate l name n :
  TsLookup.generateName l name = Ok n ->
  n ∈ expectedNames (TsUtil.getIdentifier name (TsLookup.startUpperCase l)).
Proof.
  intros Hg. destruct (String.eqb_spec name EmptyString) as [->|Hname]; [discriminate|].
  rewrite generateName_first_unused in Hg by exact Hname.
  destruct (List.find _ _) as [c|] eqn:Hf; [|discriminate].
  injection Hg as <-. apply find_some in Hf as [Hin _]. now apply list_elem_of_In.
Qed.

Lemma generateName_throws l name msg :
  name <> EmptyString ->
  TsLookup.generateName l name = Throw msg -> msg = "Too many identical names".
Proof.
  intros Hname. rewrite generateName_first_unused by exact Hname.
  destruct (List.find _ _); [discriminate | now intros [= <-]].
Qed.

Lemma allocateAll_sameBase_returns l name (sources : list (Obj * Mapped)) ns l' :
  TsLookup.allocateAll l (sameBase name sources) = Ok (ns, l') ->
  List.length ns = List.length sources
  /\ (forall n, n ∈ ns ->
        n ∈ expectedNames (TsUtil.getIdentifier name (TsLookup.startUpperCase l))).
Proof.
  revert l ns l'. induction sources as [|[source mapped] sources IH]; intros l ns l'; simpl.
  - intros [= <- <-]. split; [reflexivity | intros n Hn; inversion Hn].
  - destruct (TsLookup.allocate l source name mapped) as [[n l1]|] eqn:Ha; simpl; [|discriminate].
    destruct (TsLookup.allocateAll l1 _) as [[ns1 l2]|] eqn:Hr; simpl; [|discriminate].
    intros [= <- <-]. apply allocate_returns in Ha as (Hg & _ & _ & Hup & _).
    destruct (IH _ _ _ Hr) as [Hlen Hin]. rewrite Hup in Hin. split; [simpl; lia|].
    intros m Hm. apply elem_of_cons in Hm as [->|Hm]; [|now apply Hin].
    now apply generateName_candidate.
Qed.

Lemma allocateAll_sameBase_throws l name (sources : list (Obj * Mapped)) msg :
  name <> EmptyString ->
  TsLookup.allocateAll l (sameBase name sources) = Throw msg ->
  msg = "Too many identical names".
Proof.
  intros Hname. revert l. induction sources as [|[source mapped] sources IH]; intros l; simpl.
  - discriminate.
  - destruct (TsLookup.allocate l source name mapped) as [[n l1]|m] eqn:Ha; simpl.
    + destruct (TsLookup.allocateAll l1 _) as [[ns1 l2]|m] eqn:Hr; simpl; [discriminate|].
      intros [= <-]. eapply IH. exact Hr.
    + intros [= <-]. unfold TsLookup.allocate in Ha.
      destruct (TsLookup.generateName l name) as [n|m'] eqn:Hg; simpl in Ha.
      * destruct (allocate_generated l source name mapped n Hg) as [l1 Hl1].
        unfold TsLookup.allocate in Hl1. rewrite Hg in Hl1. simpl in Hl1.
        rewrite Hl1 in Ha. discriminate.
      * injection Ha as <-. eapply generateName_throws; eassumption.
Qed.

(** In any state, one hundred allocations of one base name cannot all
    succeed: only ninety-nine candidates exist. *)
Lemma allocateAll_hundred l name (sources : list (Obj * Mapped)) :
  name <> EmptyString ->
  (100 <= List.length sources)%nat ->
  TsLookup.allocateAll l (sameBase name sources) = Throw "Too many identical names".
Proof.
  intros Hname Hlen.
  destruct (TsLookup.allocateAll l (sameBase name sources)) as [[ns l']|msg] eqn:Hrun.
  - exfalso. destruct (allocateAll_sameBase_returns _ _ _ _ _ Hrun) as [Hl Hin].
    apply allocateAll_distinct in Hrun as (_ & Hnd & _).
    pose proof (submseteq_length _ _ (NoDup_submseteq _ _ Hnd Hin)) as Hle.
    rewrite expectedNames_length in Hle. lia.
  - f_equal. eapply allocateAll_sameBase_throws; eassumption.
Qed.

End AllocatorFacts.

(** C8: in a new allocator, allocations that share one (non-empty) base
    name return, in order, the normalized base name and then the base
    with the suffixes 2, 3, ..., 99; these are pairwise distinct, and
    the 100th allocation throws.  In an allocator in any state, a call
    returns the first candidate not in use, the returned name is none
    of the names registered before, and a sequence of one hundred
    allocations of the base name throws. *)
Theorem allocator_same_base_name {Obj : Type} `{Countable Obj} {Mapped : Type}
    (startUpperCase : bool) (name : string) (sources : list (Obj * Mapped)) :
  name <> EmptyString ->
  let N := TsUtil.getIdentifier name startUpperCase in
  let start : TsLookup.t Obj Mapped := TsLookup.new startUpperCase in
  ((List.length sources <= 99)%nat ->
     exists l', TsLookup.allocateAll start (TsLookup.sameBase name sources)
                = Ok (take (List.length sources) (TsLookup.expectedNames N), l')
                /\ TsLookup.names l' = take (List.length sources) (TsLookup.expectedNames N))
  /\ (forall l : TsLookup.t Obj Mapped,
        (100 <= List.length sources)%nat ->
        TsLookup.allocateAll l (TsLookup.sameBase name sources)
        = Throw "Too many identical names")
  /\ NoDup (TsLookup.expectedNames N)
  /\ TsLookup.expectedNames N = N :: ((fun i => N +:+ Number.toString (Num i)) <$> seqZ 2 98)
  /\ (forall l : TsLookup.t Obj Mapped,
        TsLookup.startUpperCase l = startUpperCase ->
        TsLookup.generateName l name
        = match List.find (fun c => negb (Js.arrayContains (TsLookup.names l) c))
                  (TsLookup.expectedNames N) with
          | Some c => Ok c
          | None => Throw "Too many identical names"
          end)
  /\ (forall (l l' : TsLookup.t Obj Mapped) source base mapped n,
        TsLookup.allocate l source base mapped = Ok (n, l') ->
        (n ∉ TsLookup.names l) /\ TsLookup.names l' = TsLookup.names l ++ [n]).
Proof.
  intros Hname N start.
  pose proof (allocateAll_sameBase start name 0 sources Hname eq_refl ltac:(lia)) as Hrun.
  simpl in Hrun. fold N in Hrun.
  split; [|split; [|split; [|split; [|split]]]].
  - intros Hle. rewrite decide_True in Hrun by exact Hle. destruct Hrun as [l' Hl'].
    exists l'. split; [exact Hl'|].
    apply allocateAll_distinct in Hl' as (Hn & _). exact Hn.
  - intros l Hge. now apply allocateAll_hundred.
  - apply expectedNames_NoDup.
  - reflexivity.
  - intros l Hup. subst N. rewrite <- Hup. now apply generateName_first_unused.
  - intros l l' source base mapped n Ha.
    apply allocate_returns in Ha as (_ & Hn & Hnames & _). auto.
Qed.

Lemma allocator_same_base_name_witness :
  exists l' : TsLookup.t nat unit,
    TsLookup.allocateAll (TsLookup.new true)
      (TsLookup.sameBase "point" [(1%nat, tt); (2%nat, tt); (3%nat, tt)])
    = Ok (["Point"; "Point2"; "Point3"], l').
Proof.
  destruct (allocator_same_base_name (Obj := nat) (Mapped := unit) true "point"
              [(1%nat, tt); (2%nat, tt); (3%nat, tt)]) as (Hrun & _).
  - discriminate.
  - destruct Hrun as (l' & Hl' & _).
    + simpl. lia.
    + exists l'. exact Hl'.
Defined.

(** ** The root element *)

Section RootFacts.
Import SmlSchema.

(** [setRootElementDefault] throws exactly when there are two or more
    top-level element definitions.  With exactly one, that element
    becomes the root; with none, the call returns and the root slot
    holds [undefined], which [getRootElement] then returns. *)
Lemma setRootElementDefault_cases (s : t) :
  match SsDefinitionList.values (SsDefinitions.elementDefs (definitions s)) with
  | [] => setRootElementDefault s = Ok (mk (definitions s) (Some Undefined))
  | [e] => setRootElementDefault s = Ok (mk (definitions s) (Some (Defined e)))
  | _ :: _ :: _ => throws (setRootElementDefault s)
  end.
Proof.
  unfold setRootElementDefault.
  destruct (SsDefinitionList.values _) as [|e [|e' es]]; simpl; trivial.
Qed.

(** [setRootElementByName] throws exactly when no top-level element
    definition has the name; otherwise the named element is the root. *)
Lemma setRootElementByName_cases (s : t) (name : string) :
  match SsDefinitionList.getOrNull (SsDefinitions.elementDefs (definitions s)) name with
  | Some e => setRootElementByName s name = Ok (mk (definitions s) (Some (Defined e)))
  | None => throws (setRootElementByName s name)
  end.
Proof.
  unfold setRootElementByName, SsDefinitionList.get.
  destruct (SsDefinitionList.getOrNull _ name); simpl; trivial.
Qed.

End RootFacts.

(** C2 (defect): loading a tree without any element definition and
    without a [RootElement] attribute does not fail.  [parse] returns a
    schema whose root slot holds [undefined], and [getRootElement]
    returns that [undefined] instead of throwing. *)
Theorem load_without_element_definitions_succeeds :
  (exists schema,
      SmlSchemaLoader.parse empty_schema_document = Ok schema
      /\ SsDefinitionList.values (SsDefinitions.elementDefs (SmlSchema.definitions schema)) = []
      /\ SmlSchema._rootElement schema = Some Undefined
      /\ SmlSchema.getRootElement schema = Ok Undefined)
  /\ (exists schema,
      SmlSchemaLoader.parse enum_only_document = Ok schema
      /\ SsDefinitionList.values (SsDefinitions.elementDefs (SmlSchema.definitions schema)) = []
      /\ SmlSchema._rootElement schema = Some Undefined
      /\ SmlSchema.getRootElement schema = Ok Undefined).
Proof. split; eexists; (split; [vm_compute; reflexivity|]); repeat split. Qed.

(** ** Serializing and loading again *)

Section ReloadFacts.
Import SmlSchemaSerializer.

Lemma allElements_addNode (e c : SmlElement) :
  SmlElement.allElements (SmlElement.addNode e c) = SmlElement.allElements e ++ [c].
Proof. unfold SmlElement.allElements, SmlElement.addNode. simpl. now rewrite omap_app. Qed.

Lemma allElements_addAttribute (e : SmlElement) (n : string) (vs : list string) :
  SmlElement.allElements (SmlElement.addAttribute e n vs) = SmlElement.allElements e.
Proof.
  unfold SmlElement.allElements, SmlElement.addAttribute. simpl.
  rewrite omap_app. simpl. apply app_nil_r.
Qed.

Lemma extends_refl (e : SmlElement) : extends e e [].
Proof. split; [reflexivity | now rewrite app_nil_r]. Qed.

Lemma extends_trans (e1 e2 e3 : SmlElement) (cs ds : list SmlElement) :
  extends e1 e2 cs -> extends e2 e3 ds -> extends e1 e3 (cs ++ ds).
Proof.
  intros [N1 A1] [N2 A2]. split; [congruence|]. now rewrite A2, A1, app_assoc.
Qed.

Lemma extends_addAttribute (e : SmlElement) (n : string) (vs : list string) :
  extends e (SmlElement.addAttribute e n vs) [].
Proof. split; [reflexivity|]. now rewrite allElements_addAttribute, app_nil_r. Qed.

Lemma extends_addNode (e c : SmlElement) : extends e (SmlElement.addNode e c) [c].
Proof. split; [reflexivity | apply allElements_addNode]. Qed.

(** A loop whose body appends [n] children of a kind appends
    [n] of them per item. *)
Lemma forEach_extends {A} (Q : SmlElement -> Prop) (n : nat) (xs : list A)
    (body : A -> SmlElement -> result SmlElement) (e e' : SmlElement) :
  (forall x s s', body x s = Ok s' ->
     exists cs, extends s s' cs /\ Forall Q cs /\ List.length cs = n) ->
  forEach xs body e = Ok e' ->
  exists cs, extends e e' cs /\ Forall Q cs /\ List.length cs = (List.length xs * n)%nat.
Proof.
  intros Hbody. revert e. induction xs as [|x xs IH]; intros e; simpl.
  - intros [= <-]. exists []. split; [apply extends_refl|]. split; [constructor | reflexivity].
  - destruct (body x e) as [s|] eqn:Hx; simpl; [|discriminate]. intros Hrest.
    destruct (Hbody _ _ _ Hx) as (cs & Hcs & Qcs & Lcs).
    destruct (IH _ Hrest) as (ds & Hds & Qds & Lds).
    exists (cs ++ ds). split; [eapply extends_trans; eassumption|].
    split; [now apply Forall_app|]. rewrite length_app. lia.
Qed.

Lemma serializeValueTypeDef_extends v s s' :
  serializeValueTypeDef v s = Ok s' ->
  exists cs, extends s s' cs /\ Forall serializedNode cs /\ List.length cs = 1%nat.
Proof.
  destruct v as [n vs|n|n]; simpl; try discriminate. intros [= <-].
  eexists. split; [apply extends_addNode|]. split; [|reflexivity].
  constructor; [|constructor]. unfold serializedNode. simpl. in_list.
Qed.

Lemma serializeStructDef_extends v s s' :
  serializeStructDef v s = Ok s' ->
  exists cs, extends s s' cs /\ Forall serializedNode cs /\ List.length cs = 1%nat.
Proof.
  unfold serializeStructDef.
  destruct (forEach _ _ _) as [c|] eqn:Hc; simpl; [|discriminate]. intros [= <-].
  exists [c]. split; [apply extends_addNode|]. split; [|reflexivity].
  constructor; [|constructor]. unfold serializedNode.
  apply (forEach_extends (fun _ => True) 0) in Hc as (cs & [Hname _] & _).
  - rewrite Hname. simpl. in_list.
  - intros x t t'. destruct (SsStructValue.getTypeString x); simpl; [|discriminate].
    intros [= <-]. exists []. split; [apply extends_addAttribute|]. split; [constructor | reflexivity].
Qed.

Lemma serializeAttributeDef_extends v s s' :
  serializeAttributeDef v s = Ok s' ->
  exists cs, extends s s' cs /\ Forall serializedNode cs /\ List.length cs = 1%nat.
Proof.
  unfold serializeAttributeDef.
  destruct (SsAttributeDef.dataType v ≫= SsAttributeDataType.toString) as [str|];
    simpl; [|discriminate].
  intros [= <-].
  eexists. split; [apply extends_addNode|]. split; [|reflexivity].
  constructor; [|constructor]. unfold serializedNode. simpl. in_list.
Qed.

Lemma serializeContent_name c s s' :
  serializeContent c s = Ok s' -> SmlElement.name s' = SmlElement.name s.
Proof.
  destruct c as [[els ats|]|]; simpl; try discriminate; [|now intros [= <-]].
  destruct (forEach _ serializeUnorderedAttribute s) as [s1|] eqn:H1; simpl; [|discriminate].
  intros H2.
  apply (forEach_extends (fun _ => True) 0) in H1 as (cs1 & [N1 _] & _).
  - apply (forEach_extends (fun _ => True) 0) in H2 as (cs2 & [N2 _] & _); [congruence|].
    intros x t t'. unfold serializeUnorderedElement.
    destruct (serializeOccurrence _); simpl; [|discriminate]. intros [= <-].
    exists []. split; [apply extends_addAttribute|]. split; [constructor | reflexivity].
  - intros x t t'. unfold serializeUnorderedAttribute.
    destruct (serializeOccurrence _); simpl; [|discriminate].
    destruct (if SsUnorderedAttribute.inline x then _ else _); simpl; [|discriminate].
    intros [= <-].
    exists []. split; [apply extends_addAttribute|]. split; [constructor | reflexivity].
Qed.

(** [serializeDefinitions] appends one child per local definition, each
    under one of the serializer's node names. *)
Lemma serializeDefinitions_extends (fuel : nat) (d : SsDefinitions) (s s' : SmlElement) :
  serializeDefinitions fuel d s = Ok s' ->
  exists cs, extends s s' cs /\ Forall serializedNode cs /\ List.length cs = localCount d.
Proof.
  revert d s s'. induction fuel as [|fuel IH]; intros d s s'; simpl; [discriminate|].
  destruct (forEach _ serializeValueTypeDef s) as [s1|] eqn:H1; simpl; [|discriminate].
  destruct (forEach _ serializeStructDef s1) as [s2|] eqn:H2; simpl; [|discriminate].
  destruct (forEach _ serializeAttributeDef s2) as [s3|] eqn:H3; simpl; [|discriminate].
  intros H4.
  apply (forEach_extends serializedNode 1) in H1 as (c1 & E1 & Q1 & L1);
    [|apply serializeValueTypeDef_extends].
  apply (forEach_extends serializedNode 1) in H2 as (c2 & E2 & Q2 & L2);
    [|apply serializeStructDef_extends].
  apply (forEach_extends serializedNode 1) in H3 as (c3 & E3 & Q3 & L3);
    [|apply serializeAttributeDef_extends].
  apply (forEach_extends serializedNode 1) in H4 as (c4 & E4 & Q4 & L4).
  - exists (((c1 ++ c2) ++ c3) ++ c4). split.
    + repeat (eapply extends_trans; [|eassumption]). exact E1.
    + split; [repeat (apply Forall_app; split); assumption|].
      rewrite !length_app. unfold localCount. lia.
  - intros x t t'.
    destruct (serializeDefinitions fuel _ _) as [t1|] eqn:Hd; simpl; [|discriminate].
    destruct (serializeContent _ t1) as [t2|] eqn:Hc; simpl; [|discriminate].
    intros [= <-]. exists [t2]. split; [apply extends_addNode|]. split; [|reflexivity].
    constructor; [|constructor]. unfold serializedNode.
    apply serializeContent_name in Hc. apply IH in Hd as (cs & [Hn _] & _).
    rewrite Hc, Hn. simpl. in_list.
Qed.

(** The root node of a serialized schema is named [Schema] and has one
    child element per top-level definition, each under one of the
    serializer's node names. *)
Lemma serialize_children (schema : SmlSchema.t) (doc : SmlDocument.t) :
  serialize schema = Ok doc ->
  SmlElement.name (SmlDocument.root doc) = "Schema"
  /\ Forall serializedNode (SmlElement.allElements (SmlDocument.root doc))
  /\ List.length (SmlElement.allElements (SmlDocument.root doc))
     = localCount (SmlSchema.definitions schema).
Proof.
  unfold serialize, serializeWith.
  destruct (serializeDefinitions _ _ _) as [s1|] eqn:H1; simpl; [|discriminate].
  apply serializeDefinitions_extends in H1 as (cs & [Hn Ha] & Q & L).
  simpl in Hn, Ha.
  assert (Hroot : forall s2, extends s1 s2 [] -> Ok (SmlDocument.mk s2) = Ok doc ->
            SmlElement.name (SmlDocument.root doc) = "Schema"
            /\ Forall serializedNode (SmlElement.allElements (SmlDocument.root doc))
            /\ List.length (SmlElement.allElements (SmlDocument.root doc))
               = localCount (SmlSchema.definitions schema)).
  { intros s2 [N2 A2] [= <-]. simpl. rewrite N2, A2, Ha, app_nil_r. auto. }
  destruct (1 <? _)%nat.
  - destruct (SmlSchema.getRootElement schema) as [[|e]|]; simpl; try discriminate.
    apply Hroot. apply extends_addAttribute.
  - simpl. apply Hroot. apply extends_refl.
Qed.

(** The loader rejects a [Schema] node that has a child under one of
    the serializer's node names. *)
Lemma parse_rejects_serialized_node (doc : SmlDocument.t) (c : SmlElement) :
  c ∈ SmlElement.allElements (SmlDocument.root doc) ->
  serializedNode c ->
  exists msg, SmlSchemaLoader.parse doc = Throw msg.
Proof.
  intros Hin Hc. unfold SmlSchemaLoader.parse.
  destruct (SmlElement.assureName _ _) as [[]|m]; simpl; [|eauto].
  unfold SmlElement.assureElementNames.
  destruct (List.find _ _) as [c'|] eqn:Hf; simpl; [eauto|].
  exfalso. pose proof (find_none _ _ Hf c (proj1 (list_elem_of_In _ _) Hin)) as Hn.
  simpl in Hn. unfold serializedNode, serializedNames in Hc.
  repeat (apply elem_of_cons in Hc as [E | Hc]; [rewrite E in Hn; discriminate Hn|]).
  inversion Hc.
Qed.

(** X15: whatever the schema, as soon as it has one top-level
    definition of any kind, the tree it serializes to is rejected by
    the loader. *)
Lemma serialized_schema_is_rejected (schema : SmlSchema.t) (doc : SmlDocument.t) :
  (0 < localCount (SmlSchema.definitions schema))%nat ->
  serialize schema = Ok doc ->
  exists msg, SmlSchemaLoader.parse doc = Throw msg.
Proof.
  intros Hpos Hs. apply serialize_children in Hs as (_ & Q & L).
  destruct (SmlElement.allElements (SmlDocument.root doc)) as [|c cs] eqn:E;
    [simpl in L; lia|].
  apply (parse_rejects_serialized_node doc c).
  - rewrite E. apply elem_of_cons. now left.
  - now inversion Q.
Qed.

End ReloadFacts.

(** C1 (defect): a schema built through the API, with one enum type or
    with one element of unordered content, serializes to a tree whose
    nodes are named [EnumTypeDef] and [ElementDef]; the loader accepts
    [EnumType], [Struct], [Attribute] and [Element] only and throws on
    that tree, so no model comes back.  Its four loops look for the
    accepted names and find none of the serialized definitions. *)
Theorem reload_of_serialized_schema_throws :
  (exists schema doc,
      color_schema = Ok schema
      /\ SmlSchemaSerializer.serialize schema = Ok doc
      /\ SmlElement.name <$> SmlElement.allElements (SmlDocument.root doc) = ["EnumTypeDef"]
      /\ SmlSchemaLoader.parse doc
         = Throw ("Could not parse schema because Error: Not allowed element with name "
                  +:+ Js.dq +:+ "EnumTypeDef" +:+ Js.dq +:+ " found in element "
                  +:+ Js.dq +:+ "Schema" +:+ Js.dq)
      /\ SmlSchemaLoader.loadDefinitions (SmlElement.height (SmlDocument.root doc))
           (SmlDocument.root doc) (SsDefinitions.new None None)
         = Ok (SsDefinitions.new None None))
  /\ (exists schema doc,
      person_schema = Ok schema
      /\ SmlSchemaSerializer.serialize schema = Ok doc
      /\ SmlElement.name <$> SmlElement.allElements (SmlDocument.root doc) = ["ElementDef"]
      /\ SmlSchemaLoader.parse doc
         = Throw ("Could not parse schema because Error: Not allowed element with name "
                  +:+ Js.dq +:+ "ElementDef" +:+ Js.dq +:+ " found in element "
                  +:+ Js.dq +:+ "Schema" +:+ Js.dq)
      /\ SmlSchemaLoader.loadDefinitions (SmlElement.height (SmlDocument.root doc))
           (SmlDocument.root doc) (SsDefinitions.new None None)
         = Ok (SsDefinitions.new None None)).
Proof.
  split; do 2 eexists; (split; [vm_compute; reflexivity|]);
    (split; [vm_compute; reflexivity|]); (split; [vm_compute; reflexivity|]);
    split; vm_compute; reflexivity.
Qed.

(** ** JavaScript string operations on concatenations *)

Section JsStringFacts.
Implicit Types (a b s t sub : string) (c x : ascii).

Lemma string_eqb_app_self a b : String.eqb (a +:+ b) b = true -> a = EmptyString.
Proof.
  intros E. apply String.eqb_eq in E.
  assert (L : String.length (a +:+ b) = String.length b) by now rewrite E.
  rewrite string_app_length in L. destruct a; [reflexivity | simpl in L; lia].
Qed.

Lemma endsWith_nil suffix :
  Js.endsWith EmptyString suffix = String.eqb EmptyString suffix.
Proof. simpl. apply orb_false_r. Qed.

Lemma endsWith_cons x s suffix :
  Js.endsWith (String x s) suffix = String.eqb (String x s) suffix || Js.endsWith s suffix.
Proof. reflexivity. Qed.

Lemma endsWith_iff s suffix : Js.endsWith s suffix = true <-> exists a, s = a +:+ suffix.
Proof.
  induction s as [|x s IH].
  - rewrite endsWith_nil, String.eqb_eq. split.
    + intros <-. now exists EmptyString.
    + intros [a Ha]. destruct a; [exact Ha | discriminate].
  - rewrite endsWith_cons, orb_true_iff, IH, String.eqb_eq. split.
    + intros [E|[a ->]].
      * exists EmptyString. exact E.
      * now exists (String x a).
    + intros [[|y a] Ha].
      * left. exact Ha.
      * right. rewrite string_app_cons in Ha. injection Ha as -> ->. now exists a.
Qed.

Lemma endsWith_app a b : Js.endsWith (a +:+ b) b = true.
Proof. apply endsWith_iff. now exists a. Qed.


Lemma string_length_zero s : String.length s = 0%nat -> s = EmptyString.
Proof. destruct s; [reflexivity | discriminate]. Qed.

Lemma string_app_inj_length a a' b b' :
  String.length a = String.length a' -> a +:+ b = a' +:+ b' -> a = a' /\ b = b'.
Proof.
  revert a'. induction a as [|x a IH]; intros [|y a'] L E; try discriminate.
  - auto.
  - rewrite !string_app_cons in E. injection E as -> E. injection L as L.
    destruct (IH _ L E) as [-> ->]. auto.
Qed.

Lemma string_app_inj_r a a' b : a +:+ b = a' +:+ b -> a = a'.
Proof.
  intros E. apply (string_app_inj_length a a' b b); [|exact E].
  apply (f_equal String.length) in E. rewrite !string_app_length in E. lia.
Qed.

Lemma string_snoc_inj a a' x y :
  a +:+ String x EmptyString = a' +:+ String y EmptyString -> a = a' /\ x = y.
Proof.
  intros E.
  assert (L : String.length a = String.length a').
  { apply (f_equal String.length) in E. rewrite !string_app_length in E. simpl in E. lia. }
  destruct (string_app_inj_length _ _ _ _ L E) as [-> E'].
  injection E' as ->. auto.
Qed.

(** The last character decides [endsWith] of a one-character suffix. *)
Lemma endsWith_snoc a x y :
  Js.endsWith (a +:+ String x EmptyString) (String y EmptyString) = Ascii.eqb x y.
Proof.
  destruct (Ascii.eqb_spec x y) as [->|Hne].
  - apply endsWith_app.
  - apply not_true_is_false. intros E. apply endsWith_iff in E as [a' E].
    apply string_snoc_inj in E as [_ E]. contradiction.
Qed.

Lemma endsWith_nil_false x : Js.endsWith EmptyString (String x EmptyString) = false.
Proof. reflexivity. Qed.

















End JsStringFacts.

(** ** Reading back the text of a number *)

Section NumberFacts.












End NumberFacts.

(** ** The round trip of data-type strings *)

Section DataTypeFacts.
Import DataTypeText SmlSchemaLoader.

Lemma loadDataType_stages (s : string) (definitions : SsDefinitions) :
  loadDataType s definitions
  = let '(an, s1) := stripArrayNullable s in
    '(r, s2) ← stripBounds s1;
    let '(nullable, t) := stripNullable s2 in
    resolve t nullable r an definitions.
Proof.
  unfold loadDataType, stripArrayNullable, stripBounds, stripNullable, resolve.
  destruct (Js.endsWith s "]?"); cbv zeta beta iota.
  - destruct (Js.endsWith _ "]"); [|reflexivity].
    destruct (_ <? 0); [reflexivity|].
    destruct (loadArrayBounds _); reflexivity.
  - destruct (Js.endsWith _ "]"); [|reflexivity].
    destruct (_ <? 0); [reflexivity|].
    destruct (loadArrayBounds _); reflexivity.
Qed.














(** The scopes the API builds register definitions under their names:
    a new scope does, a nested scope of such a scope does, and so does
    a scope after [addEnum] and after a struct was added or filled. *)
Lemma getOrNull_setLocal_cases {T} (l : SsDefinitionList T) (k t : string) (item v : T) :
  SsDefinitionList.getOrNull (SsDefinitionList.setLocal l k item) t = Some v ->
  (t = k /\ v = item) \/ SsDefinitionList.getOrNull l t = Some v.
Proof.
  destruct l as [m p td sd]. simpl. destruct (String.eqb_spec k t) as [->|Hne].
  - rewrite JsMap_get_set_eq. intros [= <-]. now left.
  - rewrite JsMap_get_set_ne by exact Hne. now right.
Qed.

Lemma wellKeyed_new (owner : option string) (parent : option SsDefinitions) :
  (forall d, parent = Some d -> wellKeyed d) -> wellKeyed (SsDefinitions.new owner parent).
Proof.
  intros Hp. destruct parent as [d|]; [destruct (Hp d eq_refl) as [Hv Hs]|];
    split; intros t x; simpl; try discriminate; [apply Hv | apply Hs].
Qed.

Lemma wellKeyed_addEnum (d d' : SsDefinitions) (name : string) (values : list string) :
  wellKeyed d -> SsDefinitions.addEnum d name values = Ok d' -> wellKeyed d'.
Proof.
  intros [Hv Hs]. unfold SsDefinitions.addEnum.
  destruct (SsDefinitionList.addExisting _ _ _) as [[i l]|] eqn:Ha;
    cbn [mbind result_bind]; [|discriminate].
  intros [= <-]. apply addExisting_returns in Ha as (_ & _ & ->).
  destruct d as [vt st at_ el ow]. split; simpl in *; [|exact Hs].
  intros t v Hg. apply getOrNull_setLocal_cases in Hg as [[-> ->]|Hg]; [reflexivity|].
  now apply Hv.
Qed.

Lemma wellKeyed_setStruct (d : SsDefinitions) (sd : SsStructDef.t) :
  wellKeyed d ->
  wellKeyed (SsDefinitions.setStructDefs d
               (SsDefinitionList.setLocal (SsDefinitions.structDefs d)
                  (SsStructDef.name sd) sd)).
Proof.
  intros [Hv Hs]. destruct d as [vt st at_ el ow]. split; simpl in *; [exact Hv|].
  intros t x Hg. apply getOrNull_setLocal_cases in Hg as [[-> ->]|Hg]; [reflexivity|].
  now apply Hs.
Qed.

(** The second way the round trip breaks: an array of the range
    [-1..-1] is accepted, rendered as the fixed size [-1], and that
    text is rejected. *)
Lemma negative_fixed_range_is_not_reparsed (definitions : SsDefinitions) :
  exists d, loadDataType "Int[-1..-1]" definitions = Ok d
            /\ SsAttributeDataType.toString d = Ok "Int[-1]"
            /\ loadDataType "Int[-1]" definitions = Throw "Invalid array size".
Proof. eexists. split; [reflexivity|]. split; reflexivity. Qed.

End DataTypeFacts.

(** ** Data-type strings *)

(** C3 (defect): the parser accepts [Base64], with or without
    nullability and bounds, in every scope; rendering the accepted data
    type throws, so there is no canonical text to parse again. *)
Theorem base64_data_type_is_accepted_and_not_rendered (definitions : SsDefinitions) :
  (exists d, SmlSchemaLoader.loadDataType "Base64" definitions = Ok d
             /\ d = SsAttributeDataType.mk (Some Base64) None None false None false
             /\ SsAttributeDataType.toString d = Throw "Invalid predefined type string")
  /\ (exists d, SmlSchemaLoader.loadDataType "base64?[2..N]?" definitions = Ok d
             /\ d = SsAttributeDataType.mk (Some Base64) None None true
                      (Some (SsRange.mk (Some (Num 2)) None)) true
             /\ SsAttributeDataType.toString d = Throw "Invalid predefined type string").
Proof. split; eexists; (split; [reflexivity|]); split; reflexivity. Qed.

(* ====================================================================== *)
(** * Part III: further properties *)
(* ====================================================================== *)

(** ** The data type of an attribute *)

(** ** The constructor of attribute data types, characterised *)

(** X1: the constructor returns exactly for one base kind, an array
    nullability only with a range, and no array of a struct with an
    optional value; the object then holds the arguments, and exactly
    one of [isPredefinedType], [isValueType], [isStruct] holds on it. *)
Theorem attribute_data_type_constructor_returns
    (p : option SsPredefinedType) (v : option SsValueTypeDef)
    (s : option SsStructDef.t) (n : bool) (r : option SsRange.t) (an : bool) :
  let valid :=
    ((is_Some p /\ v = None /\ s = None)
     \/ (p = None /\ is_Some v /\ s = None)
     \/ (p = None /\ v = None /\ is_Some s))
    /\ (an = true -> is_Some r)
    /\ (forall sd, s = Some sd -> is_Some r -> SsStructDef.hasOptional sd = false) in
  (valid ->
     SsAttributeDataType.new p v s n r an = Ok (SsAttributeDataType.mk p v s n r an))
  /\ (~ valid -> exists msg, SsAttributeDataType.new p v s n r an = Throw msg)
  /\ (forall d, SsAttributeDataType.new p v s n r an = Ok d ->
        valid
        /\ d = SsAttributeDataType.mk p v s n r an
        /\ (Nat.b2n (SsAttributeDataType.isPredefinedType d)
            + Nat.b2n (SsAttributeDataType.isValueType d)
            + Nat.b2n (SsAttributeDataType.isStruct d) = 1)%nat
        /\ (SsAttributeDataType.isArray d = true <-> is_Some r)).
Proof.
  intros valid.
  assert (Hok : forall d, SsAttributeDataType.new p v s n r an = Ok d ->
                  valid /\ d = SsAttributeDataType.mk p v s n r an).
  { intros d Hd. pose proof (attribute_data_type_new_ok _ _ _ _ _ _ _ Hd) as (-> & Han & Hs).
    split; [|reflexivity]. split; [|split; assumption].
    unfold SsAttributeDataType.new in Hd.
    destruct p, v, s; simpl in Hd; try discriminate;
      [left | right; left | right; right]; repeat split; eauto. }
  assert (Hvalid : valid ->
            SsAttributeDataType.new p v s n r an = Ok (SsAttributeDataType.mk p v s n r an)).
  { intros (Hkind & Han & Hs). unfold SsAttributeDataType.new.
    assert (Hr : negb (SsAttributeDataType.notNull r) && an = false).
    { destruct r; [reflexivity|]. destruct an; [|reflexivity].
      destruct (Han eq_refl) as [x Hx]. discriminate. }
    destruct Hkind as [([x ->] & -> & ->) | [(-> & [x ->] & ->) | (-> & -> & [x ->])]];
      simpl; rewrite ?Hr; try (destruct r; reflexivity).
    destruct r as [rr|]; [|reflexivity]. rewrite (Hs x eq_refl); eauto. }
  split; [exact Hvalid|]. split.
  - intros Hn. destruct (SsAttributeDataType.new p v s n r an) as [d|msg] eqn:Hd; [|eauto].
    exfalso. apply Hn. now destruct (Hok d eq_refl).
  - intros d Hd. destruct (Hok d Hd) as [Hv ->]. split; [exact Hv|]. split; [reflexivity|].
    destruct Hv as (Hkind & _ & _).
    unfold SsAttributeDataType.isPredefinedType, SsAttributeDataType.isValueType,
      SsAttributeDataType.isStruct, SsAttributeDataType.isArray. simpl. split.
    + destruct Hkind as [([x ->] & -> & ->) | [(-> & [x ->] & ->) | (-> & -> & [x ->])]];
        reflexivity.
    + apply bool_decide_eq_true.
Qed.

Lemma attribute_data_type_constructor_returns_witness :
  SsAttributeDataType.new (Some Int) None None true
    (Some (SsRange.mk (Some (Num 2)) None)) true
  = Ok (SsAttributeDataType.mk (Some Int) None None true
          (Some (SsRange.mk (Some (Num 2)) None)) true).
Proof.
  apply (attribute_data_type_constructor_returns (Some Int) None None true
           (Some (SsRange.mk (Some (Num 2)) None)) true).
  split; [left; repeat split; eauto|]. split; [eauto | discriminate].
Defined.

(** ** The write-once data type of an attribute definition *)

(** X2: a new attribute definition has no data type and reading it
    throws; the first assignment succeeds, keeps the name and is what is
    read afterwards; every further assignment throws. *)
Theorem attribute_def_data_type_is_write_once
    (name : string) (d d' : SsAttributeDataType.t) :
  SsAttributeDef.dataType (SsAttributeDef.new name) = Throw "Data type not set"
  /\ exists a,
      SsAttributeDef.setDataType (SsAttributeDef.new name) d = Ok a
      /\ SsAttributeDef.name a = name
      /\ SsAttributeDef.dataType a = Ok d
      /\ SsAttributeDef.setDataType a d' = Throw "Data type already set".
Proof. split; [reflexivity|]. eexists. repeat split. Qed.

(** ** Definition lists: order and lookups *)

Section MapFacts.
Context {T : Type}.

Lemma JsMap_values_set_fresh (m : JsMap.t T) (key : string) (v : T) :
  JsMap.get m key = None ->
  JsMap.values (JsMap.set m key v) = JsMap.values m ++ [v].
Proof.
  intros Hm. rewrite JsMap_set_fresh by exact Hm.
  unfold JsMap.values. now rewrite map_app.
Qed.

Lemma JsMap_has_false (m : JsMap.t T) (key : string) :
  JsMap.has m key = false <-> JsMap.get m key = None.
Proof. unfold JsMap.has. destruct (JsMap.get m key); split; congruence. Qed.

End MapFacts.

(** X3: a successful [add] or [addExisting] of [name] puts the item last
    in [values], leaves the parent as it was, and changes the lookup of
    no other name. *)
Theorem definition_list_add_frame {T} (newFunction : string -> result T)
    (l l' : SsDefinitionList T) (name other : string) (item : T) :
  SsDefinitionList.add newFunction l name = Ok (item, l')
  \/ SsDefinitionList.addExisting l name item = Ok (item, l') ->
  SsDefinitionList.values l' = SsDefinitionList.values l ++ [item]
  /\ dl_parentList l' = dl_parentList l
  /\ (other <> name ->
      SsDefinitionList.getOrNull l' other = SsDefinitionList.getOrNull l other
      /\ SsDefinitionList.has l' other = SsDefinitionList.has l other
      /\ SsDefinitionList.get l' other = SsDefinitionList.get l other).
Proof.
  intros Hadd.
  assert (Hl : JsMap.has (dl_map l) name = false /\ l' = SsDefinitionList.setLocal l name item).
  { destruct Hadd as [H|H].
    - apply add_returns in H as (H1 & _ & H2). auto.
    - apply addExisting_returns in H as (H1 & _ & H2). auto. }
  destruct Hl as [Hfresh ->]. apply JsMap_has_false in Hfresh.
  split; [|split; [reflexivity|]].
  - unfold SsDefinitionList.values. simpl.
    exact (JsMap_values_set_fresh (dl_map l) name item Hfresh).
  - intros Hne.
    assert (Hg : SsDefinitionList.getOrNull (SsDefinitionList.setLocal l name item) other
                 = SsDefinitionList.getOrNull l other).
    { destruct l as [m p td sd]. simpl. rewrite JsMap_get_set_ne by congruence. reflexivity. }
    split; [exact Hg|]. split.
    + now rewrite !has_getOrNull, Hg.
    + unfold SsDefinitionList.get. rewrite Hg.
      destruct l; reflexivity.
Qed.

Lemma definition_list_add_frame_witness :
  SsDefinitionList.values (SsDefinitionList.setLocal outer_list "Y" inner_X)
  = SsDefinitionList.values outer_list ++ [inner_X]
  /\ dl_parentList (SsDefinitionList.setLocal outer_list "Y" inner_X) = dl_parentList outer_list
  /\ ("X" <> "Y" ->
      SsDefinitionList.getOrNull (SsDefinitionList.setLocal outer_list "Y" inner_X) "X"
      = SsDefinitionList.getOrNull outer_list "X"
      /\ SsDefinitionList.has (SsDefinitionList.setLocal outer_list "Y" inner_X) "X"
         = SsDefinitionList.has outer_list "X"
      /\ SsDefinitionList.get (SsDefinitionList.setLocal outer_list "Y" inner_X) "X"
         = SsDefinitionList.get outer_list "X").
Proof.
  apply (definition_list_add_frame SsDefinitions.newValueTypeDef outer_list
           (SsDefinitionList.setLocal outer_list "Y" inner_X) "Y" "X" inner_X).
  right. reflexivity.
Defined.

(** X4: the three lookups of a list agree along the whole parent chain:
    [has] answers true exactly when [getOrNull] returns an item, [get]
    returns that item, and [get] throws the not-defined error exactly
    when [has] answers false. *)
Theorem definition_list_lookups_agree {T} (l : SsDefinitionList T) (name : string) :
  (SsDefinitionList.has l name = true
   <-> exists item, SsDefinitionList.getOrNull l name = Some item)
  /\ (forall item, SsDefinitionList.get l name = Ok item
                   <-> SsDefinitionList.getOrNull l name = Some item)
  /\ (SsDefinitionList.has l name = false
      <-> SsDefinitionList.get l name = Throw (SsDefinitionList.notDefined l name)).
Proof.
  rewrite has_getOrNull. unfold SsDefinitionList.get.
  destruct (SsDefinitionList.getOrNull l name) as [x|].
  - split; [split; [eauto | intros _; apply bool_decide_eq_true; eauto]|].
    split; [intros item; split; congruence|].
    split; [|discriminate]. intros Hf. apply bool_decide_eq_false in Hf.
    exfalso. apply Hf. eauto.
  - split; [split; [intros Ht; apply bool_decide_eq_true in Ht; exact Ht
                   | intros [i Hi]; discriminate]|].
    split; [intros item; split; discriminate|].
    split; [reflexivity|]. intros _. apply bool_decide_eq_false. intros [i Hi]. discriminate.
Qed.

(** ** Unordered content *)

(** X5: [addElement] on an element with unordered content succeeds
    exactly when the name is not yet among its unordered elements and an
    element definition of that name is visible from its scope; it then
    appends one reference with the given occurrence after the earlier
    ones and changes neither the attributes, the name nor the
    definitions.  Each of the two failures has its own message, and the
    duplicate is reported first. *)
Theorem add_unordered_element_cases (n : string) (defs : SsDefinitions)
    (els : JsMap.t SsUnorderedElement.t) (ats : JsMap.t SsUnorderedAttribute.t)
    (elementName : string) (occurrence : SsRange.t) :
  let e := mkElementDef n defs (Some (SsUnorderedContent els ats)) in
  let visible := SsDefinitionList.getOrNull (SsDefinitions.elementDefs defs) elementName in
  (JsMap.has els elementName = true ->
   SsUnorderedContent.addElement e elementName occurrence
   = Throw ("Element " +:+ Js.dq +:+ n +:+ Js.dq
            +:+ " already contains an unordered element with name "
            +:+ Js.dq +:+ elementName +:+ Js.dq))
  /\ (JsMap.has els elementName = false -> visible = None ->
      SsUnorderedContent.addElement e elementName occurrence
      = Throw (SsDefinitionList.notDefined (SsDefinitions.elementDefs defs) elementName))
  /\ (forall child, JsMap.has els elementName = false -> visible = Some child ->
      exists e' c, SsUnorderedContent.addElement e elementName occurrence = Ok e'
        /\ SsElementDef.content e' = Some c
        /\ SsUnorderedContent.unorderedElements c
           = JsMap.values els ++ [SsUnorderedElement.mk (SsElementDef.name child) occurrence]
        /\ SsUnorderedContent.unorderedAttributes c = JsMap.values ats
        /\ SsElementDef.name e' = n /\ SsElementDef.definitions e' = defs
        /\ SsElementDef.isUnordered e' = true).
Proof.
  intros e visible. unfold SsUnorderedContent.addElement. subst e visible. simpl.
  split; [intros ->; reflexivity|]. split.
  - intros -> Hv. unfold SsDefinitionList.get. rewrite Hv. reflexivity.
  - intros child Hf Hv. rewrite Hf. unfold SsDefinitionList.get. rewrite Hv.
    cbn [mbind result_bind]. eexists _, _. split; [reflexivity|].
    split; [reflexivity|]. simpl.
    apply JsMap_has_false in Hf.
    rewrite (JsMap_values_set_fresh els elementName
               (SsUnorderedElement.mk (SsElementDef.name child) occurrence) Hf). auto.
Qed.

Lemma add_unordered_element_cases_witness :
  exists e' c,
    SsUnorderedContent.addElement
      (mkElementDef "Parent"
         (SsDefinitions.setElementDefs (SsDefinitions.new None None)
            (SsDefinitionList.setLocal
               (SsDefinitions.elementDefs (SsDefinitions.new None None)) "Child"
               (SsElementDef.new "Child" (SsDefinitions.new None None))))
         (Some (SsUnorderedContent JsMap.empty JsMap.empty)))
      "Child" (SsRange.mk (Some (Num 1)) None) = Ok e'
    /\ SsElementDef.content e' = Some c
    /\ SsUnorderedContent.unorderedElements c
       = [SsUnorderedElement.mk "Child" (SsRange.mk (Some (Num 1)) None)].
Proof.
  destruct (proj2 (proj2 (add_unordered_element_cases "Parent"
              (SsDefinitions.setElementDefs (SsDefinitions.new None None)
                 (SsDefinitionList.setLocal
                    (SsDefinitions.elementDefs (SsDefinitions.new None None)) "Child"
                    (SsElementDef.new "Child" (SsDefinitions.new None None))))
              JsMap.empty JsMap.empty "Child" (SsRange.mk (Some (Num 1)) None)))
              (SsElementDef.new "Child" (SsDefinitions.new None None)) eq_refl eq_refl)
    as (e' & c & H1 & H2 & H3 & _).
  exists e', c. auto.
Defined.

(** X6: referenced and inline attributes share one set of names per
    element.  [addInlineAttribute] never looks a definition up: it
    succeeds whenever the name is free and marks the entry inline;
    [addAttribute] needs a visible attribute definition and marks the
    entry not inline.  After either has succeeded for a name, both throw
    the duplicate error for it. *)
Theorem unordered_attributes_share_names (n : string) (defs : SsDefinitions)
    (els : JsMap.t SsUnorderedElement.t) (ats : JsMap.t SsUnorderedAttribute.t)
    (a : SsAttributeDef.t) (occurrence occurrence' : SsRange.t) :
  let e := mkElementDef n defs (Some (SsUnorderedContent els ats)) in
  let name := SsAttributeDef.name a in
  let duplicate :=
    Throw ("Element " +:+ Js.dq +:+ n +:+ Js.dq
           +:+ " already contains an unordered attribute with name "
           +:+ Js.dq +:+ name +:+ Js.dq) in
  JsMap.has ats name = false ->
  (exists e' c, SsUnorderedContent.addInlineAttribute e a occurrence = Ok e'
     /\ SsElementDef.content e' = Some c
     /\ SsUnorderedContent.unorderedAttributes c
        = JsMap.values ats ++ [SsUnorderedAttribute.mk a occurrence true]
     /\ SsUnorderedContent.unorderedElements c = JsMap.values els
     /\ SsUnorderedContent.addInlineAttribute e' a occurrence' = duplicate
     /\ SsUnorderedContent.addAttribute e' name occurrence' = duplicate)
  /\ (forall e', SsUnorderedContent.addAttribute e name occurrence = Ok e' ->
      exists registered c,
        SsDefinitionList.getOrNull (SsDefinitions.attributeDefs defs) name = Some registered
        /\ SsElementDef.content e' = Some c
        /\ SsUnorderedContent.unorderedAttributes c
           = JsMap.values ats ++ [SsUnorderedAttribute.mk registered occurrence false]
        /\ SsUnorderedContent.unorderedElements c = JsMap.values els
        /\ SsUnorderedContent.addInlineAttribute e' a occurrence' = duplicate
        /\ SsUnorderedContent.addAttribute e' name occurrence' = duplicate)
  /\ (SsDefinitionList.getOrNull (SsDefinitions.attributeDefs defs) name = None ->
      SsUnorderedContent.addAttribute e name occurrence
      = Throw (SsDefinitionList.notDefined (SsDefinitions.attributeDefs defs) name)).
Proof.
  intros e name duplicate Hf. subst e duplicate.
  unfold SsUnorderedContent.addInlineAttribute, SsUnorderedContent.addAttribute.
  cbn [SsElementDef._content SsElementDef.name SsElementDef.definitions]. fold name. rewrite Hf.
  pose proof (proj1 (JsMap_has_false ats name) Hf) as Hg.
  assert (Hhas : forall v, JsMap.has (JsMap.set ats name v) name = true).
  { intros v. unfold JsMap.has. now rewrite JsMap_get_set_eq. }
  split; [|split].
  - eexists _, _. split; [reflexivity|]. split; [reflexivity|].
    cbn [SsUnorderedContent.unorderedAttributes SsUnorderedContent.unorderedElements
         SsElementDef.setContent SsElementDef._content SsElementDef.name].
    rewrite (JsMap_values_set_fresh ats name _ Hg), Hhas. auto.
  - intros e'. unfold SsDefinitionList.get.
    destruct (SsDefinitionList.getOrNull _ name) as [registered|]; [|discriminate].
    cbn [mbind result_bind]. intros [= <-]. eexists _, _. split; [reflexivity|].
    split; [reflexivity|].
    cbn [SsUnorderedContent.unorderedAttributes SsUnorderedContent.unorderedElements
         SsElementDef.setContent SsElementDef._content SsElementDef.name].
    rewrite (JsMap_values_set_fresh ats name _ Hg), Hhas. auto.
  - intros Hn. unfold SsDefinitionList.get. rewrite Hn. reflexivity.
Qed.

Lemma unordered_attributes_share_names_witness :
  exists e' c,
    SsUnorderedContent.addInlineAttribute
      (mkElementDef "Point" (SsDefinitions.new None None)
         (Some (SsUnorderedContent JsMap.empty JsMap.empty)))
      (SsAttributeDef.new "X") (SsRange.mk (Some (Num 1)) (Some (Num 1))) = Ok e'
    /\ SsElementDef.content e' = Some c
    /\ SsUnorderedContent.unorderedAttributes c
       = [SsUnorderedAttribute.mk (SsAttributeDef.new "X")
            (SsRange.mk (Some (Num 1)) (Some (Num 1))) true].
Proof.
  destruct (unordered_attributes_share_names "Point" (SsDefinitions.new None None)
              JsMap.empty JsMap.empty (SsAttributeDef.new "X")
              (SsRange.mk (Some (Num 1)) (Some (Num 1))) (SsRange.mk (Some (Num 0)) (Some (Num 1))) eq_refl)
    as [(e' & c & H1 & H2 & H3 & _) _].
  exists e', c. auto.
Defined.

(** ** Identifiers *)

Local Abbreviation firstCased b c := (if b then Js.upperChar c else Js.lowerChar c).

Section IdentifierFacts.

Lemma upperChar_idem (c : ascii) : Js.upperChar (Js.upperChar c) = Js.upperChar c.
Proof. destruct c as [[] [] [] [] [] [] [] []]; reflexivity. Qed.

Lemma lowerChar_idem (c : ascii) : Js.lowerChar (Js.lowerChar c) = Js.lowerChar c.
Proof. destruct c as [[] [] [] [] [] [] [] []]; reflexivity. Qed.


Lemma cased_parts (c : ascii) (r : string) (b : bool) :
  (if b then Js.toUpperCase (Js.substring (String c r) 0 1)
   else Js.toLowerCase (Js.substring (String c r) 0 1))
  +:+ Js.substringFrom (String c r) 1
  = String (firstCased b c) r.
Proof.
  assert (H1 : Js.substring (String c r) 0 1 = String c EmptyString).
  { unfold Js.substring, Js.clamp, Js.length. cbn [String.length].
    rewrite Nat2Z.inj_succ.
    replace (Z.to_nat (Z.min (Z.max 0 0) (Z.succ (Z.of_nat (String.length r))))) with 0%nat by lia.
    replace (Z.to_nat (Z.min (Z.max 1 0) (Z.succ (Z.of_nat (String.length r))))) with 1%nat by lia.
    simpl. now destruct r. }
  assert (H2 : Js.substringFrom (String c r) 1 = r).
  { unfold Js.substringFrom, Js.substring, Js.clamp, Js.length. cbn [String.length].
    rewrite Nat2Z.inj_succ.
    replace (Z.to_nat (Z.min (Z.max 1 0) (Z.succ (Z.of_nat (String.length r))))) with 1%nat by lia.
    replace (Z.to_nat (Z.min (Z.max (Z.succ (Z.of_nat (String.length r))) 0)
                          (Z.succ (Z.of_nat (String.length r)))))
      with (S (String.length r)) by lia.
    rewrite Nat.min_l, Nat.max_r by lia. simpl. rewrite Nat.sub_0_r.
    clear. induction r as [|x r IH]; [reflexivity|]. simpl. now rewrite IH. }
  rewrite H1, H2. destruct b; reflexivity.
Qed.

Lemma getIdentifier_cons (c : ascii) (r : string) (b : bool) :
  TsUtil.getIdentifier (String c r) b
  = if Js.arrayContains TsUtil.keywords (String (firstCased b c) r)
    then String "_" (String (firstCased b c) r) else String (firstCased b c) r.
Proof. unfold TsUtil.getIdentifier. rewrite cased_parts. reflexivity. Qed.

Lemma keyword_cases (s : string) :
  Js.arrayContains TsUtil.keywords s = true -> s = "public" \/ s = "internal".
Proof.
  unfold Js.arrayContains, TsUtil.keywords. simpl.
  destruct (String.eqb_spec s "public"); [auto|].
  destruct (String.eqb_spec s "internal"); [auto|]. discriminate.
Qed.

End IdentifierFacts.

(** X7: [getIdentifier] never returns one of the key words, returns its
    own results unchanged, keeps everything after the first character,
    and adds at most the one underscore; with an upper-case start it
    adds none. *)
Theorem identifier_is_never_a_keyword (str : string) (startUpperCase : bool) :
  let identifier := TsUtil.getIdentifier str startUpperCase in
  Js.arrayContains TsUtil.keywords identifier = false
  /\ TsUtil.getIdentifier identifier startUpperCase = identifier
  /\ (exists underscore, (underscore = EmptyString \/ underscore = "_")
        /\ (startUpperCase = true -> underscore = EmptyString)
        /\ identifier
           = underscore
             +:+ (if startUpperCase then Js.toUpperCase (Js.substring str 0 1)
                  else Js.toLowerCase (Js.substring str 0 1))
             +:+ Js.substringFrom str 1)
  /\ (identifier = EmptyString <-> str = EmptyString).
Proof.
  intros identifier. subst identifier. destruct str as [|c r].
  { destruct startUpperCase; (split; [reflexivity|]); (split; [reflexivity|]);
      (split; [|tauto]); exists EmptyString; auto. }
  pose proof (getIdentifier_cons c r startUpperCase) as Hc.
  pose proof (cased_parts c r startUpperCase) as Hparts.
  rewrite Hc.
  destruct (Js.arrayContains TsUtil.keywords (String (firstCased startUpperCase c) r)) eqn:E.
  - pose proof E as Ek. apply keyword_cases in Ek as [Ek|Ek]; rewrite Ek.
    + split; [reflexivity|]. split; [now destruct startUpperCase|]. split; [|split; discriminate].
      exists "_". split; [auto|]. split.
      * intros ->. exfalso. injection Ek as Ek _. destruct c as [[] [] [] [] [] [] [] []]; discriminate Ek.
      * rewrite Hparts, Ek. reflexivity.
    + split; [reflexivity|]. split; [now destruct startUpperCase|]. split; [|split; discriminate].
      exists "_". split; [auto|]. split.
      * intros ->. exfalso. injection Ek as Ek _. destruct c as [[] [] [] [] [] [] [] []]; discriminate Ek.
      * rewrite Hparts, Ek. reflexivity.
  - split; [exact E|]. split.
    + rewrite getIdentifier_cons.
      replace (firstCased startUpperCase (firstCased startUpperCase c))
        with (firstCased startUpperCase c)
        by (destruct startUpperCase; simpl; [now rewrite upperChar_idem | now rewrite lowerChar_idem]).
      now rewrite E.
    + split; [|split; discriminate]. exists EmptyString. split; [auto|]. split; [auto|].
      rewrite Hparts. reflexivity.
Qed.

(** ** The name allocator in general *)

(** X8: [add] throws exactly when the name is already in use.  When it
    returns, [get] and [getName] of the source return what was added,
    the name is appended to the names in use, and every other source is
    looked up as before.  A new allocator contains no source. *)
Theorem allocator_add_then_lookup {Obj : Type} `{Countable Obj} {Mapped : Type}
    (l : TsLookup.t Obj Mapped) (source other : Obj) (name : string) (mapped : Mapped)
    (startUpperCase : bool) :
  (name ∈ TsLookup.names l ->
   TsLookup.add l source name mapped = Throw "Already contains name")
  /\ (name ∉ TsLookup.names l ->
      exists l', TsLookup.add l source name mapped = Ok l'
        /\ TsLookup.get l' source = Ok mapped
        /\ TsLookup.getName l' source = Ok name
        /\ TsLookup.names l' = TsLookup.names l ++ [name]
        /\ (other <> source ->
            TsLookup.get l' other = TsLookup.get l other
            /\ TsLookup.getName l' other = TsLookup.getName l other))
  /\ TsLookup.get (TsLookup.new (Mapped := Mapped) startUpperCase) source
     = Throw "Does not contain source"
  /\ TsLookup.getName (TsLookup.new (Mapped := Mapped) startUpperCase) source
     = Throw "Does not contain source".
Proof.
  split; [|split; [|split; reflexivity]].
  - intros Hin. unfold TsLookup.add. now rewrite (proj2 (arrayContains_true _ _) Hin).
  - intros Hnin. unfold TsLookup.add. rewrite (proj2 (arrayContains_false _ _) Hnin).
    eexists. split; [reflexivity|]. unfold TsLookup.get, TsLookup.getName. simpl.
    rewrite !lookup_insert_eq. repeat split; try reflexivity.
    + rewrite lookup_insert_ne by congruence. reflexivity.
    + rewrite lookup_insert_ne by congruence. reflexivity.
Qed.

Lemma allocator_add_then_lookup_witness :
  exists l', TsLookup.add (TsLookup.new (Obj := nat) (Mapped := string) true) 1%nat "Point" "class Point"
             = Ok l'
    /\ TsLookup.get l' 1%nat = Ok "class Point"
    /\ TsLookup.getName l' 1%nat = Ok "Point".
Proof.
  destruct (allocator_add_then_lookup (TsLookup.new (Obj := nat) (Mapped := string) true)
              1%nat 2%nat "Point" "class Point" true) as (_ & Hadd & _).
  destruct Hadd as (l' & H1 & H2 & H3 & _).
  - intros Hin. inversion Hin.
  - exists l'. auto.
Defined.

(** X9: in every allocator a program can hold, the names in use are
    pairwise distinct, the name of every source is among them, no two
    sources have the same name, and [get] and [getName] know the same
    sources. *)
Theorem allocator_names_identify_sources {Obj : Type} `{Countable Obj} {Mapped : Type}
    (l : TsLookup.t Obj Mapped) :
  TsLookup.reachable l ->
  NoDup (TsLookup.names l)
  /\ (forall s n, TsLookup.getName l s = Ok n -> n ∈ TsLookup.names l)
  /\ (forall s1 s2 n, TsLookup.getName l s1 = Ok n -> TsLookup.getName l s2 = Ok n -> s1 = s2)
  /\ (forall s, (exists m, TsLookup.get l s = Ok m) <-> (exists n, TsLookup.getName l s = Ok n)).
Proof.
  induction 1 as [b | l source name mapped l' Hr (Hnd & Hin & Hinj & Hdom) Hadd].
  - split; [constructor|]. repeat split; try (intros; discriminate);
      intros [x Hx]; discriminate.
  - unfold TsLookup.add in Hadd.
    destruct (Js.arrayContains (TsLookup.names l) name) eqn:Hc; [discriminate|].
    apply arrayContains_false in Hc. injection Hadd as <-.
    assert (Hname : forall s n, TsLookup.getName
                      (TsLookup.mk (TsLookup.names l ++ [name])
                         (<[source := name]> (TsLookup.nameLookup l))
                         (<[source := mapped]> (TsLookup.lookup l))
                         (TsLookup.startUpperCase l)) s = Ok n ->
                    (s = source /\ n = name) \/ (s <> source /\ TsLookup.getName l s = Ok n)).
    { intros s n. unfold TsLookup.getName. simpl.
      destruct (decide (s = source)) as [->|Hne].
      - rewrite lookup_insert_eq. intros [= <-]. auto.
      - rewrite lookup_insert_ne by congruence. auto. }
    split; [|split; [|split]].
    + simpl. apply NoDup_app. split; [exact Hnd|]. split.
      * intros x Hx Hx'. apply list_elem_of_singleton in Hx'. congruence.
      * apply NoDup_singleton.
    + intros s n Hs. simpl. apply elem_of_app.
      destruct (Hname s n Hs) as [[_ ->]|[_ Hs']].
      * right. now apply list_elem_of_singleton.
      * left. eauto.
    + intros s1 s2 n H1 H2.
      destruct (Hname s1 n H1) as [[E1 N1]|[Hne1 H1']], (Hname s2 n H2) as [[E2 N2]|[Hne2 H2']].
      * congruence.
      * exfalso. apply Hc. subst n. eauto.
      * exfalso. apply Hc. subst n. eauto.
      * eauto.
    + intros s. unfold TsLookup.get, TsLookup.getName. simpl.
      destruct (decide (s = source)) as [->|Hne].
      * rewrite !lookup_insert_eq. split; eauto.
      * rewrite !lookup_insert_ne by congruence. apply Hdom.
Qed.

Lemma allocator_names_identify_sources_witness :
  NoDup (TsLookup.names
           (TsLookup.mk (Obj := nat) (Mapped := string) ["Point"] {[ 1%nat := "Point" ]}
              {[ 1%nat := "class Point" ]} true)).
Proof.
  apply (allocator_names_identify_sources
           (TsLookup.mk (Obj := nat) (Mapped := string) ["Point"] {[ 1%nat := "Point" ]}
              {[ 1%nat := "class Point" ]} true)).
  apply (TsLookup.reachable_add (TsLookup.new true) 1%nat "Point" "class Point").
  - apply TsLookup.reachable_new.
  - reflexivity.
Defined.

(** ** Occurrences *)



(** X11: [serializeOccurrence] returns a label exactly for the ranges
    1..1, 0..1, 1..N, 0..N and the range without bounds, and throws
    [Invalid occurrence] for every other range.  The loader reads the
    label back as the same range, except that 0..N comes back as the
    range without bounds; both serialize to [Repeated*]. *)
Theorem serialized_occurrence_loads_again (occurrence : SsRange.t) (name : string)
    (before : list string) :
  let sAttribute label := SmlAttribute.mk name (before ++ [label]) in
  let index := List.length before in
  (forall label,
     SmlSchemaSerializer.serializeOccurrence occurrence = Ok label ->
     exists occurrence',
       SmlSchemaLoader.getOccurrence (sAttribute label) index = Ok occurrence'
       /\ SmlSchemaSerializer.serializeOccurrence occurrence' = Ok label
       /\ (occurrence' = occurrence
           \/ (occurrence = SsRange.mk (Some (Num 0)) None
               /\ occurrence' = SsRange.mk None None)))
  /\ ((exists label, SmlSchemaSerializer.serializeOccurrence occurrence = Ok label)
      <-> occurrence ∈ [SsRange.mk (Some (Num 1)) (Some (Num 1));
                        SsRange.mk (Some (Num 0)) (Some (Num 1));
                        SsRange.mk (Some (Num 1)) None;
                        SsRange.mk (Some (Num 0)) None;
                        SsRange.mk None None])
  /\ ((forall label, SmlSchemaSerializer.serializeOccurrence occurrence <> Ok label)
      -> SmlSchemaSerializer.serializeOccurrence occurrence = Throw "Invalid occurrence").
Proof.
  intros sAttribute index.
  assert (Hget : forall label, SmlAttribute.getString (sAttribute label) index = Ok label).
  { intros label. unfold SmlAttribute.getString, sAttribute, index. simpl.
    rewrite lookup_app_r by lia. now rewrite Nat.sub_diag. }
  assert (Hcases : (exists label, SmlSchemaSerializer.serializeOccurrence occurrence = Ok label)
            -> (occurrence = SsRange.mk (Some (Num 1)) (Some (Num 1))
                \/ occurrence = SsRange.mk (Some (Num 0)) (Some (Num 1))
                \/ occurrence = SsRange.mk (Some (Num 1)) None
                \/ occurrence = SsRange.mk (Some (Num 0)) None
                \/ occurrence = SsRange.mk None None)).
  { intros [label Hl]. revert Hl. unfold SmlSchemaSerializer.serializeOccurrence.
    unfold SsRange.isRequired, SsRange.isOptional, SsRange.isRepeatedPlus,
      SsRange.isRepeatedStar.
    destruct occurrence as [[[|mn]|] [[|mx]|]];
      cbn [SsRange.min SsRange.max Number.strictEq andb];
      repeat match goal with
             | |- context [Z.eqb ?a ?b] => destruct (Z.eqb_spec a b); subst; cbn [andb]
             end;
      try discriminate; intros _; auto 10. }
  split; [|split].
  - intros label Hl. unfold SmlSchemaLoader.getOccurrence, SmlAttribute.getEnum.
    rewrite Hget. cbn [mbind result_bind].
    destruct (Hcases (ex_intro _ label Hl)) as [->|[->|[->|[->| ->]]]];
      injection Hl as <-; eexists; (split; [reflexivity|]); (split; [reflexivity|]); auto.
  - split; [intros Hl | intros Hin].
    + destruct (Hcases Hl) as [->|[->|[->|[->| ->]]]]; in_list.
    + repeat (apply elem_of_cons in Hin as [->|Hin]; [eexists; reflexivity|]). inversion Hin.
  - intros Hno. unfold SmlSchemaSerializer.serializeOccurrence in *.
    destruct (SsRange.isRequired occurrence); [now destruct (Hno "Required")|].
    destruct (SsRange.isOptional occurrence); [now destruct (Hno "Optional")|].
    destruct (SsRange.isRepeatedPlus occurrence); [now destruct (Hno "Repeated+")|].
    destruct (SsRange.isRepeatedStar occurrence); [now destruct (Hno "Repeated*")|].
    reflexivity.
Qed.

Lemma serialized_occurrence_loads_again_witness :
  exists occurrence',
    SmlSchemaLoader.getOccurrence (SmlAttribute.mk "Element" (["Point"] ++ ["Repeated*"])) 1
    = Ok occurrence'
    /\ SmlSchemaSerializer.serializeOccurrence occurrence' = Ok "Repeated*"
    /\ (occurrence' = SsRange.mk (Some (Num 0)) None
        \/ (SsRange.mk (Some (Num 0)) None = SsRange.mk (Some (Num 0)) None
            /\ occurrence' = SsRange.mk None None)).
Proof.
  apply (proj1 (serialized_occurrence_loads_again (SsRange.mk (Some (Num 0)) None)
                  "Element" ["Point"]) "Repeated*").
  reflexivity.
Defined.

(** ** Struct values *)

Section StructValueFacts.
Import DataTypeText.






End StructValueFacts.

(** ** Data types and schemas, rendered and loaded again *)


Lemma serialized_schema_is_rejected_witness :
  exists schema doc,
    color_schema = Ok schema
    /\ SmlSchemaSerializer.serialize schema = Ok doc
    /\ exists msg, SmlSchemaLoader.parse doc = Throw msg.
Proof.
  eexists _, _. split; [reflexivity|].
  match goal with
  | |- SmlSchemaSerializer.serialize ?schema = _ /\ _ =>
      split; [reflexivity
             | apply (serialized_schema_is_rejected schema); [vm_compute; lia | reflexivity]]
  end.
Defined.



(** ** The root of a serialized schema *)

Section RootAttributeFacts.
Import SmlSchemaSerializer.

Lemma forEach_preserves {A S B} (f : S -> B) (xs : list A)
    (body : A -> S -> result S) (s s' : S) :
  (forall x t t', body x t = Ok t' -> f t' = f t) ->
  forEach xs body s = Ok s' -> f s' = f s.
Proof.
  intros Hbody. revert s. induction xs as [|x xs IH]; intros s; simpl.
  - now intros [= <-].
  - destruct (body x s) as [t|] eqn:Hx; simpl; [|discriminate].
    intros Hrest. rewrite (IH _ Hrest). eauto.
Qed.

Lemma allAttributes_addNode (e c : SmlElement) :
  SmlElement.allAttributes (SmlElement.addNode e c) = SmlElement.allAttributes e.
Proof.
  unfold SmlElement.allAttributes, SmlElement.addNode. simpl.
  rewrite omap_app. simpl. apply app_nil_r.
Qed.

Lemma allAttributes_addAttribute (e : SmlElement) (n : string) (vs : list string) :
  SmlElement.allAttributes (SmlElement.addAttribute e n vs)
  = SmlElement.allAttributes e ++ [SmlAttribute.mk n vs].
Proof.
  unfold SmlElement.allAttributes, SmlElement.addAttribute. simpl. now rewrite omap_app.
Qed.

Lemma serializeDefinitions_attributes (fuel : nat) (d : SsDefinitions) (s s' : SmlElement) :
  serializeDefinitions fuel d s = Ok s' ->
  SmlElement.allAttributes s' = SmlElement.allAttributes s.
Proof.
  destruct fuel as [|fuel]; simpl; [discriminate|].
  destruct (forEach _ serializeValueTypeDef s) as [s1|] eqn:H1; simpl; [|discriminate].
  destruct (forEach _ serializeStructDef s1) as [s2|] eqn:H2; simpl; [|discriminate].
  destruct (forEach _ serializeAttributeDef s2) as [s3|] eqn:H3; simpl; [|discriminate].
  intros H4.
  apply (forEach_preserves SmlElement.allAttributes) in H1.
  2:{ intros x t t'. destruct x; simpl; try discriminate.
      intros [= <-]. apply allAttributes_addNode. }
  apply (forEach_preserves SmlElement.allAttributes) in H2.
  2:{ intros x t t'. unfold serializeStructDef.
      destruct (forEach (SsStructDef.values x) _ _); simpl; [|discriminate].
      intros [= <-]. apply allAttributes_addNode. }
  apply (forEach_preserves SmlElement.allAttributes) in H3.
  2:{ intros x t t'. unfold serializeAttributeDef.
      destruct (SsAttributeDef.dataType x ≫= SsAttributeDataType.toString);
        simpl; [|discriminate].
      intros [= <-]. apply allAttributes_addNode. }
  apply (forEach_preserves SmlElement.allAttributes) in H4.
  2:{ intros x t t'.
      destruct (serializeDefinitions fuel (SsElementDef.definitions x) _) as [t1|];
        simpl; [|discriminate].
      destruct (serializeContent _ t1) as [t2|]; simpl; [|discriminate].
      intros [= <-]. apply allAttributes_addNode. }
  congruence.
Qed.


(** X16: the root node of a serialized schema carries a [RootElement]
    attribute exactly when the schema has more than one top-level
    element definition; the attribute then holds the name of the root
    element, and the root has no other attribute.  With more than one
    top-level element definition and no root element set, [serialize]
    throws. *)
Theorem serialized_root_element_attribute (schema : SmlSchema.t) :
  let count :=
    List.length (SsDefinitionList.values
                   (SsDefinitions.elementDefs (SmlSchema.definitions schema))) in
  (forall doc, serialize schema = Ok doc ->
     SmlElement.allAttributes (SmlDocument.root doc)
     = if (1 <? count)%nat
       then match SmlSchema._rootElement schema with
            | Some (Defined e) => [SmlAttribute.mk "RootElement" [SsElementDef.name e]]
            | _ => []
            end
       else [])
  /\ ((1 < count)%nat ->
      (forall e, SmlSchema._rootElement schema <> Some (Defined e)) ->
      exists msg, serialize schema = Throw msg).
Proof.
  intros count. unfold serialize, serializeWith. fold count.
  destruct (serializeDefinitions _ _ _) as [s1|m] eqn:H1; cbn [mbind result_bind].
  2:{ split; [intros doc Hd; discriminate | eauto]. }
  apply serializeDefinitions_attributes in H1. simpl in H1.
  destruct (1 <? count)%nat eqn:Hc.
  - unfold SmlSchema.getRootElement.
    destruct (SmlSchema._rootElement schema) as [[|e]|]; cbn [mbind result_bind].
    + split; [intros doc Hd; discriminate | eauto].
    + split; [|intros _ Hno; now destruct (Hno e)].
      intros doc [= <-]. simpl. now rewrite allAttributes_addAttribute, H1.
    + split; [intros doc Hd; discriminate | eauto].
  - split; [intros doc [= <-]; exact H1|].
    intros Hlt. apply Nat.ltb_ge in Hc. lia.
Qed.

Lemma serialized_root_element_attribute_witness :
  exists schema doc,
    person_schema = Ok schema
    /\ serialize schema = Ok doc
    /\ SmlElement.allAttributes (SmlDocument.root doc) = [].
Proof.
  eexists _, _. split; [reflexivity|].
  match goal with
  | |- serialize ?schema = _ /\ _ =>
      split; [reflexivity
             | apply (proj1 (serialized_root_element_attribute schema)); reflexivity]
  end.
Defined.

End RootAttributeFacts.

(** ** What the loader returns *)

Section LoaderFacts.
Import SmlSchemaLoader.













End LoaderFacts.

(** ** The recursion of the loader and the serializer *)

Section FuelFacts.
Import SmlSchemaLoader.







End FuelFacts.

Section SerializerFuelFacts.
Import SmlSchemaSerializer.







End SerializerFuelFacts.

(** ** IndentedStringBuilder *)

Section BuilderFacts.
Import IndentedStringBuilder.

Lemma keepsShape_refl sb : keepsShape sb sb.
Proof.
  repeat split; try reflexivity. exists EmptyString. now rewrite string_app_nil_r.
Qed.

Lemma keepsShape_trans sb1 sb2 sb3 :
  keepsShape sb1 sb2 -> keepsShape sb2 sb3 -> keepsShape sb1 sb3.
Proof.
  intros (L1 & S1 & Y1 & [x1 T1]) (L2 & S2 & Y2 & [x2 T2]).
  split; [congruence|]. split; [congruence|]. split.
  - intros Hne. rewrite Y2, Y1; [reflexivity | exact Hne |].
    intros E. apply Hne. destruct (firstLineStack sb1); [reflexivity|].
    rewrite E in S1. discriminate S1.
  - exists (x1 +:+ x2). now rewrite T2, T1, string_app_assoc.
Qed.

Lemma setTop_shape sb b :
  indentationLevel (setTop sb b) = indentationLevel sb
  /\ List.length (firstLineStack (setTop sb b)) = List.length (firstLineStack sb)
  /\ (firstLineStack sb <> [] -> firstLineStray (setTop sb b) = firstLineStray sb)
  /\ text (setTop sb b) = text sb
  /\ lastWasEmpty (setTop sb b) = lastWasEmpty sb.
Proof.
  unfold setTop. destruct (firstLineStack sb) as [|x st] eqn:E; simpl.
  - repeat split; try reflexivity. intros Hne. now destruct Hne.
  - repeat split; try reflexivity. now rewrite length_insert.
Qed.

Lemma appendLine_returns sb line sb' :
  appendLine sb line = Ok sb' -> keepsShape sb sb'.
Proof.
  unfold appendLine.
  destruct ((String.length line =? 0)%nat && (lastWasEmpty sb || top sb)).
  { intros [= <-]. apply keepsShape_refl. }
  cbv zeta.
  set (sb1 := setTop (setLastWasEmpty sb (String.length line =? 0)%nat) false).
  destruct (setTop_shape (setLastWasEmpty sb (String.length line =? 0)%nat) false)
    as (L1 & S1 & Y1 & T1 & _). fold sb1 in L1, S1, Y1, T1. simpl in L1, S1, Y1, T1.
  set (sb2 := if negb (String.eqb (text sb1) EmptyString)
              then setText sb1 (text sb1 +:+ newline) else sb1).
  assert (H2 : indentationLevel sb2 = indentationLevel sb
               /\ firstLineStack sb2 = firstLineStack sb1
               /\ firstLineStray sb2 = firstLineStray sb1
               /\ exists x, text sb2 = text sb +:+ x).
  { subst sb2. destruct (negb _); simpl.
    - repeat split; try assumption. exists newline. now rewrite T1.
    - repeat split; try assumption. exists EmptyString. now rewrite string_app_nil_r. }
  destruct H2 as (L2 & S2 & Y2 & [x T2]). clearbody sb2. clearbody sb1.
  unfold Js.repeat. destruct (indentationLevel sb2 <? 0); [discriminate|].
  cbn [mbind result_bind]. intros [= <-]. unfold keepsShape, setText.
  cbn [indentationLevel firstLineStack firstLineStray text].
  split; [exact L2|]. split; [now rewrite S2|]. split; [intros Hne; rewrite Y2; auto|].
  eexists. rewrite T2, string_app_assoc. reflexivity.
Qed.

Lemma appendLine_total sb line :
  0 <= indentationLevel sb -> exists sb', appendLine sb line = Ok sb'.
Proof.
  intros Hl. unfold appendLine.
  destruct ((String.length line =? 0)%nat && (lastWasEmpty sb || top sb)); [eauto|].
  cbv zeta.
  set (sb1 := setTop (setLastWasEmpty sb (String.length line =? 0)%nat) false).
  destruct (setTop_shape (setLastWasEmpty sb (String.length line =? 0)%nat) false)
    as (L1 & _). fold sb1 in L1. simpl in L1.
  set (sb2 := if negb (String.eqb (text sb1) EmptyString)
              then setText sb1 (text sb1 +:+ newline) else sb1).
  assert (L2 : indentationLevel sb2 = indentationLevel sb)
    by (subst sb2; destruct (negb _); simpl; exact L1).
  unfold Js.repeat. rewrite L2.
  replace (indentationLevel sb <? 0) with false by (symmetry; apply Z.ltb_ge; exact Hl).
  cbn [mbind result_bind]. eauto.
Qed.

Lemma appendLines_returns sb lines sb' :
  appendLines sb lines = Ok sb' -> keepsShape sb sb'.
Proof.
  unfold appendLines. generalize (Js.splitAll lines newline). intros ls. revert sb.
  induction ls as [|l ls IH]; intros sb; simpl.
  - intros [= <-]. apply keepsShape_refl.
  - destruct (appendLine sb l) as [sb1|] eqn:H1; cbn [mbind result_bind]; [|discriminate].
    intros Hrest. apply (keepsShape_trans sb sb1 sb').
    + now apply appendLine_returns in H1.
    + now apply IH.
Qed.

Lemma appendLines_total sb lines :
  0 <= indentationLevel sb -> exists sb', appendLines sb lines = Ok sb'.
Proof.
  unfold appendLines. generalize (Js.splitAll lines newline). intros ls. revert sb.
  induction ls as [|l ls IH]; intros sb Hl; simpl; [eauto|].
  destruct (appendLine_total sb l Hl) as [sb1 H1]. rewrite H1. cbn [mbind result_bind].
  apply IH. apply appendLine_returns in H1 as (L1 & _). lia.
Qed.

Lemma balanced_keepsShape sb sb' : balanced sb -> keepsShape sb sb' -> balanced sb'.
Proof.
  intros (H0 & Hs & Hy) (L & S & Y & _). split; [lia|]. split; [lia|].
  rewrite Y; [exact Hy|]. intros E. rewrite E in Hs. simpl in Hs. lia.
Qed.

Lemma open_returns sb openingLine :
  balanced sb ->
  exists sb', open sb openingLine = Ok sb'
              /\ balanced sb' /\ indentationLevel sb' = indentationLevel sb + 1
              /\ top sb' = true
              /\ exists suffix, text sb' = text sb +:+ suffix.
Proof.
  intros Hb. unfold open.
  destruct (appendLine_total sb
              (openingLine +:+ (if String.eqb openingLine EmptyString then EmptyString else " ")
               +:+ openingString) (proj1 Hb)) as [sb1 H1].
  rewrite H1. cbn [mbind result_bind]. eexists. split; [reflexivity|].
  apply appendLine_returns in H1. pose proof (balanced_keepsShape _ _ Hb H1) as (B0 & Bs & By).
  destruct H1 as (L1 & S1 & Y1 & T1). simpl.
  split; [|split; [lia|split; [|exact T1]]].
  - split; simpl; [lia|]. split; [|exact By]. rewrite length_app. simpl. lia.
  - unfold top. simpl. now rewrite last_snoc.
Qed.

Lemma last_insert_last {A} (l : list A) (b : A) :
  l <> [] -> last (<[Nat.pred (List.length l) := b]> l) = Some b.
Proof.
  induction l as [|x l IH]; [contradiction|]. intros _.
  destruct l as [|y l]; [reflexivity|].
  change (<[Nat.pred (List.length (x :: y :: l)) := b]> (x :: y :: l))
    with (x :: <[Nat.pred (List.length (y :: l)) := b]> (y :: l)).
  rewrite last_cons, IH by discriminate. reflexivity.
Qed.

Lemma removelast_length {A} (l : list A) :
  List.length (removelast l) = Nat.pred (List.length l).
Proof. rewrite removelast_firstn_len, length_take. lia. Qed.

Lemma close_returns sb :
  balanced sb ->
  if indentationLevel sb =? 0 then close sb = Throw "Invalid close"
  else exists sb', close sb = Ok sb'
                   /\ balanced sb' /\ indentationLevel sb' = indentationLevel sb - 1
                   /\ exists suffix, text sb' = text sb +:+ suffix.
Proof.
  intros (H0 & Hs & Hy). unfold close.
  destruct (indentationLevel sb =? 0) eqn:E; [reflexivity|]. apply Z.eqb_neq in E.
  cbv zeta.
  set (sb0 := setLevel (setLastWasEmpty sb false) (indentationLevel (setLastWasEmpty sb false) - 1)).
  assert (Hl0 : 0 <= indentationLevel sb0) by (simpl; lia).
  destruct (appendLine_total sb0 closingString Hl0) as [sb1 H1].
  rewrite H1. cbn [mbind result_bind]. eexists. split; [reflexivity|].
  apply appendLine_returns in H1 as (L1 & S1 & Y1 & T1). simpl in *.
  assert (Hne : firstLineStack sb <> []) by (intros N; rewrite N in Hs; simpl in Hs; lia).
  split; [|split; [lia | exact T1]].
  split; simpl; [lia|]. split; [|rewrite Y1; auto].
  rewrite removelast_length, S1.
  destruct (firstLineStack sb); [now destruct Hne|]. simpl in *. lia.
Qed.

Lemma closeAndOpen_returns sb line :
  balanced sb ->
  if indentationLevel sb =? 0 then closeAndOpen sb line = Throw "Invalid close"
  else exists sb', closeAndOpen sb line = Ok sb'
                   /\ balanced sb' /\ indentationLevel sb' = indentationLevel sb
                   /\ top sb' = true
                   /\ exists suffix, text sb' = text sb +:+ suffix.
Proof.
  intros (H0 & Hs & Hy). unfold closeAndOpen.
  destruct (indentationLevel sb =? 0) eqn:E; [reflexivity|]. apply Z.eqb_neq in E.
  cbv zeta.
  set (sb0 := setLevel (setLastWasEmpty sb false) (indentationLevel (setLastWasEmpty sb false) - 1)).
  assert (Hl0 : 0 <= indentationLevel sb0) by (simpl; lia).
  destruct (appendLine_total sb0
              (closingString +:+ " " +:+ line +:+ " " +:+ openingString) Hl0) as [sb1 H1].
  rewrite H1. cbn [mbind result_bind]. eexists. split; [reflexivity|].
  apply appendLine_returns in H1 as (L1 & S1 & Y1 & T1). simpl in *.
  assert (Hne : firstLineStack sb <> []) by (intros N; rewrite N in Hs; simpl in Hs; lia).
  set (sb2 := setLevel sb1 (indentationLevel sb1 + 1)).
  destruct (setTop_shape sb2 true) as (L3 & S3 & Y3 & T3 & _). simpl in *.
  assert (Hne1 : firstLineStack sb1 <> []).
  { intros N. rewrite N in S1. destruct (firstLineStack sb); [now destruct Hne | discriminate S1]. }
  split; [|split; [lia|split; [|rewrite T3; exact T1]]].
  - split; [lia|]. split; [lia|]. rewrite Y3, Y1; auto.
  - unfold top, setTop. simpl.
    destruct (firstLineStack sb1) as [|x st] eqn:Est; [now destruct Hne1|].
    cbn [firstLineStack].
    change (List.length st) with (Nat.pred (List.length (x :: st))).
    now rewrite last_insert_last.
Qed.

Lemma runAll_balanced (calls : list call) (sb : t) :
  balanced sb ->
  match runAll calls sb with
  | Ok sb' =>
      closesMatch calls (indentationLevel sb) = true
      /\ indentationLevel sb' = finalLevel calls (indentationLevel sb)
      /\ balanced sb'
      /\ exists suffix, text sb' = text sb +:+ suffix
  | Throw msg => closesMatch calls (indentationLevel sb) = false /\ msg = "Invalid close"
  end.
Proof.
  revert sb. induction calls as [|c calls IH]; intros sb Hb.
  { simpl. repeat split; try apply Hb. exists EmptyString. now rewrite string_app_nil_r. }
  assert (Hstep : forall sb1 lv,
            run c sb = Ok sb1 -> balanced sb1 ->
            (exists suffix, text sb1 = text sb +:+ suffix) ->
            indentationLevel sb1 = lv ->
            match runAll (c :: calls) sb with
            | Ok sb' =>
                closesMatch calls lv = true
                /\ indentationLevel sb' = finalLevel calls lv
                /\ balanced sb'
                /\ exists suffix, text sb' = text sb +:+ suffix
            | Throw msg => closesMatch calls lv = false /\ msg = "Invalid close"
            end).
  { intros sb1 lv H1 B1 [x T1] <-. unfold runAll. simpl. rewrite H1. cbn [mbind result_bind].
    specialize (IH sb1 B1). unfold runAll in IH.
    destruct (forEach calls run sb1) as [sb'|msg]; [|exact IH].
    destruct IH as (C & L & B & [y T]). repeat split; try assumption; try apply B.
    exists (x +:+ y). now rewrite T, T1, string_app_assoc. }
  destruct c as [line|lines|openingLine| |line].
  - destruct (appendLine_total sb line (proj1 Hb)) as [sb1 H1].
    pose proof (appendLine_returns _ _ _ H1) as K.
    apply (Hstep sb1); [exact H1 | exact (balanced_keepsShape _ _ Hb K) | apply K | apply K].
  - destruct (appendLines_total sb lines (proj1 Hb)) as [sb1 H1].
    pose proof (appendLines_returns _ _ _ H1) as K.
    apply (Hstep sb1); [exact H1 | exact (balanced_keepsShape _ _ Hb K) | apply K | apply K].
  - destruct (open_returns sb openingLine Hb) as (sb1 & H1 & B1 & L1 & _ & T1).
    apply (Hstep sb1); assumption.
  - pose proof (close_returns sb Hb) as Hc. simpl closesMatch. simpl finalLevel.
    destruct (indentationLevel sb =? 0) eqn:E.
    + unfold runAll. simpl. rewrite Hc. simpl. auto.
    + destruct Hc as (sb1 & H1 & B1 & L1 & T1). simpl negb. rewrite andb_true_l.
      apply (Hstep sb1); assumption.
  - pose proof (closeAndOpen_returns sb line Hb) as Hc. simpl closesMatch. simpl finalLevel.
    destruct (indentationLevel sb =? 0) eqn:E.
    + unfold runAll. simpl. rewrite Hc. simpl. auto.
    + destruct Hc as (sb1 & H1 & B1 & L1 & _ & T1). simpl negb. rewrite andb_true_l.
      apply (Hstep sb1); assumption.
Qed.

End BuilderFacts.

(** X20: calls on a new builder throw exactly at the first [close] or
    [closeAndOpen] that has no open block to close, and then with
    [Invalid close]; no other call ever throws.  After calls that
    return, the indentation level is the number of blocks left open,
    and the stack of first-line flags has one entry per open block and
    one for the top level. *)
Theorem builder_throws_on_unmatched_close_only (calls : list IndentedStringBuilder.call) :
  match IndentedStringBuilder.runAll calls IndentedStringBuilder.new with
  | Ok sb =>
      IndentedStringBuilder.closesMatch calls 0 = true
      /\ IndentedStringBuilder.indentationLevel sb = IndentedStringBuilder.finalLevel calls 0
      /\ 0 <= IndentedStringBuilder.indentationLevel sb
      /\ Z.of_nat (List.length (IndentedStringBuilder.firstLineStack sb))
         = IndentedStringBuilder.indentationLevel sb + 1
  | Throw msg =>
      IndentedStringBuilder.closesMatch calls 0 = false /\ msg = "Invalid close"
  end.
Proof.
  pose proof (runAll_balanced calls IndentedStringBuilder.new) as H.
  destruct (IndentedStringBuilder.runAll calls IndentedStringBuilder.new) as [sb|msg].
  - destruct H as (C & L & (B0 & Bs & _) & _); [repeat split; reflexivity|]. auto.
  - apply H. repeat split; reflexivity.
Qed.

Section BuilderTextFacts.
Import IndentedStringBuilder.

Lemma run_extends (c : call) (sb sb' : t) :
  run c sb = Ok sb' -> exists suffix, text sb' = text sb +:+ suffix.
Proof.
  destruct c as [line|lines|openingLine| |line]; simpl.
  - intros H1. now apply appendLine_returns in H1 as (_ & _ & _ & T).
  - intros H1. now apply appendLines_returns in H1 as (_ & _ & _ & T).
  - unfold open. destruct (appendLine sb _) as [sb1|] eqn:H1; cbn [mbind result_bind];
      [|discriminate].
    intros [= <-]. now apply appendLine_returns in H1 as (_ & _ & _ & T).
  - unfold close. destruct (indentationLevel sb =? 0); [discriminate|]. cbv zeta.
    destruct (appendLine _ closingString) as [sb1|] eqn:H1; cbn [mbind result_bind];
      [|discriminate].
    intros [= <-]. now apply appendLine_returns in H1 as (_ & _ & _ & T).
  - unfold closeAndOpen. destruct (indentationLevel sb =? 0); [discriminate|]. cbv zeta.
    destruct (appendLine _ _) as [sb1|] eqn:H1; cbn [mbind result_bind]; [|discriminate].
    intros [= <-]. apply appendLine_returns in H1 as (_ & _ & _ & T).
    destruct (setTop_shape (setLevel sb1 (indentationLevel sb1 + 1)) true)
      as (_ & _ & _ & T3 & _).
    rewrite T3. exact T.
Qed.

Lemma appendLine_blank_again (sb sb1 : t) :
  appendLine sb EmptyString = Ok sb1 -> appendLine sb1 EmptyString = Ok sb1.
Proof.
  unfold appendLine. cbn [String.length Nat.eqb andb].
  destruct (lastWasEmpty sb || top sb) eqn:E.
  - intros [= <-]. now rewrite E.
  - cbv zeta. unfold Js.repeat.
    destruct (_ <? 0); cbn [mbind result_bind]; [discriminate|].
    intros [= <-].
    destruct (setTop_shape (setLastWasEmpty sb true) false) as (_ & _ & _ & _ & W).
    replace (lastWasEmpty (setText _ _)) with true; [reflexivity|].
    destruct (negb _); simpl; now rewrite W.
Qed.

End BuilderTextFacts.

(** X21: a builder emits no blank line at the start of the text, none
    directly after a blank line, and none as the first line of a block:
    [appendLine()] leaves the builder as it is on a new builder, after
    an [appendLine()], after [open] and after [closeAndOpen]. *)
Theorem builder_suppresses_blank_lines :
  IndentedStringBuilder.appendLine IndentedStringBuilder.new EmptyString
  = Ok IndentedStringBuilder.new
  /\ (forall sb sb1,
        IndentedStringBuilder.appendLine sb EmptyString = Ok sb1 ->
        IndentedStringBuilder.appendLine sb1 EmptyString = Ok sb1)
  /\ (forall sb openingLine sb1,
        IndentedStringBuilder.open sb openingLine = Ok sb1 ->
        IndentedStringBuilder.appendLine sb1 EmptyString = Ok sb1)
  /\ (forall sb line sb1,
        IndentedStringBuilder.closeAndOpen sb line = Ok sb1 ->
        IndentedStringBuilder.appendLine sb1 EmptyString = Ok sb1).
Proof.
  split; [reflexivity|]. split; [exact appendLine_blank_again|].
  assert (Htop : forall sb, IndentedStringBuilder.top sb = true ->
                   IndentedStringBuilder.appendLine sb EmptyString = Ok sb).
  { intros sb Ht. unfold IndentedStringBuilder.appendLine.
    cbn [String.length Nat.eqb andb]. now rewrite Ht, orb_true_r. }
  split.
  - intros sb openingLine sb1. unfold IndentedStringBuilder.open.
    destruct (IndentedStringBuilder.appendLine sb _) as [sb0|]; cbn [mbind result_bind];
      [|discriminate].
    intros [= <-]. apply Htop. unfold IndentedStringBuilder.top. simpl.
    now rewrite last_snoc.
  - intros sb line sb1. unfold IndentedStringBuilder.closeAndOpen.
    destruct (IndentedStringBuilder.indentationLevel sb =? 0); [discriminate|]. cbv zeta.
    destruct (IndentedStringBuilder.appendLine _ _) as [sb0|]; cbn [mbind result_bind];
      [|discriminate].
    intros [= <-]. apply Htop. unfold IndentedStringBuilder.top, IndentedStringBuilder.setTop.
    simpl. destruct (IndentedStringBuilder.firstLineStack sb0) as [|x st] eqn:Est;
      [reflexivity|].
    cbn [IndentedStringBuilder.firstLineStack].
    change (List.length st) with (Nat.pred (List.length (x :: st))).
    now rewrite last_insert_last.
Qed.

(** X22: a builder never changes what it has emitted: after any calls
    that return, in any state, the text is the text before followed by
    what the calls appended. *)
Theorem builder_text_only_grows (calls : list IndentedStringBuilder.call)
    (sb sb' : IndentedStringBuilder.t) :
  IndentedStringBuilder.runAll calls sb = Ok sb' ->
  exists suffix,
    IndentedStringBuilder.toString sb' = IndentedStringBuilder.toString sb +:+ suffix.
Proof.
  unfold IndentedStringBuilder.runAll, IndentedStringBuilder.toString.
  revert sb. induction calls as [|c calls IH]; intros sb; simpl.
  - intros [= <-]. exists EmptyString. now rewrite string_app_nil_r.
  - destruct (IndentedStringBuilder.run c sb) as [sb1|] eqn:H1; cbn [mbind result_bind];
      [|discriminate].
    intros Hrest. apply run_extends in H1 as [x T1]. apply IH in Hrest as [y T].
    exists (x +:+ y). now rewrite T, T1, string_app_assoc.
Qed.

Lemma builder_text_only_grows_witness :
  exists suffix,
    IndentedStringBuilder.toString
      (IndentedStringBuilder.mk
         ("class A {" +:+ IndentedStringBuilder.newline +:+ IndentedStringBuilder.tab +:+ "x: number"
          +:+ IndentedStringBuilder.newline +:+ "}")
         0 [false] None false)
    = IndentedStringBuilder.toString IndentedStringBuilder.new +:+ suffix.
Proof.
  apply (builder_text_only_grows
           [IndentedStringBuilder.Open "class A"; IndentedStringBuilder.AppendLine "x: number";
            IndentedStringBuilder.Close]).
  reflexivity.
Defined.

(** ** TsDocument *)

Section DocumentFacts.
Import IndentedStringBuilder.

Lemma returnsLevel_appendLine line : returnsLevel (fun sb => appendLine sb line).
Proof.
  intros sb Hb. destruct (appendLine_total sb line (proj1 Hb)) as [sb1 H1].
  exists sb1. split; [exact H1|]. apply appendLine_returns in H1.
  split; [exact (balanced_keepsShape _ _ Hb H1)|]. split; apply H1.
Qed.

Lemma returnsLevel_appendLines lines : returnsLevel (fun sb => appendLines sb lines).
Proof.
  intros sb Hb. destruct (appendLines_total sb lines (proj1 Hb)) as [sb1 H1].
  exists sb1. split; [exact H1|]. apply appendLines_returns in H1.
  split; [exact (balanced_keepsShape _ _ Hb H1)|]. split; apply H1.
Qed.

Lemma returnsLevel_bind (f g : t -> result t) :
  returnsLevel f -> returnsLevel g -> returnsLevel (fun sb => sb1 ← f sb; g sb1).
Proof.
  intros Hf Hg sb Hb. destruct (Hf sb Hb) as (sb1 & H1 & B1 & L1 & [x T1]).
  destruct (Hg sb1 B1) as (sb2 & H2 & B2 & L2 & [y T2]).
  exists sb2. rewrite H1. cbn [mbind result_bind]. split; [exact H2|].
  split; [exact B2|]. split; [congruence|].
  exists (x +:+ y). now rewrite T2, T1, string_app_assoc.
Qed.

Lemma returnsLevel_forEach {A} (xs : list A) (body : A -> t -> result t) :
  (forall x, returnsLevel (body x)) -> returnsLevel (forEach xs body).
Proof.
  intros Hbody. induction xs as [|x xs IH]; intros sb Hb; simpl.
  - exists sb. repeat split; try apply Hb. exists EmptyString. now rewrite string_app_nil_r.
  - exact (returnsLevel_bind (body x) (forEach xs body) (Hbody x) IH sb Hb).
Qed.

(** [open], calls that keep the level, [close]. *)
Lemma returnsLevel_block (openingLine : string) (f : t -> result t) :
  returnsLevel f ->
  returnsLevel (fun sb => sb1 ← open sb openingLine; sb2 ← f sb1; close sb2).
Proof.
  intros Hf sb Hb.
  destruct (open_returns sb openingLine Hb) as (sb1 & H1 & B1 & L1 & _ & [x T1]).
  destruct (Hf sb1 B1) as (sb2 & H2 & B2 & L2 & [y T2]).
  pose proof (close_returns sb2 B2) as H3.
  replace (indentationLevel sb2 =? 0) with false in H3
    by (symmetry; apply Z.eqb_neq; destruct Hb; lia).
  destruct H3 as (sb3 & H3 & B3 & L3 & [z T3]).
  exists sb3. rewrite H1. cbn [mbind result_bind]. rewrite H2. cbn [mbind result_bind].
  split; [exact H3|]. split; [exact B3|]. split; [lia|].
  exists (x +:+ y +:+ z). now rewrite T3, T2, T1, !string_app_assoc.
Qed.

Lemma returnsLevel_ext (f g : t -> result t) :
  (forall sb, f sb = g sb) -> returnsLevel f -> returnsLevel g.
Proof. intros E Hf sb Hb. rewrite <- E. now apply Hf. Qed.

Lemma returnsLevel_appendBlock header code :
  returnsLevel (TsDocument.appendBlock header code).
Proof.
  apply (returnsLevel_ext
           (fun sb => sb1 ← appendLine sb EmptyString;
                      (fun sb => sb1 ← open sb header;
                                 sb2 ← appendLines sb1 (toString code); close sb2) sb1));
    [reflexivity|].
  apply returnsLevel_bind; [apply returnsLevel_appendLine|].
  apply (returnsLevel_block header). apply returnsLevel_appendLines.
Qed.

Lemma returnsLevel_appendClass tsClass : returnsLevel (TsDocument.appendClass tsClass).
Proof.
  set (body := fun sb =>
         sb1 ← forEach (TsClass.properties tsClass)
                 (fun property sb => appendLine sb (TsClassProperty.line property)) sb;
         (fun sb =>
            sb2 ← match TsClass.constructorImpl tsClass with
                  | Some c => TsDocument.appendBlock (TsClassConstructor.header c)
                                (TsClassConstructor.code c) sb
                  | None => Ok sb
                  end;
            forEach (TsClass.methods tsClass)
              (fun method sb => TsDocument.appendBlock (TsClassMethod.header method)
                                  (TsClassMethod.code method) sb) sb2) sb1).
  apply (returnsLevel_ext
           (fun sb => sb1 ← appendLine sb EmptyString;
                      (fun sb => sb1 ← open sb (TsClass.header tsClass);
                                 sb2 ← body sb1; close sb2) sb1)).
  { intros sb. unfold TsDocument.appendClass, body.
    destruct (appendLine sb EmptyString) as [sb1|]; cbn [mbind result_bind]; [|reflexivity].
    destruct (open sb1 _) as [sb2|]; cbn [mbind result_bind]; [|reflexivity].
    destruct (forEach (TsClass.properties tsClass) _ sb2) as [sb3|];
      cbn [mbind result_bind]; [|reflexivity].
    destruct (match TsClass.constructorImpl tsClass with Some _ => _ | None => _ end)
      as [sb4|]; cbn [mbind result_bind]; reflexivity. }
  apply returnsLevel_bind; [apply returnsLevel_appendLine|].
  apply returnsLevel_block. unfold body.
  apply returnsLevel_bind.
  - apply returnsLevel_forEach. intros p. apply returnsLevel_appendLine.
  - apply returnsLevel_bind.
    + destruct (TsClass.constructorImpl tsClass) as [c|].
      * apply returnsLevel_appendBlock.
      * intros sb Hb. exists sb. repeat split; try apply Hb.
        exists EmptyString. now rewrite string_app_nil_r.
    + apply returnsLevel_forEach. intros m. apply returnsLevel_appendBlock.
Qed.

Lemma returnsLevel_appendEnum tsEnum : returnsLevel (TsDocument.appendEnum tsEnum).
Proof.
  apply (returnsLevel_ext
           (fun sb => sb1 ← appendLine sb EmptyString;
                      (fun sb =>
                         sb1 ← open sb (TsEnum.header tsEnum);
                         sb2 ← forEach (imap (fun i value => (i, value)) (TsEnum.values tsEnum))
                                 (fun '(i, value) sb =>
                                    appendLine sb
                                      (value +:+
                                       (if (i =? List.length (TsEnum.values tsEnum) - 1)%nat
                                        then EmptyString else ","))) sb1;
                         close sb2) sb1)); [reflexivity|].
  apply returnsLevel_bind; [apply returnsLevel_appendLine|].
  apply returnsLevel_block. apply returnsLevel_forEach. intros [i value].
  apply returnsLevel_appendLine.
Qed.

End DocumentFacts.

(** X23: [toString] of a document returns for every document, whatever
    its imports, classes, enums and method bodies: the [open] and
    [close] calls it makes are matched, so [Invalid close] is never
    thrown.  The text begins with the line that marks the document as
    generated. *)
Theorem document_toString_returns (d : TsDocument.t) :
  exists rest, TsDocument.toString d = Ok (TsDocument.headerLine +:+ rest).
Proof.
  unfold TsDocument.toString.
  assert (H0 : IndentedStringBuilder.appendLine IndentedStringBuilder.new TsDocument.headerLine
               = Ok (IndentedStringBuilder.mk TsDocument.headerLine 0 [false] None false))
    by reflexivity.
  cbv zeta. rewrite H0. cbn [mbind result_bind].
  set (sb0 := IndentedStringBuilder.mk TsDocument.headerLine 0 [false] None false).
  assert (B0 : IndentedStringBuilder.balanced sb0) by (repeat split; simpl; lia).
  destruct (returnsLevel_appendLine EmptyString sb0 B0) as (sb1 & H1 & B1 & _ & [x T1]).
  rewrite H1. cbn [mbind result_bind].
  destruct (returnsLevel_forEach (TsDocument.imports d)
              (fun tsImport sb =>
                 IndentedStringBuilder.appendLine sb
                   ("import { " +:+ TsImport.imports tsImport +:+ " } from "
                    +:+ Js.dq +:+ TsImport.from tsImport +:+ Js.dq))
              (fun i => returnsLevel_appendLine _) sb1 B1) as (sb2 & H2 & B2 & _ & [y T2]).
  rewrite H2. cbn [mbind result_bind].
  destruct (returnsLevel_forEach (TsDocument.types d)
              (fun tsType sb =>
                 match tsType with
                 | TsClassType tsClass => TsDocument.appendClass tsClass sb
                 | TsEnumType tsEnum => TsDocument.appendEnum tsEnum sb
                 | TsPlainType => Ok sb
                 end)) with (sb := sb2) as (sb3 & H3 & B3 & _ & [z T3]).
  - intros [c|e|].
    + apply returnsLevel_appendClass.
    + apply returnsLevel_appendEnum.
    + intros sb Hb. exists sb. repeat split; try apply Hb.
      exists EmptyString. now rewrite string_app_nil_r.
  - exact B2.
  - rewrite H3. cbn [mbind result_bind]. exists (x +:+ y +:+ z).
    unfold IndentedStringBuilder.toString. rewrite T3, T2, T1. simpl.
    now rewrite !string_app_assoc.
Qed.

(** ** Struct definitions and predefined types *)

(** X24: on a struct in a reachable state, [addValue] returns exactly
    when the new value is optional or the struct has no optional value
    yet.  It then appends the value, keeps the name, and the struct has
    an optional value afterwards exactly when it had one or the new
    value is optional. *)
Theorem struct_add_value_cases (s : SsStructDef.t) (v : SsStructValue.t) :
  SsStructDef.reachable s ->
  ((exists s', SsStructDef.addStructValue s v = Ok s')
   <-> SsStructValue.optional v = true \/ SsStructDef.hasOptional s = false)
  /\ (forall s', SsStructDef.addStructValue s v = Ok s' ->
        SsStructDef.values s' = SsStructDef.values s ++ [v]
        /\ SsStructDef.name s' = SsStructDef.name s
        /\ SsStructDef.hasOptional s'
           = SsStructDef.hasOptional s || SsStructValue.optional v).
Proof.
  intros Hs. pose proof (reachable_trailingOptional s Hs) as Ht.
  rewrite addStructValue_eq. rewrite !hasOptional_existsb.
  assert (Hlast : match last (SsStructDef._values s) with
                  | Some w => SsStructValue.optional w
                  | None => false
                  end = existsb SsStructValue.optional (SsStructDef._values s)).
  { destruct (existsb SsStructValue.optional (SsStructDef._values s)) eqn:He.
    - destruct (trailingOptional_last _ Ht He) as (w & Hw & Ow). now rewrite Hw.
    - destruct (last (SsStructDef._values s)) as [w|] eqn:Hw; [|reflexivity].
      apply last_Some in Hw as [l' Hl']. rewrite Hl', existsb_app in He. simpl in He.
      apply orb_false_iff in He as [_ He]. now rewrite orb_false_r in He. }
  rewrite Hlast.
  assert (Hlen : existsb SsStructValue.optional (SsStructDef._values s) = true ->
                 (0 <? List.length (SsStructDef._values s))%nat = true).
  { destruct (SsStructDef._values s); [discriminate | reflexivity]. }
  split.
  - destruct (SsStructValue.optional v), (existsb _ _) eqn:He; simpl;
      rewrite ?andb_false_r; simpl.
    + split; [auto | eauto].
    + split; [auto | eauto].
    + rewrite (Hlen eq_refl). simpl. split; [intros [s' Hs']; discriminate|].
      intros [H|H]; discriminate.
    + split; [auto | eauto].
  - intros s'. destruct (_ && _); [discriminate|]. intros [= <-].
    split; [reflexivity|]. split; [reflexivity|].
    rewrite hasOptional_existsb. simpl. rewrite existsb_app. simpl.
    now rewrite orb_false_r.
Qed.

Lemma struct_add_value_cases_witness :
  (exists s', SsStructDef.addStructValue (SsStructDef.new "Point")
                (SsStructValue.mk "X" false (Some Int) None false) = Ok s')
  <-> false = true \/ SsStructDef.hasOptional (SsStructDef.new "Point") = false.
Proof.
  apply (struct_add_value_cases (SsStructDef.new "Point")
           (SsStructValue.mk "X" false (Some Int) None false)).
  apply SsStructDef.reachable_new.
Defined.

(** X25: the lookup of a predefined type ignores letter case and nothing
    else: a text is found as the member [p] exactly when it equals the
    name of [p] up to letter case, and it is not found exactly when it
    equals none of the nine names up to letter case. *)
Theorem predefined_lookup_ignores_case_only (str : string) (p : SsPredefinedType) :
  (SsPredefinedTypeUtil.getPredefinedTypeOrNull str = Some p
   <-> Js.toLowerCase str = Js.toLowerCase (SsPredefinedTypeUtil.canonicalName p))
  /\ (SsPredefinedTypeUtil.getPredefinedTypeOrNull str = None
      <-> forall q, Js.toLowerCase str
                    <> Js.toLowerCase (SsPredefinedTypeUtil.canonicalName q)).
Proof.
  split; [split; [apply lookup_sound | apply lookup_any_casing]|]. split.
  - intros Hn q Hq. apply lookup_any_casing in Hq. congruence.
  - intros Hno. destruct (SsPredefinedTypeUtil.getPredefinedTypeOrNull str) as [q|] eqn:Hq;
      [|reflexivity].
    apply lookup_sound in Hq. now destruct (Hno q).
Qed.

(** ** The code generator *)

(** X26: the code generator supports six of the nine predefined types:
    the type name and the initial value are defined for the same
    members, and for [Date], [Time] and [Base64] both throw [Todo] with
    the number of the member.  The loader finds all nine by name, and
    the schema renders [Date] and [Time], so a schema that loads and
    serializes can be one the generator rejects. *)
Theorem generator_supports_six_predefined_types (p : SsPredefinedType) :
  ((exists s, SmlSchemaCodeGen.getPredefinedTypeString p = Ok s) <-> p ∉ [Date; Time; Base64])
  /\ ((exists s, SmlSchemaCodeGen.getPredefinedTypeInitialization p = Ok s)
      <-> p ∉ [Date; Time; Base64])
  /\ (p ∈ [Date; Time; Base64] ->
      SmlSchemaCodeGen.getPredefinedTypeString p
      = Throw ("Todo " +:+ Number.toString (Num (SmlSchemaCodeGen.enumValue p)))
      /\ SmlSchemaCodeGen.getPredefinedTypeInitialization p
         = Throw ("Todo " +:+ Number.toString (Num (SmlSchemaCodeGen.enumValue p))))
  /\ SsPredefinedTypeUtil.getPredefinedTypeOrNull (SsPredefinedTypeUtil.canonicalName p) = Some p
  /\ (p ∈ [Date; Time] ->
      SsPredefinedTypeUtil.getPredefinedTypeString p = Ok (SsPredefinedTypeUtil.canonicalName p)).
Proof.
  split; [|split; [|split; [|split]]].
  - destruct p; simpl; split;
      try (intros _; eexists; reflexivity);
      try (intros [s Hs]; discriminate Hs);
      try (intros _; apply (bool_decide_unpack _); vm_compute; exact I);
      intros Hn; exfalso; apply Hn; in_list.
  - destruct p; simpl; split;
      try (intros _; eexists; reflexivity);
      try (intros [s Hs]; discriminate Hs);
      try (intros _; apply (bool_decide_unpack _); vm_compute; exact I);
      intros Hn; exfalso; apply Hn; in_list.
  - intros Hp. repeat (apply elem_of_cons in Hp as [->|Hp]; [split; reflexivity|]).
    inversion Hp.
  - destruct p; reflexivity.
  - intros Hp. repeat (apply elem_of_cons in Hp as [->|Hp]; [reflexivity|]). inversion Hp.
Qed.

Lemma generator_supports_six_predefined_types_witness :
  SmlSchemaCodeGen.getPredefinedTypeString Date = Throw "Todo 5"
  /\ SmlSchemaCodeGen.getPredefinedTypeInitialization Date = Throw "Todo 5".
Proof.
  apply (generator_supports_six_predefined_types Date). in_list.
Defined.

(** X27: [generateUnorderedElement] throws [Does not contain source] when
    the referenced element has no generated type, and an error without
    message when the occurrence is none of required, optional and the
    two repeated kinds.  Otherwise it returns: the class has one more
    property, the last, and the load code has grown by a block that is
    closed again, so the builder is back at the indentation level it
    had.  The property is [T] initialised with [new T()] for a required
    element, [T | null] with [null] for an optional one, and [(T)[]]
    with the empty array, under the name followed by [List], for a
    repeated one. *)
Theorem generated_unordered_element {Obj : Type} `{Countable Obj} {Mapped : Type}
    (elementDefObject : SsUnorderedElement.t -> Obj)
    (typeLookup : TsLookup.t Obj Mapped) (unorderedElement : SsUnorderedElement.t)
    (elementClass : TsClass.t) (sbLoad : IndentedStringBuilder.t) :
  let occurrence := SsUnorderedElement.occurrence unorderedElement in
  let name := SsUnorderedElement.elementDef unorderedElement in
  let generate :=
    SmlSchemaCodeGen.generateUnorderedElement elementDefObject typeLookup unorderedElement
      elementClass sbLoad in
  IndentedStringBuilder.indentationLevel sbLoad >= 0 ->
  Z.of_nat (List.length (IndentedStringBuilder.firstLineStack sbLoad))
  = IndentedStringBuilder.indentationLevel sbLoad + 1 ->
  IndentedStringBuilder.firstLineStray sbLoad = None ->
  (TsLookup.getName typeLookup (elementDefObject unorderedElement)
   = Throw "Does not contain source" ->
   generate = Throw "Does not contain source")
  /\ (forall T,
        TsLookup.getName typeLookup (elementDefObject unorderedElement) = Ok T ->
        if SsRange.isRequired occurrence || SsRange.isOptional occurrence
           || SsRange.isRepeatedPlus occurrence || SsRange.isRepeatedStar occurrence
        then
          exists line sbLoad' code,
            generate = Ok (TsClass.addProperty elementClass line, sbLoad')
            /\ IndentedStringBuilder.indentationLevel sbLoad'
               = IndentedStringBuilder.indentationLevel sbLoad
            /\ List.length (IndentedStringBuilder.firstLineStack sbLoad')
               = List.length (IndentedStringBuilder.firstLineStack sbLoad)
            /\ IndentedStringBuilder.toString sbLoad'
               = IndentedStringBuilder.toString sbLoad +:+ code
            /\ line
               = if SsRange.isRequired occurrence then
                   TsUtil.getIdentifier name false +:+ ": " +:+ T +:+ " = new " +:+ T +:+ "()"
                 else if SsRange.isOptional occurrence then
                   TsUtil.getIdentifier name false +:+ ": " +:+ T +:+ " | null = null"
                 else
                   TsUtil.getIdentifier (name +:+ "List") false
                   +:+ ": (" +:+ T +:+ ")[] = []"
        else generate = Throw EmptyString).
Proof.
  intros occurrence name generate Hl Hs Hy.
  assert (Hb : IndentedStringBuilder.balanced sbLoad) by (split; [lia|]; split; assumption).
  subst generate. unfold SmlSchemaCodeGen.generateUnorderedElement.
  split; [intros ->; reflexivity|]. intros T ->. cbn [mbind result_bind].
  fold occurrence.
  destruct (SmlSchemaCodeGen.elementProperty unorderedElement T) as [[elementName typeName] init]
    eqn:Hprop.
  assert (Hline :
    SsRange.isRequired occurrence || SsRange.isOptional occurrence
    || SsRange.isRepeatedPlus occurrence || SsRange.isRepeatedStar occurrence = true ->
    elementName +:+ ": " +:+ typeName +:+ " = " +:+ init
    = if SsRange.isRequired occurrence then
        TsUtil.getIdentifier name false +:+ ": " +:+ T +:+ " = new " +:+ T +:+ "()"
      else if SsRange.isOptional occurrence then
        TsUtil.getIdentifier name false +:+ ": " +:+ T +:+ " | null = null"
      else TsUtil.getIdentifier (name +:+ "List") false +:+ ": (" +:+ T +:+ ")[] = []").
  { revert Hprop. unfold SmlSchemaCodeGen.elementProperty. fold occurrence. fold name.
    unfold SsRange.isRequired, SsRange.isOptional, SsRange.isRepeatedPlus,
      SsRange.isRepeatedStar.
    destruct occurrence as [[[|mn]|] [[|mx]|]];
      cbn [SsRange.min SsRange.max Number.strictEq andb orb];
      try (intros _ Hf; discriminate Hf);
      repeat match goal with
             | |- context [Z.eqb ?a ?b] => destruct (Z.eqb_spec a b); subst; cbn [andb orb]
             end;
      try lia;
      try (intros _ Hf; discriminate Hf);
      intros [= <- <- <-] _; rewrite ?string_app_assoc; reflexivity. }
  set (inner := fun sb : IndentedStringBuilder.t =>
         if SsRange.isRequired occurrence then
           sb1 ← IndentedStringBuilder.appendLine sb
                   ("let sCurElement: SmlElement = sElement.requiredElement("
                    +:+ TsUtil.escapeString (SsUnorderedElement.elementDef unorderedElement)
                    +:+ ")");
           IndentedStringBuilder.appendLine sb1
             ("element." +:+ elementName +:+ " = " +:+ (T +:+ ".load(sCurElement)"))
         else if SsRange.isOptional occurrence then
           sb1 ← IndentedStringBuilder.appendLine sb
                   ("let sCurElement: SmlElement | null = sElement.optionalElement("
                    +:+ TsUtil.escapeString (SsUnorderedElement.elementDef unorderedElement)
                    +:+ ")");
           sb2 ← IndentedStringBuilder.open sb1 "if (sCurElement !== null)";
           sb3 ← IndentedStringBuilder.appendLine sb2
                   ("element." +:+ elementName +:+ " = " +:+ (T +:+ ".load(sCurElement)"));
           IndentedStringBuilder.close sb3
         else
           sb1 ←
             (if SsRange.isRepeatedPlus occurrence then
                IndentedStringBuilder.open sb
                  ("for (let sCurElement of sElement.oneOrMoreAttributes("
                   +:+ TsUtil.escapeString (SsUnorderedElement.elementDef unorderedElement)
                   +:+ "))")
              else if SsRange.isRepeatedStar occurrence then
                IndentedStringBuilder.open sb
                  ("for (let sCurElement of sElement.attributes("
                   +:+ TsUtil.escapeString (SsUnorderedElement.elementDef unorderedElement)
                   +:+ "))")
              else Throw EmptyString);
           sb2 ← IndentedStringBuilder.appendLine sb1
                   ("element." +:+ elementName +:+ ".push(" +:+ (T +:+ ".load(sCurElement)")
                    +:+ ")");
           IndentedStringBuilder.close sb2).
  destruct (open_returns sbLoad EmptyString Hb) as (sb1 & H1 & B1 & L1 & _ & [x T1]).
  rewrite H1. cbn [mbind result_bind]. fold (inner sb1).
  destruct (SsRange.isRequired occurrence || SsRange.isOptional occurrence
            || SsRange.isRepeatedPlus occurrence || SsRange.isRepeatedStar occurrence) eqn:Hk.
  - assert (Hinner : IndentedStringBuilder.returnsLevel inner).
    { unfold inner. destruct (SsRange.isRequired occurrence).
      - apply returnsLevel_bind; apply returnsLevel_appendLine.
      - destruct (SsRange.isOptional occurrence).
        + apply returnsLevel_bind; [apply returnsLevel_appendLine|].
          apply returnsLevel_block. apply returnsLevel_appendLine.
        + simpl in Hk. destruct (SsRange.isRepeatedPlus occurrence).
          * apply returnsLevel_block. apply returnsLevel_appendLine.
          * simpl in Hk. rewrite Hk. apply returnsLevel_block. apply returnsLevel_appendLine. }
    destruct (Hinner sb1 B1) as (sb2 & H2 & B2 & L2 & [y T2]).
    rewrite H2. cbn [mbind result_bind].
    pose proof (close_returns sb2 B2) as H3.
    replace (IndentedStringBuilder.indentationLevel sb2 =? 0) with false in H3
      by (symmetry; apply Z.eqb_neq; lia).
    destruct H3 as (sb3 & H3 & B3 & L3 & [z T3]).
    rewrite H3. cbn [mbind result_bind].
    eexists _, sb3, (x +:+ y +:+ z). split; [reflexivity|].
    split; [lia|]. split; [destruct B3 as (_ & S3 & _); lia|].
    split; [unfold IndentedStringBuilder.toString;
            now rewrite T3, T2, T1, !string_app_assoc|].
    apply Hline. reflexivity.
  - apply orb_false_iff in Hk as [Hk K4]. apply orb_false_iff in Hk as [Hk K3].
    apply orb_false_iff in Hk as [K1 K2].
    unfold inner. rewrite K1, K2, K3, K4. reflexivity.
Qed.

Lemma generated_unordered_element_witness :
  exists line sbLoad' code,
    SmlSchemaCodeGen.generateUnorderedElement (Obj := nat) (Mapped := unit) (fun _ => 1%nat)
      (TsLookup.mk ["Point"] {[ 1%nat := "Point" ]} {[ 1%nat := tt ]} true)
      (SsUnorderedElement.mk "Point" (SsRange.mk (Some (Num 1)) (Some (Num 1))))
      (TsClass.new "class Shape") IndentedStringBuilder.new
    = Ok (TsClass.addProperty (TsClass.new "class Shape") line, sbLoad')
    /\ IndentedStringBuilder.indentationLevel sbLoad' = 0
    /\ List.length (IndentedStringBuilder.firstLineStack sbLoad') = 1%nat
    /\ IndentedStringBuilder.toString sbLoad' = EmptyString +:+ code
    /\ line = "point: Point = new Point()".
Proof.
  refine (proj2 (generated_unordered_element (Obj := nat) (Mapped := unit) (fun _ => 1%nat)
                   (TsLookup.mk ["Point"] {[ 1%nat := "Point" ]} {[ 1%nat := tt ]} true)
                   (SsUnorderedElement.mk "Point" (SsRange.mk (Some (Num 1)) (Some (Num 1))))
                   (TsClass.new "class Shape") IndentedStringBuilder.new _ eq_refl eq_refl)
            "Point" eq_refl).
  simpl. lia.
Defined.

(** X28: the property code the generator derives from a data type.  It
    throws for every struct type, for every array of a value type and
    for the predefined types [Date], [Time] and [Base64], and returns
    for every other predefined type, whatever the nullability and the
    array range.  When it returns for a data type that is array-nullable
    only as an array (as the constructor checks), the initial value fits
    the declared type: for a list it is the empty array and the type is
    an array type; else, when the value may be absent, it is [null] and
    the type ends in [| null]; else, for an array, it is the empty array
    and the type ends in [[]]; else both are the elemental ones. *)
Theorem generated_property_code {Obj : Type} `{Countable Obj} {Mapped : Type}
    (valueTypeObject : SsValueTypeDef -> Obj) (structObject : SsStructDef.t -> Obj)
    (typeLookup : TsLookup.t Obj Mapped) (dataType : SsAttributeDataType.t)
    (forceNullable asArray : bool) :
  let code :=
    SmlSchemaCodeGen.getAttributeDataTypePropertyCode valueTypeObject structObject
      typeLookup dataType forceNullable asArray in
  let isArray := SsAttributeDataType.isArray dataType in
  let absent :=
    (negb isArray && SsAttributeDataType.nullable dataType)
    || (isArray && SsAttributeDataType.arrayNullable dataType)
    || forceNullable in
  (SsAttributeDataType.predefinedType dataType = None ->
   SsAttributeDataType.valueTypeDef dataType = None \/ isArray = true ->
   exists msg, code = Throw msg)
  /\ (forall p, SsAttributeDataType.predefinedType dataType = Some p ->
        if bool_decide (p ∈ [Date; Time; Base64])
        then code = Throw (SmlSchemaCodeGen.todo p)
        else exists c, code = Ok c)
  /\ (forall c, code = Ok c ->
        (SsAttributeDataType.arrayNullable dataType = true -> isArray = true) ->
        exists T init,
          SmlSchemaCodeGen.getAttributeDataTypeString valueTypeObject structObject
            typeLookup dataType = Ok T
          /\ SmlSchemaCodeGen.getAttributeDataTypeInitialization dataType T = Ok init
          /\ if asArray then
               SmlSchemaCodeGen.initialization c = "[]"
               /\ exists inner, SmlSchemaCodeGen.typeName c = "(" +:+ inner +:+ ")[]"
             else if absent then
               SmlSchemaCodeGen.initialization c = "null"
               /\ exists inner, SmlSchemaCodeGen.typeName c = inner +:+ " | null"
             else if isArray then
               SmlSchemaCodeGen.initialization c = "[]"
               /\ exists inner, SmlSchemaCodeGen.typeName c = inner +:+ "[]"
             else
               SmlSchemaCodeGen.initialization c = init
               /\ SmlSchemaCodeGen.typeName c = T).
Proof.
  intros code isArray absent. subst code.
  unfold SmlSchemaCodeGen.getAttributeDataTypePropertyCode.
  split; [|split].
  - intros Hp Hv.
    unfold SmlSchemaCodeGen.getAttributeDataTypeString,
      SmlSchemaCodeGen.getAttributeDataTypeInitialization, SmlSchemaCodeGen.loadCode.
    rewrite Hp. fold isArray.
    destruct (SsAttributeDataType.valueTypeDef dataType) as [v|].
    + destruct Hv as [Hv|Hv]; [discriminate|]. rewrite Hv.
      destruct (TsLookup.getName typeLookup _) as [T|]; cbn [mbind result_bind]; [|eauto].
      destruct (SmlSchemaCodeGen.getValueTypeInitialization v T);
        cbn [mbind result_bind]; eauto.
    + destruct (SsAttributeDataType.structDef dataType) as [sd|];
        cbn [mbind result_bind]; [|eauto].
      destruct (TsLookup.getName typeLookup _) as [T|]; cbn [mbind result_bind]; eauto.
  - intros p Hp.
    unfold SmlSchemaCodeGen.getAttributeDataTypeString,
      SmlSchemaCodeGen.getAttributeDataTypeInitialization, SmlSchemaCodeGen.loadCode.
    rewrite Hp.
    destruct p; cbn [bool_decide decide_rel]; try reflexivity;
      cbn [SmlSchemaCodeGen.getPredefinedTypeString
           SmlSchemaCodeGen.getPredefinedTypeInitialization
           SsPredefinedTypeUtil.getPredefinedTypeString mbind result_bind];
      try reflexivity;
      (destruct (SsAttributeDataType.arrayRange dataType); eexists; reflexivity).
  - intros c.
    destruct (SmlSchemaCodeGen.getAttributeDataTypeString _ _ _ _) as [T|];
      cbn [mbind result_bind]; [|discriminate].
    destruct (SmlSchemaCodeGen.getAttributeDataTypeInitialization dataType T) as [init|] eqn:Hi;
      cbn [mbind result_bind]; [|discriminate].
    destruct (SmlSchemaCodeGen.loadCode dataType T) as [lc|]; cbn [mbind result_bind];
      [|discriminate].
    intros [= <-] Han. exists T, init. split; [reflexivity|]. split; [exact Hi|].
    cbn [SmlSchemaCodeGen.initialization SmlSchemaCodeGen.typeName].
    unfold SmlSchemaCodeGen.propertyInitialization, SmlSchemaCodeGen.propertyType.
    cbv zeta. fold isArray. fold absent.
    destruct asArray.
    { split; [reflexivity|]. eexists. reflexivity. }
    subst absent.
    destruct isArray, (SsAttributeDataType.nullable dataType),
      (SsAttributeDataType.arrayNullable dataType), forceNullable;
      cbn [negb andb orb]; try (specialize (Han eq_refl); discriminate Han);
      (split; [reflexivity|]); try reflexivity;
      first [ eexists; reflexivity
            | exists ("(" +:+ (T +:+ " | null") +:+ ")");
              rewrite !string_app_assoc; reflexivity ].
Qed.

Lemma generated_property_code_witness :
  exists msg,
    SmlSchemaCodeGen.getAttributeDataTypePropertyCode (Obj := nat) (Mapped := unit)
      (fun _ => 1%nat) (fun _ => 2%nat) (TsLookup.new true)
      (SsAttributeDataType.mk None None (Some (SsStructDef.new "Point")) false None false)
      false false
    = Throw msg.
Proof.
  apply (generated_property_code (Obj := nat) (Mapped := unit) (fun _ => 1%nat)
           (fun _ => 2%nat) (TsLookup.new true)
           (SsAttributeDataType.mk None None (Some (SsStructDef.new "Point")) false None false)
           false false).
  - reflexivity.
  - left. reflexivity.
Defined.

(** ** Nested scopes *)

(** X29: the scope of a new element inherits the types of the scope it
    is created in: every data-type text that loads in the enclosing
    scope loads to the same data type in the new scope, a text that is
    rejected there is rejected in the new scope too, and the lookups in
    the four lists of the new scope are those of the enclosing scope. *)
Theorem nested_scope_inherits_data_types (parent : SsDefinitions) (name dataTypeStr : string) :
  let nested := SsElementDef.definitions (SsElementDef.new name parent) in
  (forall d, SmlSchemaLoader.loadDataType dataTypeStr parent = Ok d ->
             SmlSchemaLoader.loadDataType dataTypeStr nested = Ok d)
  /\ (forall msg, SmlSchemaLoader.loadDataType dataTypeStr parent = Throw msg ->
                  exists msg', SmlSchemaLoader.loadDataType dataTypeStr nested = Throw msg')
  /\ (forall t, SsDefinitionList.getOrNull (SsDefinitions.valueTypeDefs nested) t
                = SsDefinitionList.getOrNull (SsDefinitions.valueTypeDefs parent) t
                /\ SsDefinitionList.getOrNull (SsDefinitions.structDefs nested) t
                   = SsDefinitionList.getOrNull (SsDefinitions.structDefs parent) t
                /\ SsDefinitionList.getOrNull (SsDefinitions.attributeDefs nested) t
                   = SsDefinitionList.getOrNull (SsDefinitions.attributeDefs parent) t
                /\ SsDefinitionList.getOrNull (SsDefinitions.elementDefs nested) t
                   = SsDefinitionList.getOrNull (SsDefinitions.elementDefs parent) t).
Proof.
  intros nested.
  assert (Hlook : forall t,
            SsDefinitionList.getOrNull (SsDefinitions.valueTypeDefs nested) t
            = SsDefinitionList.getOrNull (SsDefinitions.valueTypeDefs parent) t
            /\ SsDefinitionList.getOrNull (SsDefinitions.structDefs nested) t
               = SsDefinitionList.getOrNull (SsDefinitions.structDefs parent) t
            /\ SsDefinitionList.getOrNull (SsDefinitions.attributeDefs nested) t
               = SsDefinitionList.getOrNull (SsDefinitions.attributeDefs parent) t
            /\ SsDefinitionList.getOrNull (SsDefinitions.elementDefs nested) t
               = SsDefinitionList.getOrNull (SsDefinitions.elementDefs parent) t).
  { intros t. repeat split; reflexivity. }
  assert (Hres : forall t nullable r an,
            match DataTypeText.resolve t nullable r an parent with
            | Ok d => DataTypeText.resolve t nullable r an nested = Ok d
            | Throw _ => exists msg', DataTypeText.resolve t nullable r an nested = Throw msg'
            end).
  { intros t nullable r an. unfold DataTypeText.resolve.
    destruct (Hlook t) as (Hv & Hs & _). rewrite Hv.
    destruct (SsPredefinedTypeUtil.getPredefinedTypeOrNull t) as [p|].
    - cbn [mbind result_bind]. destruct (SsAttributeDataType.new _ _ _ _ _ _); eauto.
    - destruct (SsDefinitionList.getOrNull (SsDefinitions.valueTypeDefs parent) t) as [v|].
      + cbn [mbind result_bind]. destruct (SsAttributeDataType.new _ _ _ _ _ _); eauto.
      + unfold SsDefinitionList.get. rewrite Hs.
        destruct (SsDefinitionList.getOrNull (SsDefinitions.structDefs parent) t) as [sd|];
          cbn [mbind result_bind]; [|eauto].
        destruct (SsAttributeDataType.new _ _ _ _ _ _); eauto. }
  assert (Hload : match SmlSchemaLoader.loadDataType dataTypeStr parent with
                  | Ok d => SmlSchemaLoader.loadDataType dataTypeStr nested = Ok d
                  | Throw _ => exists msg', SmlSchemaLoader.loadDataType dataTypeStr nested
                                            = Throw msg'
                  end).
  { rewrite !loadDataType_stages.
    destruct (DataTypeText.stripArrayNullable dataTypeStr) as [an s1].
    destruct (DataTypeText.stripBounds s1) as [[r s2]|]; cbn [mbind result_bind]; [|eauto].
    destruct (DataTypeText.stripNullable s2) as [nullable t]. apply Hres. }
  split; [|split; [|exact Hlook]].
  - intros d Hd. now rewrite Hd in Hload.
  - intros msg Hm. now rewrite Hm in Hload.
Qed.

Lemma nested_scope_inherits_data_types_witness :
  exists d,
    SmlSchemaLoader.loadDataType "Color?"
      (SsElementDef.definitions
         (SsElementDef.new "Car"
            (SsDefinitions.setValueTypeDefs (SsDefinitions.new None None)
               (SsDefinitionList.setLocal
                  (SsDefinitions.valueTypeDefs (SsDefinitions.new None None)) "Color"
                  (SsEnumTypeDef "Color" ["Red"; "Green"])))))
    = Ok d.
Proof.
  eexists.
  apply (proj1 (nested_scope_inherits_data_types
                  (SsDefinitions.setValueTypeDefs (SsDefinitions.new None None)
                     (SsDefinitionList.setLocal
                        (SsDefinitions.valueTypeDefs (SsDefinitions.new None None)) "Color"
                        (SsEnumTypeDef "Color" ["Red"; "Green"])))
                  "Car" "Color?")).
  reflexivity.
Defined.
